(** * hr-system: employee directory, CSV import and export

    A shallow embedding of the application code:
    - [src/utils/csvExport.ts]       ([downloadCSV]),
    - [src/utils/csvImport.ts]       ([REQUIRED_HEADERS], [validateCSVData]),
    - [src/lib/database.ts]          ([checkEmailExists], [createEmployee],
                                      [initializeDatabase], [getEmployees]),
    - [src/components/CSVImportModal.tsx] ([getErrorMessage], [processFile],
                                      [downloadTemplate], [handleDrop],
                                      [handleFileSelect]),
    - [src/pages/EmployeeList.tsx]   ([filteredEmployees], [handleExportCSV],
                                      [fetchEmployees], what is rendered),
    - [src/pages/EmployeeRegistration.tsx] ([validateEmail], [onSubmit]).

    Representation.  A JavaScript string is represented by the byte string of
    its UTF-8 encoding (Rocq's [string]); this is also what the exported Blob
    and an uploaded File contain.  Equality, concatenation and substring
    search on well-formed text agree in both representations, and the
    characters the code inspects one by one (comma, quote, line feed, the
    e-mail alphabet) are ASCII.

    What lies outside the repository is a parameter of the development:
    - [String.prototype.toLowerCase] (full Unicode case mapping),
    - [Papa.parse] of the papaparse library,
    - the hosted database reached through the supabase client and the clock.
    Each parameter comes with a reference instance used to run the code on
    concrete inputs. *)

From Stdlib Require Import String Ascii List Bool Arith NArith Lia Permutation.
From Stdlib Require Import DecimalString.
Import ListNotations.
Open Scope list_scope.
Open Scope string_scope.
Open Scope nat_scope.

(* ================================================================= *)
(** ** JavaScript string primitives *)

Module JS.

(** The string with the given bytes. *)
Fixpoint bytes (l : list nat) : string :=
  match l with
  | [] => ""
  | b :: l' => String (ascii_of_nat b) (bytes l')
  end.

Definition LF : string := bytes [10].
Definition CR : string := bytes [13].
Definition DQUOTE : string := bytes [34].
(** U+FEFF, the byte order mark, in UTF-8. *)
Definition BOM : string := bytes [239; 187; 191].

Definition lf : ascii := ascii_of_nat 10.
Definition dquote : ascii := ascii_of_nat 34.
Definition comma : ascii := ","%char.

(** [s.length === 0], i.e. [!s] for a string. *)
Definition isEmpty (s : string) : bool :=
  match s with "" => true | _ => false end.

(** [s.startsWith(p)]. *)
Fixpoint startsWith (p s : string) : bool :=
  match p, s with
  | "", _ => true
  | String a p', String b s' => Ascii.eqb a b && startsWith p' s'
  | String _ _, "" => false
  end.

(** [s.includes(t)]. *)
Fixpoint includes (s t : string) : bool :=
  startsWith t s ||
  match s with
  | "" => false
  | String _ s' => includes s' t
  end.

(** [parts.join(sep)]. *)
Fixpoint join (sep : string) (parts : list string) : string :=
  match parts with
  | [] => ""
  | [p] => p
  | p :: rest => p ++ sep ++ join sep rest
  end.

Fixpoint rev (s : string) : string :=
  match s with
  | "" => ""
  | String c s' => rev s' ++ String c ""
  end.

(** White space and line terminators removed by [trim]: U+0009..U+000D,
    U+0020 (one byte); U+00A0 (C2 A0); U+1680, U+2000..U+200A, U+2028,
    U+2029, U+202F, U+205F, U+3000, U+FEFF (three bytes). *)
Definition ws1 (a : ascii) : bool :=
  let n := nat_of_ascii a in ((9 <=? n) && (n <=? 13)) || (n =? 32).

Definition ws2 (a b : ascii) : bool :=
  (nat_of_ascii a =? 194) && (nat_of_ascii b =? 160).

Definition ws3 (a b c : ascii) : bool :=
  let x := nat_of_ascii a in
  let y := nat_of_ascii b in
  let z := nat_of_ascii c in
  ((x =? 225) && (y =? 154) && (z =? 128)) ||
  ((x =? 226) && (y =? 128) &&
     (((128 <=? z) && (z <=? 138)) || (z =? 168) || (z =? 169) || (z =? 175))) ||
  ((x =? 226) && (y =? 129) && (z =? 159)) ||
  ((x =? 227) && (y =? 128) && (z =? 128)) ||
  ((x =? 239) && (y =? 187) && (z =? 191)).

(** [s.trimStart()]; [rv] tells that [s] is read backwards, so that the
    bytes of a character arrive last byte first. *)
Fixpoint strip (rv : bool) (s : string) : string :=
  match s with
  | String a s1 =>
      if ws1 a then strip rv s1
      else
        match s1 with
        | String b s2 =>
            if (if rv then ws2 b a else ws2 a b) then strip rv s2
            else
              match s2 with
              | String c s3 =>
                  if (if rv then ws3 c b a else ws3 a b c) then strip rv s3
                  else s
              | "" => s
              end
        | "" => s
        end
  | "" => s
  end.

Definition trimStart (s : string) : string := strip false s.
Definition trimEnd (s : string) : string := rev (strip true (rev s)).
Definition trim (s : string) : string := trimEnd (trimStart s).

(** [s.endsWith(t)]. *)
Definition endsWith (s t : string) : bool := startsWith (rev t) (rev s).

(** ASCII instance of [toLowerCase], for running the code on ASCII text. *)
Definition lowerAscii (a : ascii) : ascii :=
  let n := nat_of_ascii a in
  if (65 <=? n) && (n <=? 90) then ascii_of_nat (n + 32) else a.

Fixpoint toLowerCaseAscii (s : string) : string :=
  match s with
  | "" => ""
  | String a s' => String (lowerAscii a) (toLowerCaseAscii s')
  end.

End JS.

(* ================================================================= *)
(** ** Regular expressions (anchored [test]) *)

Module Regex.

Inductive re : Type :=
| Void                         (* matches nothing *)
| Eps                          (* the empty string *)
| Class (p : ascii -> bool)    (* one character of a class *)
| Cat (r1 r2 : re)
| Alt (r1 r2 : re)
| Star (r : re).

(** [r+] and [r{2,}]. *)
Definition Plus (r : re) : re := Cat r (Star r).
Definition AtLeast2 (r : re) : re := Cat r (Cat r (Star r)).

Fixpoint nullable (r : re) : bool :=
  match r with
  | Void => false
  | Eps => true
  | Class _ => false
  | Cat r1 r2 => nullable r1 && nullable r2
  | Alt r1 r2 => nullable r1 || nullable r2
  | Star _ => true
  end.

Fixpoint deriv (c : ascii) (r : re) : re :=
  match r with
  | Void => Void
  | Eps => Void
  | Class p => if p c then Eps else Void
  | Cat r1 r2 =>
      if nullable r1 then Alt (Cat (deriv c r1) r2) (deriv c r2)
      else Cat (deriv c r1) r2
  | Alt r1 r2 => Alt (deriv c r1) (deriv c r2)
  | Star r1 => Cat (deriv c r1) (Star r1)
  end.

(** [/^r$/.test(s)]. *)
Fixpoint test (r : re) (s : string) : bool :=
  match s with
  | "" => nullable r
  | String c s' => test (deriv c r) s'
  end.

(** Character classes of the e-mail pattern under the [i] flag: a letter
    class [A-Z] also accepts [a-z]; no byte above 127 is accepted. *)
Definition between (lo hi : nat) (c : ascii) : bool :=
  (lo <=? nat_of_ascii c) && (nat_of_ascii c <=? hi).
Definition letter (c : ascii) : bool := between 65 90 c || between 97 122 c.
Definition digit (c : ascii) : bool := between 48 57 c.
Definition oneOf (cs : string) (c : ascii) : bool :=
  existsb (Ascii.eqb c) (list_ascii_of_string cs).

End Regex.

(* ================================================================= *)
(** ** Data model *)

(** The five text attributes of an employee: the argument of
    [createEmployee], the rows of an import, and the properties that
    [downloadCSV] reads from each element of its argument. *)
Record EmployeeData : Type := mkData {
  name : string;
  email : string;
  company_name : string;
  department : string;
  position : string
}.

(** A stored employee: the five attributes plus the server-assigned
    identifier and the creation timestamp. *)
Record Employee : Type := mkEmployee {
  id : string;
  fields : EmployeeData;
  created_at : string
}.

(** An uploaded [File]: its [size] in bytes and its bytes. *)
Record File : Type := mkFile {
  file_name : string;
  size : N;
  file_bytes : string
}.

(* ================================================================= *)
(** ** papaparse: the interface used by the import, and a reference model *)

Module Papa.

(** A row object built under [header: true]: the bindings in the order
    they were assigned; a later binding of a key overrides an earlier one. *)
Definition Row : Type := list (string * string).

(** [row[key]], [None] standing for [undefined]. *)
Definition get (row : Row) (key : string) : option string :=
  match find (fun kv => String.eqb (fst kv) key) (List.rev row) with
  | Some kv => Some (snd kv)
  | None => None
  end.

(** [results.data] and [results.meta.fields]. *)
Record Results : Type := mkResults {
  data : list Row;
  meta_fields : list string
}.

(** What [Papa.parse(file, {header: true, complete, error})] ends with:
    a call of [complete(results)] or of [error(error)]. *)
Inductive Outcome : Type :=
| Complete (results : Results)
| Error (message : string).

(** *** Reference model

    The library's parser with its defaults as they apply to files written
    by the export and by the import template: comma delimiter, line feed
    between rows, double quote as quote and escape character.  A field
    that opens with a quote runs to the closing quote, a doubled quote
    standing for one; a quote inside a quoted field that is followed by
    neither a quote, a delimiter, a line feed nor the end of the input is
    kept as data; an unterminated quoted field yields the rest of the
    input unchanged.  Blanks between a closing quote and the delimiter,
    other line endings and delimiter detection are not modelled. *)

Inductive mode : Type := FieldStart | Unquoted | Quoted | QuoteSeen.

Definition snoc (s : string) (c : ascii) : string := s ++ String c "".

Fixpoint scan (m : mode) (val raw : string) (row : list string)
         (input : string) : list (list string) :=
  match input with
  | "" =>
      match m with
      | Quoted => [(row ++ [raw])%list]
      | _ => [(row ++ [val])%list]
      end
  | String c rest =>
      match m with
      | FieldStart =>
          if Ascii.eqb c JS.dquote then scan Quoted "" "" row rest
          else if Ascii.eqb c JS.comma then
            scan FieldStart "" "" (row ++ [""])%list rest
          else if Ascii.eqb c JS.lf then
            (row ++ [""])%list :: scan FieldStart "" "" [] rest
          else scan Unquoted (String c "") "" row rest
      | Unquoted =>
          if Ascii.eqb c JS.comma then
            scan FieldStart "" "" (row ++ [val])%list rest
          else if Ascii.eqb c JS.lf then
            (row ++ [val])%list :: scan FieldStart "" "" [] rest
          else scan Unquoted (snoc val c) "" row rest
      | Quoted =>
          if Ascii.eqb c JS.dquote then scan QuoteSeen val raw row rest
          else scan Quoted (snoc val c) (snoc raw c) row rest
      | QuoteSeen =>
          if Ascii.eqb c JS.dquote then
            scan Quoted (snoc val JS.dquote)
                 (snoc (snoc raw JS.dquote) JS.dquote) row rest
          else if Ascii.eqb c JS.comma then
            scan FieldStart "" "" (row ++ [val])%list rest
          else if Ascii.eqb c JS.lf then
            (row ++ [val])%list :: scan FieldStart "" "" [] rest
          else
            scan Quoted (snoc (snoc val JS.dquote) c)
                 (snoc (snoc raw JS.dquote) c) row rest
      end
  end.

(** The rows of an input; the empty input has none. *)
Definition parse_rows (input : string) : list (list string) :=
  if JS.isEmpty input then [] else scan FieldStart "" "" [] input.

(** Decoding the file as UTF-8 text drops a leading byte order mark. *)
Definition stripBom (s : string) : string :=
  match s with
  | String a (String b (String c rest)) =>
      if JS.startsWith JS.BOM s then rest else s
  | _ => s
  end.

(** [row[fields[j]] = values[j]] for every [j] below both lengths; values
    beyond the header go to [__parsed_extra], which the import never reads. *)
Fixpoint zipRow (fields values : list string) : Row :=
  match fields, values with
  | f :: fs, v :: vs => (f, v) :: zipRow fs vs
  | _, _ => []
  end.

(** Under [header: true] the first row names the fields and every other
    row becomes an object. *)
Definition parse (input : string) : Results :=
  match parse_rows (stripBom input) with
  | [] => mkResults [] []
  | header :: rows => mkResults (map (zipRow header) rows) header
  end.

Definition parseFile (file : File) : Outcome :=
  Complete (parse (file_bytes file)).

End Papa.

(* ================================================================= *)
(** ** src/utils/csvExport.ts *)

Module CsvExport.

(** What the browser is asked to download: the [download] attribute of
    the link and the content of the Blob. *)
Record Download : Type := mkDownload {
  download_filename : string;
  blob : string
}.

(** [Object.values(headers)]: the values in the order the keys [name],
    [email], [company_name], [department], [position] were written. *)
Definition headers : list string :=
  ["氏名"; "メールアドレス"; "会社名"; "部署"; "役職"].

Definition quoted (s : string) : string := JS.DQUOTE ++ s ++ JS.DQUOTE.

Definition dataRow (row : EmployeeData) : string :=
  JS.join ","
    [quoted (name row); quoted (email row); quoted (company_name row);
     quoted (department row); quoted (position row)].

Definition csvContent (data : list EmployeeData) : string :=
  JS.join JS.LF (JS.join "," headers :: map dataRow data).

Definition downloadCSV (data : list EmployeeData) (filename : string)
  : Download :=
  mkDownload filename (JS.BOM ++ csvContent data).

End CsvExport.

(* ================================================================= *)
(** ** src/utils/csvImport.ts *)

Module CsvImport.

Record ValidationResult : Type := mkResult {
  valid : bool;
  errors : list string;
  data : option (list EmployeeData)     (* [None]: the property is absent *)
}.

Definition REQUIRED_HEADERS : list (string * string) :=
  [("会社名", "company_name");
   ("氏名", "name");
   ("メールアドレス", "email");
   ("部署", "department");
   ("役職", "position")].

(** [/^[A-Z0-9._%+-]+@[A-Z0-9.-]+\.[A-Z]{2,}$/i] *)
Definition EMAIL : Regex.re :=
  let local c := Regex.letter c || Regex.digit c || Regex.oneOf "._%+-" c in
  let domain c := Regex.letter c || Regex.digit c || Regex.oneOf ".-" c in
  Regex.Cat (Regex.Plus (Regex.Class local))
    (Regex.Cat (Regex.Class (Ascii.eqb "@"%char))
       (Regex.Cat (Regex.Plus (Regex.Class domain))
          (Regex.Cat (Regex.Class (Ascii.eqb "."%char))
             (Regex.AtLeast2 (Regex.Class Regex.letter))))).

(** [String(n)] for a row number. *)
Definition showNat (n : nat) : string :=
  NilEmpty.string_of_uint (Nat.to_uint n).

(** [!v?.trim()] *)
Definition blank (v : option string) : bool :=
  match v with
  | None => true
  | Some s => JS.isEmpty (JS.trim s)
  end.

Definition requiredErrors (rowNum : nat) (row : Papa.Row) : list string :=
  flat_map
    (fun hf : string * string =>
       if blank (Papa.get row (fst hf))
       then [showNat rowNum ++ "行目: " ++ fst hf ++ "は必須です"]
       else [])
    REQUIRED_HEADERS.

Definition emailErrors (rowNum : nat) (row : Papa.Row) : list string :=
  match Papa.get row "メールアドレス" with
  | Some email =>
      if negb (JS.isEmpty email) && negb (Regex.test EMAIL email)
      then [showNat rowNum ++ "行目: メールアドレスの形式が不正です"]
      else []
  | None => []
  end.

(** The [rowErrors] array at the end of the filter callback. *)
Definition rowErrors (rowNum : nat) (row : Papa.Row) : list string :=
  (requiredErrors rowNum row ++ emailErrors rowNum row)%list.

(** [results.data.filter(...)] from index [i] on: the messages pushed to
    [errors] and the rows kept. *)
Fixpoint filterRows (i : nat) (rows : list Papa.Row)
  : list string * list Papa.Row :=
  match rows with
  | [] => ([], [])
  | row :: rest =>
      let errs := rowErrors (i + 2) row in
      let '(es, kept) := filterRows (S i) rest in
      match errs with
      | [] => (es, row :: kept)
      | _ => ((errs ++ es)%list, kept)
      end
  end.

(** The object built by the [map] callback; a property that is
    [undefined] is shown as the empty string (it never is for a kept row). *)
Definition toRecord (row : Papa.Row) : EmployeeData :=
  let prop key := match Papa.get row key with Some v => v | None => "" end in
  {| company_name := prop "会社名";
     name := prop "氏名";
     email := prop "メールアドレス";
     department := prop "部署";
     position := prop "役職" |}.

(** [Object.keys(REQUIRED_HEADERS).filter(header => !headers.includes(header))] *)
Definition missingHeaders (headers : list string) : list string :=
  filter (fun header => negb (existsb (String.eqb header) headers))
         (map fst REQUIRED_HEADERS).

(** What the check of the headers pushes to [errors]. *)
Definition headerErrors (headers : list string) : list string :=
  match missingHeaders headers with
  | [] => []
  | missing => ["必須列が不足しています: " ++ JS.join ", " missing]
  end.

(** The [complete] callback. *)
Definition complete (results : Papa.Results) : ValidationResult :=
  let headers := Papa.meta_fields results in
  let '(rowErrs, kept) := filterRows 0 (Papa.data results) in
  let validData := map toRecord kept in
  let errors := (headerErrors headers ++ rowErrs)%list in
  {| valid := match errors with [] => true | _ => false end
              && (0 <? length validData);
     errors := errors;
     data := Some validData |}.

(** The [error] callback. *)
Definition error (message : string) : ValidationResult :=
  {| valid := false;
     errors := ["CSVファイルの解析に失敗しました: " ++ message];
     data := None |}.

Section WithParser.
Variable papa_parse : File -> Papa.Outcome.

Definition validateCSVData (file : File) : ValidationResult :=
  match papa_parse file with
  | Papa.Complete results => complete results
  | Papa.Error message => error message
  end.
End WithParser.

End CsvImport.

(* ================================================================= *)
(** ** Asynchronous code: state and exceptions *)

Module Eff.

(** An awaited computation either returns or throws. *)
Inductive Result (E A : Type) : Type :=
| Ret (a : A)
| Throw (e : E).
Arguments Ret {E A} a.
Arguments Throw {E A} e.

Definition M (S E A : Type) : Type := S -> Result E A * S.

Definition ret {S E A} (a : A) : M S E A := fun s => (Ret a, s).
Definition throw {S E A} (e : E) : M S E A := fun s => (Throw e, s).

Definition bind {S E A B} (m : M S E A) (k : A -> M S E B) : M S E B :=
  fun s =>
    match m s with
    | (Ret a, s') => k a s'
    | (Throw e, s') => (Throw e, s')
    end.

(** [try { m } catch (e) { handler(e) }] *)
Definition try_catch {S E A} (m : M S E A) (handler : E -> M S E A)
  : M S E A :=
  fun s =>
    match m s with
    | (Ret a, s') => (Ret a, s')
    | (Throw e, s') => handler e s'
    end.

(** [try { m } finally { cleanup }] *)
Definition try_finally {S E A} (m : M S E A) (cleanup : M S E unit)
  : M S E A :=
  fun s =>
    match m s with
    | (r, s') =>
        match cleanup s' with
        | (Ret _, s'') => (r, s'')
        | (Throw e, s'') => (Throw e, s'')
        end
    end.

Definition modify {S E} (f : S -> S) : M S E unit := fun s => (Ret tt, f s).
Definition gets {S E A} (f : S -> A) : M S E A := fun s => (Ret (f s), s).

(** Running a computation on the second component of a pair of states. *)
Definition inner {S1 S2 E A} (m : M S2 E A) : M (S1 * S2) E A :=
  fun s => match m (snd s) with (r, s2) => (r, (fst s, s2)) end.

(** [for (const x of xs) { acc = body(acc, x) }], each iteration awaited
    before the next one starts. *)
Fixpoint for_of {S E A X} (body : A -> X -> M S E A) (acc : A)
         (xs : list X) : M S E A :=
  match xs with
  | [] => ret acc
  | x :: rest => bind (body acc x) (fun acc' => for_of body acc' rest)
  end.

End Eff.

Declare Scope eff_scope.
Delimit Scope eff_scope with eff.
Notation "x <- m ;; k" := (Eff.bind m (fun x => k))
  (at level 61, m at next level, right associativity) : eff_scope.
Notation "m ;; k" := (Eff.bind m (fun _ => k))
  (at level 61, right associativity) : eff_scope.

(* ================================================================= *)
(** ** src/lib/database.ts *)

Module Database.

(** The [error] member of a response of the client. [is_Error] tells
    whether the object is an instance of [Error] (it depends on the
    version of the client). *)
Record PostgrestError : Type := mkPgError {
  code : string;
  message : string;
  is_Error : bool
}.

(** The [{ data, error }] pair a request resolves to. *)
Record Response (A : Type) : Type := mkResponse {
  data : option A;
  error : option PostgrestError
}.
Arguments mkResponse {A} data error.
Arguments data {A} r.
Arguments error {A} r.

(** The hosted backend and the clock, as seen from the application. *)
Class Backend (B : Type) : Type := {
  (** [from('employees').select('id').eq('email', email).single()] *)
  selectIdByEmail : string -> B -> Response string * B;
  (** [from('employees').insert([{...data, created_at}]).select().single()] *)
  insertEmployee : EmployeeData -> string -> B -> Response Employee * B;
  (** [new Date().toISOString()] *)
  nowISO : B -> string
}.

(** Calls recorded while the code runs: each invocation of
    [createEmployee] and each request sent to the backend. *)
Inductive Call : Type :=
| CallCreateEmployee (data : EmployeeData)
| RequestSelect (email : string)
| RequestInsert (data : EmployeeData) (created_at : string).

Record World (B : Type) : Type := mkWorld {
  backend : B;
  calls : list Call
}.
Arguments mkWorld {B} backend calls.
Arguments backend {B} w.
Arguments calls {B} w.

(** A thrown value: [new Error(message)] made by the application, or an
    error object of the client thrown as it is. *)
Inductive Thrown : Type :=
| NewError (message : string)
| Rethrown (e : PostgrestError).

Definition DUPLICATE_EMAIL : string :=
  "このメールアドレスは既に登録されています".

Section WithBackend.
Context {B : Type} `{Backend B}.
Local Open Scope eff_scope.

Definition record (c : Call) : Eff.M (World B) Thrown unit :=
  Eff.modify (fun w => mkWorld (backend w) (calls w ++ [c])%list).

Definition requestSelect (email : string)
  : Eff.M (World B) Thrown (Response string) :=
  record (RequestSelect email) ;;
  fun w =>
    let (r, b) := selectIdByEmail email (backend w) in
    (Eff.Ret r, mkWorld b (calls w)).

Definition requestInsert (data : EmployeeData) (created_at : string)
  : Eff.M (World B) Thrown (Response Employee) :=
  record (RequestInsert data created_at) ;;
  fun w =>
    let (r, b) := insertEmployee data created_at (backend w) in
    (Eff.Ret r, mkWorld b (calls w)).

Definition checkEmailExists (email : string)
  : Eff.M (World B) Thrown bool :=
  r <- requestSelect email ;;
  match error r with
  | Some e =>
      if negb (String.eqb (code e) "PGRST116") then Eff.throw (Rethrown e)
      else Eff.ret (match data r with Some _ => true | None => false end)
  | None =>
      Eff.ret (match data r with Some _ => true | None => false end)
  end.

Definition createEmployee (data : EmployeeData)
  : Eff.M (World B) Thrown (option Employee) :=
  record (CallCreateEmployee data) ;;
  (* First check if email already exists *)
  emailExists <- checkEmailExists (email data) ;;
  if emailExists then Eff.throw (NewError DUPLICATE_EMAIL)
  else
    now <- Eff.gets (fun w => nowISO (backend w)) ;;
    r <- requestInsert data now ;;
    match error r with
    | Some e =>
        if String.eqb (code e) "23505"
        then Eff.throw (NewError DUPLICATE_EMAIL)
        else Eff.throw (Rethrown e)
    | None => Eff.ret (Database.data r)
    end.

End WithBackend.

(** *** Reference backend

    A table with a unique constraint on [email]; it answers every request.
    [single()] yields the row when exactly one matches and the error
    [PGRST116] otherwise; an insert of a present e-mail address is refused
    with the error [23505]. *)
Record Table : Type := mkTable {
  rows : list Employee;
  clock : string
}.

Definition hasEmail (e : string) (employee : Employee) : bool :=
  String.eqb (email (fields employee)) e.

Definition table_select (e : string) (t : Table) : Response string * Table :=
  match filter (hasEmail e) (rows t) with
  | [employee] => (mkResponse (Some (id employee)) None, t)
  | _ => (mkResponse None
            (Some (mkPgError "PGRST116"
                     "JSON object requested, multiple (or no) rows returned"
                     false)), t)
  end.

Definition table_insert (d : EmployeeData) (created : string) (t : Table)
  : Response Employee * Table :=
  if existsb (hasEmail (email d)) (rows t) then
    (mkResponse None
       (Some (mkPgError "23505"
                "duplicate key value violates unique constraint" false)), t)
  else
    let employee :=
      mkEmployee ("id-" ++ CsvImport.showNat (length (rows t))) d created in
    (mkResponse (Some employee) None,
     mkTable (rows t ++ [employee])%list (clock t)).

#[export] Instance TableBackend : Backend Table := {
  selectIdByEmail := table_select;
  insertEmployee := table_insert;
  nowISO := clock
}.

End Database.

#[global] Existing Instance Database.TableBackend.

(* ================================================================= *)
(** ** src/components/CSVImportModal.tsx *)

Module CSVImportModal.
Import Database.

(** The component state that [processFile] writes, and the number of
    calls of the [onSuccess] property. *)
Record ModalState : Type := mkModal {
  isProcessing : bool;
  errors : list string;
  successCount : nat;
  onSuccessCalls : nat
}.

Definition setIsProcessing (b : bool) (m : ModalState) : ModalState :=
  mkModal b (errors m) (successCount m) (onSuccessCalls m).
Definition setErrors (e : list string) (m : ModalState) : ModalState :=
  mkModal (isProcessing m) e (successCount m) (onSuccessCalls m).
Definition setSuccessCount (n : nat) (m : ModalState) : ModalState :=
  mkModal (isProcessing m) (errors m) n (onSuccessCalls m).
Definition onSuccess (m : ModalState) : ModalState :=
  mkModal (isProcessing m) (errors m) (successCount m) (S (onSuccessCalls m)).

(** The local variables of the import loop. *)
Record Loop : Type := mkLoop {
  imported : nat;
  importErrors : list string;
  duplicateEmails : list string        (* the [Set], in insertion order *)
}.

Definition MAX_SIZE : N := 5 * 1024 * 1024.

Section WithEnvironment.
Variable toLowerCase : string -> string.
Variable papa_parse : File -> Papa.Outcome.
Context {B : Type} `{Backend B}.
Local Open Scope eff_scope.

Definition instanceofError (error : Thrown) : bool :=
  match error with
  | NewError _ => true
  | Rethrown e => is_Error e
  end.

Definition messageOf (error : Thrown) : string :=
  match error with
  | NewError m => m
  | Rethrown e => message e
  end.

Definition fieldName (errorMsg fallback : string) : string :=
  if JS.includes errorMsg "email" then "メールアドレス"
  else if JS.includes errorMsg "name" then "氏名"
  else if JS.includes errorMsg "company" then "会社名"
  else if JS.includes errorMsg "department" then "部署"
  else if JS.includes errorMsg "position" then "役職"
  else fallback.

Definition getErrorMessage (error : Thrown) (employeeName : string)
  : string :=
  let systemError :=
    employeeName ++ "の登録に失敗しました: システムエラーが発生しました" in
  if instanceofError error then
    let errorMsg := toLowerCase (messageOf error) in
    if JS.includes errorMsg "duplicate key"
       || JS.includes errorMsg "unique constraint" then
      employeeName ++ "のメールアドレスは既に登録されています"
    else if JS.includes errorMsg "invalid email"
            || JS.includes errorMsg "email format" then
      employeeName ++ "のメールアドレスの形式が正しくありません"
    else if JS.includes errorMsg "required" then
      employeeName ++ "の" ++ fieldName errorMsg "必須項目"
        ++ "が入力されていません"
    else if JS.includes errorMsg "too long" then
      employeeName ++ "の" ++ fieldName errorMsg "データ" ++ "が長すぎます"
    else if JS.includes errorMsg "database"
            || JS.includes errorMsg "db error" then
      employeeName ++ "の登録中にデータベースエラーが発生しました"
    else systemError
  else systemError.

Definition duplicateInFile (employeeName : string) : string :=
  employeeName ++ "のメールアドレスがCSVファイル内で重複しています".

(** One iteration of [for (const record of result.data)].  The test of
    the set, the [push] and the [add] cannot throw, so the [try] block
    is entered, in effect, at the call of [createEmployee]. *)
Definition importRecord (st : Loop) (record : EmployeeData)
  : Eff.M (World B) Thrown Loop :=
  if existsb (String.eqb (email record)) (duplicateEmails st) then
    Eff.ret (mkLoop (imported st)
               (importErrors st ++ [duplicateInFile (name record)])%list
               (duplicateEmails st))
  else
    let seen := (duplicateEmails st ++ [email record])%list in
    Eff.try_catch
      (_ <- createEmployee record ;;
       Eff.ret (mkLoop (S (imported st)) (importErrors st) seen))
      (fun error =>
         Eff.ret (mkLoop (imported st)
                    (importErrors st
                       ++ [getErrorMessage error (name record)])%list
                    seen)).

Definition importLoop (records : list EmployeeData)
  : Eff.M (World B) Thrown Loop :=
  Eff.for_of importRecord (mkLoop 0 [] []) records.

Definition State : Type := (ModalState * World B)%type.

Definition update (f : ModalState -> ModalState) : Eff.M State Thrown unit :=
  Eff.modify (fun s : State => (f (fst s), snd s)).

(** The body of the outer [try]. *)
Definition processBody (file : File) : Eff.M State Thrown unit :=
  if (MAX_SIZE <? size file)%N then
    update (setErrors ["ファイルサイズは5MB以下にしてください"])
  else
    let result := CsvImport.validateCSVData papa_parse file in
    if negb (CsvImport.valid result) then
      update (setErrors (CsvImport.errors result))
    else
      match CsvImport.data result with
      | None =>
          (* [for (... of undefined)] throws a TypeError *)
          Eff.throw (NewError "result.data is not iterable")
      | Some records =>
          (* Import valid records *)
          st <- Eff.inner (importLoop records) ;;
          update (setSuccessCount (imported st)) ;;
          (match importErrors st with
           | [] => Eff.ret tt
           | _ => update (setErrors (importErrors st))
           end) ;;
          if 0 <? imported st then update onSuccess else Eff.ret tt
      end.

(** The outer [catch]. *)
Definition processCatch (error : Thrown) : Eff.M State Thrown unit :=
  if instanceofError error then
    if JS.includes (messageOf error) "Parse error" then
      update (setErrors
             ["CSVファイルの形式が不正です。UTF-8エンコーディングで保存されているか確認してください"])
    else if JS.includes (messageOf error) "encoding" then
      update (setErrors
             ["ファイルの文字コードが不正です。UTF-8で保存し直してください"])
    else
      update (setErrors ["ファイル処理エラー: " ++ getErrorMessage error ""])
  else Eff.ret tt.

Definition processFile (file : File) : Eff.M State Thrown unit :=
  update (setIsProcessing true) ;;
  update (setErrors []) ;;
  update (setSuccessCount 0) ;;
  Eff.try_finally
    (Eff.try_catch (processBody file) processCatch)
    (update (setIsProcessing false)).

End WithEnvironment.

End CSVImportModal.

(* ================================================================= *)
(** ** src/pages/EmployeeList.tsx *)

Module EmployeeList.

Section WithLowerCase.
Variable toLowerCase : string -> string.

(** The callback of [employees.filter]. *)
Definition matchesSearch (searchTerm : string) (employee : Employee)
  : bool :=
  if JS.isEmpty searchTerm then true
  else
    let searchTermLower := toLowerCase searchTerm in
    let e := fields employee in
    JS.includes (toLowerCase (name e)) searchTermLower
    || JS.includes (toLowerCase (email e)) searchTermLower
    || JS.includes (toLowerCase (department e)) searchTermLower
    || JS.includes (toLowerCase (company_name e)) searchTermLower
    || JS.includes (toLowerCase (position e)) searchTermLower.

Definition filteredEmployees (employees : list Employee)
           (searchTerm : string) : list Employee :=
  filter (matchesSearch searchTerm) employees.

(** [localeDate] is [new Date().toLocaleDateString('ja-JP')]. *)
Definition handleExportCSV (employees : list Employee)
           (searchTerm localeDate : string) : CsvExport.Download :=
  let filename := "従業員一覧_" ++ localeDate ++ ".csv" in
  CsvExport.downloadCSV
    (map fields (filteredEmployees employees searchTerm)) filename.

(** The [disabled] attribute of the export button. *)
Definition exportDisabled (employees : list Employee)
           (searchTerm : string) : bool :=
  length (filteredEmployees employees searchTerm) =? 0.

End WithLowerCase.

End EmployeeList.

(* ================================================================= *)
(** ** src/lib/database.ts: schema initialisation and the list query *)

Module DatabaseAdmin.
Import Database.

(** The requests of [initializeDatabase] and [getEmployees], as the
    backend answers them. *)
Class Admin (B : Type) : Type := {
  (** [from('employees').select('id').limit(1)]: its [error] member *)
  probeTable : B -> option PostgrestError * B;
  (** [rpc('initialize_database')]: its [error] member *)
  rpcInitializeDatabase : B -> option PostgrestError * B;
  (** [from('employees').select('*').order('created_at', {ascending: false})] *)
  selectAllNewestFirst : B -> Response (list Employee) * B
}.

Inductive Request : Type :=
| ProbeTable
| RpcInitializeDatabase
| SelectAll.

(** The backend and the requests sent so far. *)
Record Session (B : Type) : Type := mkSession {
  server : B;
  requests : list Request
}.
Arguments mkSession {B} server requests.
Arguments server {B} s.
Arguments requests {B} s.

Section WithAdmin.
Context {B : Type} `{Admin B}.
Local Open Scope eff_scope.

Definition request {A : Type} (q : Request) (answer : B -> A * B)
  : Eff.M (Session B) Thrown A :=
  fun s =>
    let (a, b) := answer (server s) in
    (Eff.Ret a, mkSession b (requests s ++ [q])%list).

(** [console.error] is not part of the state. *)
Definition initializeDatabase : Eff.M (Session B) Thrown unit :=
  tableError <- request ProbeTable probeTable ;;
  match tableError with
  | Some e =>
      if String.eqb (code e) "PGRST204" then
        createError <- request RpcInitializeDatabase rpcInitializeDatabase ;;
        match createError with
        | Some e' => Eff.throw (Rethrown e')
        | None => Eff.ret tt
        end
      else Eff.ret tt
  | None => Eff.ret tt
  end.

Definition getEmployees : Eff.M (Session B) Thrown (option (list Employee)) :=
  r <- request SelectAll selectAllNewestFirst ;;
  match error r with
  | Some e => Eff.throw (Rethrown e)
  | None => Eff.ret (data r)
  end.

End WithAdmin.

End DatabaseAdmin.

(* ================================================================= *)
(** ** src/pages/EmployeeList.tsx: fetching and what is rendered *)

Module EmployeeListView.
Import Database DatabaseAdmin.

(** The state of the component. *)
Record ListState : Type := mkList {
  employees : list Employee;
  loading : bool;
  searchTerm : string;
  error : option string;
  isImportModalOpen : bool
}.

Definition setEmployees (l : list Employee) (s : ListState) : ListState :=
  mkList l (loading s) (searchTerm s) (error s) (isImportModalOpen s).
Definition setLoading (b : bool) (s : ListState) : ListState :=
  mkList (employees s) b (searchTerm s) (error s) (isImportModalOpen s).
Definition setSearchTerm (t : string) (s : ListState) : ListState :=
  mkList (employees s) (loading s) t (error s) (isImportModalOpen s).
Definition setError (e : option string) (s : ListState) : ListState :=
  mkList (employees s) (loading s) (searchTerm s) e (isImportModalOpen s).

(** The initial state of the hooks. *)
Definition initial : ListState := mkList [] true "" None false.

Definition FETCH_FAILED : string :=
  "従業員データの取得に失敗しました。後でもう一度お試しください。".

(** What the component returns. *)
Inductive TableBody : Type :=
| EmptyRow (message : string)
| Rows (shown : list Employee).

Inductive View : Type :=
| Spinner
| ErrorPanel (message : string)               (* with the retry button *)
| ListPage (countLabel : string) (exportDisabled : bool) (body : TableBody).

Section WithAdmin.
Variable toLowerCase : string -> string.
Context {B : Type} `{Admin B}.
Local Open Scope eff_scope.

Definition State : Type := (ListState * Session B)%type.

Definition update (f : ListState -> ListState) : Eff.M State Thrown unit :=
  Eff.modify (fun s : State => (f (fst s), snd s)).

Definition fetchEmployees : Eff.M State Thrown unit :=
  Eff.try_finally
    (Eff.try_catch
       (update (setError None) ;;
        data <- Eff.inner getEmployees ;;
        update (setEmployees (match data with Some l => l | None => [] end)))
       (fun _ => update (setError (Some FETCH_FAILED))))
    (update (setLoading false)).

Definition countLabel (s : ListState) : string :=
  let totalCount := length (employees s) in
  let filteredCount :=
    length (EmployeeList.filteredEmployees toLowerCase (employees s)
              (searchTerm s)) in
  let showingFilteredCount :=
    negb (JS.isEmpty (searchTerm s)) && negb (filteredCount =? totalCount) in
  if showingFilteredCount then
    "全" ++ CsvImport.showNat totalCount ++ "件中 "
      ++ CsvImport.showNat filteredCount ++ "件表示"
  else "全" ++ CsvImport.showNat totalCount ++ "件".

Definition render (s : ListState) : View :=
  if loading s then Spinner
  else
    match error s with
    | Some message => ErrorPanel message
    | None =>
        let filtered :=
          EmployeeList.filteredEmployees toLowerCase (employees s)
            (searchTerm s) in
        ListPage (countLabel s)
          (EmployeeList.exportDisabled toLowerCase (employees s) (searchTerm s))
          (match filtered with
           | [] =>
               EmptyRow
                 (if negb (JS.isEmpty (searchTerm s))
                  then "検索条件に一致する従業員が見つかりません。"
                  else "従業員が登録されていません。")
           | _ => Rows filtered
           end)
    end.

End WithAdmin.

End EmployeeListView.

(* ================================================================= *)
(** ** src/components/CSVImportModal.tsx: the template and the inputs *)

Module CSVImportModalEvents.
Import Database CSVImportModal.

(** The file of a drop as [handleDrop] reads it: its [type], and the
    [File] with its [name]. *)
Record Dropped : Type := mkDropped {
  dropped_type : string;
  dropped_file : File
}.

Definition template : string :=
  "会社名,氏名,メールアドレス,部署,役職" ++ JS.LF
    ++ "株式会社サンプル,山田太郎,yamada@example.com,営業部,部長".

Definition downloadTemplate : CsvExport.Download :=
  CsvExport.mkDownload "従業員登録テンプレート.csv" (JS.BOM ++ template).

Section WithEnvironment.
Variable toLowerCase : string -> string.
Variable papa_parse : File -> Papa.Outcome.
Context {B : Type} `{Backend B}.
Local Open Scope eff_scope.

(** [isDragging] beside the state that [processFile] works on. *)
Definition DropState : Type := (bool * State (B := B))%type.

Definition setIsDragging (b : bool) : Eff.M DropState Thrown unit :=
  Eff.modify (fun s : DropState => (b, snd s)).

Definition handleDragOver : Eff.M DropState Thrown unit := setIsDragging true.
Definition handleDragLeave : Eff.M DropState Thrown unit := setIsDragging false.

(** [dropped] is [e.dataTransfer.files[0]]. *)
Definition handleDrop (dropped : option Dropped)
  : Eff.M DropState Thrown unit :=
  setIsDragging false ;;
  match dropped with
  | None => Eff.inner (update (setErrors ["ファイルをアップロードしてください"]))
  | Some d =>
      if negb (String.eqb (dropped_type d) "text/csv")
         && negb (JS.endsWith (file_name (dropped_file d)) ".csv")
      then Eff.inner (update (setErrors ["CSVファイルのみアップロード可能です"]))
      else Eff.inner (processFile toLowerCase papa_parse (dropped_file d))
  end.

(** [file] is [e.target.files?.[0]]. *)
Definition handleFileSelect (file : option File)
  : Eff.M (State (B := B)) Thrown unit :=
  match file with
  | Some f => processFile toLowerCase papa_parse f
  | None => Eff.ret tt
  end.

End WithEnvironment.

End CSVImportModalEvents.

(* ================================================================= *)
(** ** src/pages/EmployeeRegistration.tsx *)

Module EmployeeRegistration.
Import Database.

(** What [validateEmail] returns: [true] or a message. *)
Inductive Validation : Type :=
| Valid
| Invalid (message : string).

(** The state [onSubmit] writes: the two hooks of the component, the
    errors of the form by field, and the routes navigated to. *)
Record FormState : Type := mkForm {
  submitError : option string;
  isSubmitting : bool;
  fieldErrors : list (string * string);
  navigated : list string
}.

Definition setSubmitError (e : option string) (f : FormState) : FormState :=
  mkForm e (isSubmitting f) (fieldErrors f) (navigated f).
Definition setIsSubmitting (b : bool) (f : FormState) : FormState :=
  mkForm (submitError f) b (fieldErrors f) (navigated f).
Definition clearErrors (f : FormState) : FormState :=
  mkForm (submitError f) (isSubmitting f) [] (navigated f).
(** [setError(field, { type: 'manual', message })] *)
Definition setError (field message : string) (f : FormState) : FormState :=
  mkForm (submitError f) (isSubmitting f)
    ((field, message)
       :: filter (fun kv => negb (String.eqb (fst kv) field)) (fieldErrors f))
    (navigated f).
Definition navigate (route : string) (f : FormState) : FormState :=
  mkForm (submitError f) (isSubmitting f) (fieldErrors f)
    (navigated f ++ [route])%list.

Definition CHECK_FAILED : string :=
  "メールアドレスの検証中にエラーが発生しました".
Definition SUBMIT_FAILED : string :=
  "従業員の登録に失敗しました。もう一度お試しください。".

Section WithBackend.
Context {B : Type} `{Backend B}.
Local Open Scope eff_scope.

Definition validateEmail (email : string)
  : Eff.M (World B) Thrown Validation :=
  Eff.try_catch
    (exists_ <- checkEmailExists email ;;
     if exists_ then Eff.ret (Invalid DUPLICATE_EMAIL) else Eff.ret Valid)
    (fun _ => Eff.ret (Invalid CHECK_FAILED)).

Definition State : Type := (FormState * World B)%type.

Definition update (f : FormState -> FormState) : Eff.M State Thrown unit :=
  Eff.modify (fun s : State => (f (fst s), snd s)).

Definition onSubmit (data : EmployeeData) : Eff.M State Thrown unit :=
  Eff.try_finally
    (Eff.try_catch
       (update (setIsSubmitting true) ;;
        update (setSubmitError None) ;;
        update clearErrors ;;
        (* Final email check before submission *)
        emailValidation <- Eff.inner (validateEmail (email data)) ;;
        match emailValidation with
        | Invalid message => update (setError "email" message)
        | Valid =>
            _ <- Eff.inner (createEmployee data) ;;
            update (navigate "/employees")
        end)
       (fun error =>
          let errorMessage :=
            if CSVImportModal.instanceofError error
            then CSVImportModal.messageOf error
            else SUBMIT_FAILED in
          if JS.includes errorMessage "メールアドレス"
          then update (setError "email" errorMessage)
          else update (setSubmitError (Some errorMessage))))
    (update (setIsSubmitting false)).

End WithBackend.

End EmployeeRegistration.

(* ================================================================= *)
(** ** Vocabulary of the statements *)

(** [t] occurs in [s]. *)
Definition Substring (t s : string) : Prop :=
  exists pre post : string, s = pre ++ t ++ post.

(** The header line the import asks for, in the order of
    [REQUIRED_HEADERS]. *)
Definition importHeaderLine : string :=
  JS.join "," (map fst CsvImport.REQUIRED_HEADERS).

(** The arguments of the invocations of [createEmployee] among recorded
    calls, in order. *)
Fixpoint createCalls (cs : list Database.Call) : list EmployeeData :=
  match cs with
  | [] => []
  | Database.CallCreateEmployee d :: rest => d :: createCalls rest
  | _ :: rest => createCalls rest
  end.

(** The insert requests among recorded calls. *)
Fixpoint insertRequests (cs : list Database.Call) : list EmployeeData :=
  match cs with
  | [] => []
  | Database.RequestInsert d _ :: rest => d :: insertRequests rest
  | _ :: rest => insertRequests rest
  end.

(** [mem e l]: the address [e] is one of [l]. *)
Definition mem (e : string) (l : list string) : bool :=
  existsb (String.eqb e) l.

(** The rows whose e-mail address is carried by no earlier row, [earlier]
    being the addresses of the rows before [records]. *)
Fixpoint firstRows (earlier : list string) (records : list EmployeeData)
  : list EmployeeData :=
  match records with
  | [] => []
  | r :: rest =>
      if mem (email r) earlier
      then firstRows (earlier ++ [email r]) rest
      else r :: firstRows (earlier ++ [email r]) rest
  end.

(** The rows whose e-mail address is carried by an earlier row. *)
Fixpoint repeatedRows (earlier : list string) (records : list EmployeeData)
  : list EmployeeData :=
  match records with
  | [] => []
  | r :: rest =>
      if mem (email r) earlier
      then r :: repeatedRows (earlier ++ [email r]) rest
      else repeatedRows (earlier ++ [email r]) rest
  end.

(** A field that survives the export: it holds no double quote and is not
    blank. *)
Definition plainField (s : string) : bool :=
  negb (JS.includes s JS.DQUOTE) && negb (JS.isEmpty (JS.trim s)).

(** A record the export and the import agree on. *)
Definition plainRecord (r : EmployeeData) : bool :=
  plainField (name r) && plainField (email r) && plainField (company_name r)
  && plainField (department r) && plainField (position r)
  && Regex.test CsvImport.EMAIL (email r).

(** A record as the claim of the round trip describes it: five non-empty
    fields and a well-formed e-mail address. *)
Definition wellFormedRecord (r : EmployeeData) : bool :=
  negb (JS.isEmpty (name r)) && negb (JS.isEmpty (email r))
  && negb (JS.isEmpty (company_name r)) && negb (JS.isEmpty (department r))
  && negb (JS.isEmpty (position r))
  && Regex.test CsvImport.EMAIL (email r).

(** The fields of a record in the column order of the export. *)
Definition exportedFields (r : EmployeeData) : list string :=
  [name r; email r; company_name r; department r; position r].

(** The row object Papa builds for an exported record. *)
Definition exportedRow (r : EmployeeData) : Papa.Row :=
  Papa.zipRow CsvExport.headers (exportedFields r).

(** An employee matches the search term: the term is empty, or its
    lower-case form occurs in the lower-case form of the name, the e-mail
    address, the department, the company name or the position. *)
Definition MatchesTerm (toLowerCase : string -> string)
           (searchTerm : string) (e : Employee) : Prop :=
  searchTerm = "" \/
  Substring (toLowerCase searchTerm) (toLowerCase (name (fields e))) \/
  Substring (toLowerCase searchTerm) (toLowerCase (email (fields e))) \/
  Substring (toLowerCase searchTerm) (toLowerCase (department (fields e))) \/
  Substring (toLowerCase searchTerm) (toLowerCase (company_name (fields e))) \/
  Substring (toLowerCase searchTerm) (toLowerCase (position (fields e))).

(** [Selected P l shown]: [shown] holds the elements of [l] that satisfy
    [P] and no other, as often and in the order they occur in [l]. *)
Inductive Selected {A : Type} (P : A -> Prop) : list A -> list A -> Prop :=
| SelectedNil : Selected P [] []
| SelectedKeep (x : A) (l shown : list A) :
    P x -> Selected P l shown -> Selected P (x :: l) (x :: shown)
| SelectedDrop (x : A) (l shown : list A) :
    ~ P x -> Selected P l shown -> Selected P (x :: l) shown.

(** The line of an exported file for one record: the five fields in the
    column order of the export, each between double quotes. *)
Definition exportLine (r : EmployeeData) : string :=
  JS.DQUOTE ++ name r ++ JS.DQUOTE ++ ","
    ++ JS.DQUOTE ++ email r ++ JS.DQUOTE ++ ","
    ++ JS.DQUOTE ++ company_name r ++ JS.DQUOTE ++ ","
    ++ JS.DQUOTE ++ department r ++ JS.DQUOTE ++ ","
    ++ JS.DQUOTE ++ position r ++ JS.DQUOTE.

(** The text that follows the header row: a line feed and a line for
    each record. *)
Fixpoint exportLines (rows : list EmployeeData) : string :=
  match rows with
  | [] => ""
  | r :: rest => JS.LF ++ exportLine r ++ exportLines rest
  end.

Section SequentialCreates.
Context {B : Type} `{Database.Backend B}.

(** [createEmployee] called on each record in turn, each call starting in
    the world the previous call left; the results of the calls and the
    final world. *)
Fixpoint createAll (records : list EmployeeData) (w : Database.World B)
  : list (Eff.Result Database.Thrown (option Employee)) * Database.World B :=
  match records with
  | [] => ([], w)
  | r :: rest =>
      let (x, w1) := Database.createEmployee r w in
      let (xs, w2) := createAll rest w1 in
      (x :: xs, w2)
  end.

Definition succeeded {A : Type} (x : Eff.Result Database.Thrown A) : bool :=
  match x with
  | Eff.Ret _ => true
  | Eff.Throw _ => false
  end.

End SequentialCreates.

(* ================================================================= *)
(** ** Vocabulary of the further properties *)

(** The strings a regular expression denotes. *)
Inductive Matches : Regex.re -> string -> Prop :=
| MatchEps : Matches Regex.Eps ""
| MatchClass (p : ascii -> bool) (c : ascii) :
    p c = true -> Matches (Regex.Class p) (String c "")
| MatchCat (r1 r2 : Regex.re) (s1 s2 : string) :
    Matches r1 s1 -> Matches r2 s2 -> Matches (Regex.Cat r1 r2) (s1 ++ s2)
| MatchAltL (r1 r2 : Regex.re) (s : string) :
    Matches r1 s -> Matches (Regex.Alt r1 r2) s
| MatchAltR (r1 r2 : Regex.re) (s : string) :
    Matches r2 s -> Matches (Regex.Alt r1 r2) s
| MatchStarNil (r : Regex.re) : Matches (Regex.Star r) ""
| MatchStarCons (r : Regex.re) (s1 s2 : string) :
    Matches r s1 -> Matches (Regex.Star r) s2 ->
    Matches (Regex.Star r) (s1 ++ s2).

(** Every character of [s] is in the class [p]. *)
Fixpoint allChars (p : ascii -> bool) (s : string) : bool :=
  match s with
  | "" => true
  | String c s' => p c && allChars p s'
  end.

(** [[A-Z0-9._%+-]] and [[A-Z0-9.-]] under the [i] flag. *)
Definition localChar (c : ascii) : bool :=
  Regex.letter c || Regex.digit c || Regex.oneOf "._%+-" c.
Definition domainChar (c : ascii) : bool :=
  Regex.letter c || Regex.digit c || Regex.oneOf ".-" c.

(** The shape of an accepted e-mail address. *)
Definition EmailShape (s : string) : Prop :=
  exists local domain tld : string,
    s = local ++ "@" ++ domain ++ "." ++ tld
    /\ local <> "" /\ allChars localChar local = true
    /\ domain <> "" /\ allChars domainChar domain = true
    /\ 2 <= String.length tld /\ allChars Regex.letter tld = true.

(** A visible ASCII character. *)
Definition visible (c : ascii) : bool :=
  (33 <=? nat_of_ascii c) && (nat_of_ascii c <=? 126).

(** The value of a cell is there and is not blank. *)
Definition filled (v : option string) : Prop :=
  exists s : string, v = Some s /\ JS.isEmpty (JS.trim s) = false.

(** The data rows with their position in [results.data]. *)
Definition numbered (i : nat) (rows : list Papa.Row)
  : list (nat * Papa.Row) :=
  combine (seq i (length rows)) rows.

(** The messages of all rows, row after row; a row at position [j] is
    line [j + 2] of the file. *)
Definition allRowErrors (rows : list Papa.Row) : list string :=
  flat_map (fun jr => CsvImport.rowErrors (fst jr + 2) (snd jr))
           (numbered 0 rows).

(* ================================================================= *)
(** ** Sample inputs *)

Module Sample.

Definition taro : EmployeeData :=
  mkData "Taro" "taro@example.com" "ACME" "Sales" "Manager".
Definition jiro : EmployeeData :=
  mkData "Jiro" "taro@example.com" "ACME" "Sales" "Staff".
Definition sabu : EmployeeData :=
  mkData "Sabu" "sabu@example.com" "ACME" "Sales" "Staff".
Definition shiro : EmployeeData :=
  mkData "Shiro" "shiro@example.com" "ACME" "Sales" "Staff".

(** A record whose name is one blank. *)
Definition blankName : EmployeeData :=
  mkData " " "taro@example.com" "ACME" "Sales" "Manager".

(** A record whose name holds a quote, a comma and a quote. *)
Definition quotedName : EmployeeData :=
  mkData ("a" ++ JS.DQUOTE ++ "," ++ JS.DQUOTE ++ "b")
         "taro@example.com" "ACME" "Sales" "Manager".

Definition headerLine : string := "会社名,氏名,メールアドレス,部署,役職".

(** The header row alone. *)
Definition headerOnly : File := mkFile "header.csv" 52 headerLine.

(** Two data rows; the second has no name. *)
Definition oneBadRow : File :=
  mkFile "bad.csv" 128
    (headerLine ++ JS.LF ++ "ACME,Taro,taro@example.com,Sales,Manager"
       ++ JS.LF ++ "ACME,,jiro@example.com,Sales,Staff").

(** Four data rows that pass validation; the second repeats the address
    of the first. *)
Definition repeatedEmail : File :=
  mkFile "repeated.csv" 212
    (headerLine ++ JS.LF ++ "ACME,Taro,taro@example.com,Sales,Manager"
       ++ JS.LF ++ "ACME,Jiro,taro@example.com,Sales,Staff"
       ++ JS.LF ++ "ACME,Sabu,sabu@example.com,Sales,Staff"
       ++ JS.LF ++ "ACME,Shiro,shiro@example.com,Sales,Staff").

(** A file one byte above the limit. *)
Definition tooLarge : File :=
  mkFile "large.csv" 5242881 (headerLine ++ JS.LF ++ "...").

(** A table that already holds the address of [sabu]. *)
Definition table : Database.Table :=
  Database.mkTable
    [mkEmployee "id-0"
       (mkData "Saburo" "sabu@example.com" "ACME" "Sales" "Staff")
       "2024-01-01T00:00:00.000Z"]
    "2025-01-01T00:00:00.000Z".

Definition world : Database.World Database.Table :=
  Database.mkWorld table [].

Definition modal : CSVImportModal.ModalState :=
  CSVImportModal.mkModal false [] 0 0.

End Sample.

(** The addresses held by the reference table. *)
Definition emailsOf (t : Database.Table) : list string :=
  map (fun x => email (fields x)) (Database.rows t).

(** *** A reference backend for the schema and the list query

    A server whose table exists or not and whose procedure works or not;
    the probe of a missing table fails with [PGRST204], the procedure
    creates the table when it works, and the list query returns the rows,
    newest first as stored, once the table exists. *)
Module ReferenceAdmin.

Record Server : Type := mkServer {
  tableExists : bool;
  procedureWorks : bool;
  newestFirst : list Employee
}.

Definition missingTable : Database.PostgrestError :=
  Database.mkPgError "PGRST204" "Could not find the table" false.
Definition procedureFailed : Database.PostgrestError :=
  Database.mkPgError "42883" "function initialize_database() does not exist"
                     false.

Definition probe (s : Server) : option Database.PostgrestError * Server :=
  if tableExists s then (None, s) else (Some missingTable, s).

Definition initialize (s : Server)
  : option Database.PostgrestError * Server :=
  if procedureWorks s then (None, mkServer true true (newestFirst s))
  else (Some procedureFailed, s).

Definition listAll (s : Server)
  : Database.Response (list Employee) * Server :=
  if tableExists s then (Database.mkResponse (Some (newestFirst s)) None, s)
  else (Database.mkResponse None (Some missingTable), s).

#[export] Instance ServerAdmin : DatabaseAdmin.Admin Server := {
  DatabaseAdmin.probeTable := probe;
  DatabaseAdmin.rpcInitializeDatabase := initialize;
  DatabaseAdmin.selectAllNewestFirst := listAll
}.

End ReferenceAdmin.

#[global] Existing Instance ReferenceAdmin.ServerAdmin.

(** The messages an import leaves, row by row: a row that repeats an
    earlier address gets the message on the repetition; any other row
    takes the next result of the calls and gets a message when that call
    threw. *)
Fixpoint report (toLowerCase : string -> string) (earlier : list string)
         (records : list EmployeeData)
         (results : list (Eff.Result Database.Thrown (option Employee)))
  : list string :=
  match records with
  | [] => []
  | r :: rest =>
      if mem (email r) earlier then
        CSVImportModal.duplicateInFile (name r)
          :: report toLowerCase (earlier ++ [email r])%list rest results
      else
        match results with
        | Eff.Ret _ :: results' =>
            report toLowerCase (earlier ++ [email r])%list rest results'
        | Eff.Throw e :: results' =>
            CSVImportModal.getErrorMessage toLowerCase e (name r)
              :: report toLowerCase (earlier ++ [email r])%list rest results'
        | [] => []
        end
  end.

(* ================================================================= *)
(** ** Further sample inputs *)

Module MoreSamples.

(** A file without the column 部署. *)
Definition noDepartment : File :=
  mkFile "nodept.csv" 85
    ("会社名,氏名,メールアドレス,役職" ++ JS.LF
       ++ "ACME,Taro,taro@example.com,Manager").

(** A parser that fails to read the file. *)
Definition unreadable (file : File) : Papa.Outcome :=
  Papa.Error "NotReadableError".

(** A backend that cannot be reached: every request fails. *)
Definition offline : Database.PostgrestError :=
  Database.mkPgError "" "TypeError: Failed to fetch" false.

Definition OfflineBackend : Database.Backend unit :=
  {| Database.selectIdByEmail :=
       fun _ b => (Database.mkResponse None (Some offline), b);
     Database.insertEmployee :=
       fun _ _ b => (Database.mkResponse None (Some offline), b);
     Database.nowISO := fun _ => "2025-01-01T00:00:00.000Z" |}.

(** The header row followed by a line feed and nothing else. *)
Definition headerAndLineFeed : File :=
  mkFile "header.csv" 53 (Sample.headerLine ++ JS.LF).

(** A file that is not a CSV file by type or by name. *)
Definition photo : CSVImportModalEvents.Dropped :=
  CSVImportModalEvents.mkDropped "image/png"
    (mkFile "photo.png" 212 (file_bytes Sample.repeatedEmail)).

End MoreSamples.

(* ================================================================= *)
(** ** The primitives on small inputs *)

Example trim_removes_blanks_and_ideographic_space :
  JS.trim (JS.bytes [32; 9] ++ "山田 太郎" ++ JS.bytes [227; 128; 128; 10])
  = "山田 太郎".
Proof. vm_compute. reflexivity. Qed.

Example email_pattern_samples :
  map (Regex.test CsvImport.EMAIL)
      ["taro@example.com"; "T.Aro+x@mail.Example.JP"; "taro@example";
       "taro@example.c"; "@example.com"; "taro@@example.com";
       "taro@example.com "; "太郎@example.com"]
  = [true; true; false; false; false; false; false; false].
Proof. vm_compute. reflexivity. Qed.

(** Quoted fields, a doubled quote, a line feed inside quotes, and the
    row of one empty field that a final line feed leaves. *)
Example parse_rows_quoting :
  Papa.parse_rows
    ("a,b" ++ JS.LF
       ++ JS.DQUOTE ++ "x,y" ++ JS.DQUOTE ++ ","
       ++ JS.DQUOTE ++ "say " ++ JS.DQUOTE ++ JS.DQUOTE ++ "hi" ++ JS.DQUOTE
       ++ JS.DQUOTE ++ JS.LF ++ "z" ++ JS.DQUOTE ++ JS.LF)
  = [["a"; "b"];
     ["x,y"; "say " ++ JS.DQUOTE ++ "hi" ++ JS.DQUOTE ++ JS.LF ++ "z"];
     [""]].
Proof. vm_compute. reflexivity. Qed.

(** The import template of the modal is valid. *)
Example template_is_valid :
  CsvImport.validateCSVData Papa.parseFile
    (mkFile "template.csv" 120
       (JS.BOM ++ "会社名,氏名,メールアドレス,部署,役職" ++ JS.LF
          ++ "株式会社サンプル,山田太郎,yamada@example.com,営業部,部長"))
  = CsvImport.mkResult true []
      (Some [mkData "山田太郎" "yamada@example.com" "株式会社サンプル" "営業部" "部長"]).
Proof. vm_compute. reflexivity. Qed.

(* ================================================================= *)
(** ** Strings *)

Lemma append_nil_r (s : string) : s ++ "" = s.
Proof. induction s as [|c s IH]; simpl; [reflexivity | now rewrite IH]. Qed.

Lemma append_assoc (s t u : string) : (s ++ t) ++ u = s ++ t ++ u.
Proof. induction s as [|c s IH]; simpl; [reflexivity | now rewrite IH]. Qed.

Lemma startsWith_iff (p s : string) :
  JS.startsWith p s = true <-> exists post, s = p ++ post.
Proof.
  revert s; induction p as [|a p IH]; intros s; simpl.
  - split; [intros _; now exists s | reflexivity].
  - destruct s as [|b s].
    + split; [discriminate | intros [post E]; discriminate].
    + rewrite andb_true_iff, Ascii.eqb_eq, IH. split.
      * intros [-> [post ->]]. now exists post.
      * intros [post E]. injection E as -> ->. split; [reflexivity | now exists post].
Qed.

Lemma includes_iff (s t : string) :
  JS.includes s t = true <-> Substring t s.
Proof.
  induction s as [|c s IH].
  - cbn [JS.includes]. rewrite orb_false_r, startsWith_iff. split.
    + intros [post E]. exists "", post. exact E.
    + intros [pre [post E]]. destruct pre; [now exists post | discriminate].
  - cbn [JS.includes]. rewrite orb_true_iff, startsWith_iff, IH. split.
    + intros [[post E] | [pre [post E]]].
      * exists "", post. exact E.
      * exists (String c pre), post. simpl. now rewrite E.
    + intros [pre [post E]]. destruct pre as [|a pre].
      * left. now exists post.
      * right. simpl in E. injection E as _ E. now exists pre, post.
Qed.

(* ================================================================= *)
(** ** The list view *)

Section ListView.
Variable toLowerCase : string -> string.

Lemma matchesSearch_iff (searchTerm : string) (e : Employee) :
  EmployeeList.matchesSearch toLowerCase searchTerm e = true <->
  searchTerm = "" \/
  Substring (toLowerCase searchTerm) (toLowerCase (name (fields e))) \/
  Substring (toLowerCase searchTerm) (toLowerCase (email (fields e))) \/
  Substring (toLowerCase searchTerm) (toLowerCase (department (fields e))) \/
  Substring (toLowerCase searchTerm) (toLowerCase (company_name (fields e))) \/
  Substring (toLowerCase searchTerm) (toLowerCase (position (fields e))).
Proof.
  unfold EmployeeList.matchesSearch.
  destruct searchTerm as [|c t]; cbn [JS.isEmpty].
  - split; [now left | reflexivity].
  - rewrite !orb_true_iff, !includes_iff. split.
    + intros H. right. tauto.
    + intros [H | H]; [discriminate | tauto].
Qed.

(** C4. The filter of the list view keeps an employee exactly when the
    search term is empty or the lowercased search term occurs in the
    lowercased name, e-mail address, department, company name or position;
    the kept employees stay in their order, and the empty search term keeps
    the whole list. *)
Theorem filteredEmployees_keeps_exactly_matches :
  forall (employees : list Employee) (searchTerm : string),
    (forall e : Employee,
        In e (EmployeeList.filteredEmployees toLowerCase employees searchTerm)
        <->
        In e employees /\
        (searchTerm = "" \/
         Substring (toLowerCase searchTerm) (toLowerCase (name (fields e))) \/
         Substring (toLowerCase searchTerm) (toLowerCase (email (fields e))) \/
         Substring (toLowerCase searchTerm) (toLowerCase (department (fields e))) \/
         Substring (toLowerCase searchTerm) (toLowerCase (company_name (fields e))) \/
         Substring (toLowerCase searchTerm) (toLowerCase (position (fields e)))))
    /\ EmployeeList.filteredEmployees toLowerCase employees searchTerm
       = filter (EmployeeList.matchesSearch toLowerCase searchTerm) employees
    /\ EmployeeList.filteredEmployees toLowerCase employees "" = employees.
Proof.
  intros employees searchTerm. split; [|split].
  - intros e. unfold EmployeeList.filteredEmployees.
    rewrite filter_In, matchesSearch_iff. reflexivity.
  - reflexivity.
  - unfold EmployeeList.filteredEmployees.
    induction employees as [|e l IH]; simpl; [reflexivity | now rewrite IH].
Qed.

End ListView.

(* ================================================================= *)
(** ** The export *)

Lemma join_cons (sep p : string) (rest : list string) :
  JS.join sep (p :: rest)
  = match rest with [] => p | _ => p ++ sep ++ JS.join sep rest end.
Proof. destruct rest; reflexivity. Qed.

Lemma csvContent_cons (r : EmployeeData) (data : list EmployeeData) :
  CsvExport.csvContent (r :: data)
  = JS.join "," CsvExport.headers ++ JS.LF
      ++ JS.join JS.LF (map CsvExport.dataRow (r :: data)).
Proof. reflexivity. Qed.

(** C2, as amended. The exported text begins with the byte order mark and
    the header row 氏名,メールアドレス,会社名,部署,役職, followed by nothing or by a
    line feed; these are the five headers the import requires, in the
    column order of the list view and not in the order of
    [REQUIRED_HEADERS]. *)
Theorem downloadCSV_bom_and_header :
  forall (data : list EmployeeData) (filename : string),
    (exists rest : string,
        CsvExport.blob (CsvExport.downloadCSV data filename)
        = JS.BOM ++ "氏名,メールアドレス,会社名,部署,役職" ++ rest
        /\ (rest = "" \/ exists more, rest = JS.LF ++ more))
    /\ Permutation CsvExport.headers (map fst CsvImport.REQUIRED_HEADERS)
    /\ CsvExport.headers <> map fst CsvImport.REQUIRED_HEADERS.
Proof.
  intros data filename. split; [|split].
  - destruct data as [|r data].
    + exists "". split; [reflexivity | now left].
    + exists (JS.LF ++ JS.join JS.LF (map CsvExport.dataRow (r :: data))).
      split; [|right; eexists; reflexivity].
      unfold CsvExport.downloadCSV. cbn [CsvExport.blob].
      rewrite csvContent_cons. reflexivity.
  - cbn [CsvExport.headers CsvImport.REQUIRED_HEADERS map fst].
    (* 氏名 メール 会社名 部署 役職  ~  会社名 氏名 メール 部署 役職 *)
    apply Permutation_trans
      with (l' := ["氏名"; "会社名"; "メールアドレス"; "部署"; "役職"]).
    + apply perm_skip. apply perm_swap.
    + apply perm_swap.
  - discriminate.
Qed.

(** C2, as stated, fails: the text exported for one record does not begin
    with the byte order mark followed by the header row in the order of
    the import, 会社名,氏名,メールアドレス,部署,役職. *)
Lemma downloadCSV_header_not_import_order :
  importHeaderLine = "会社名,氏名,メールアドレス,部署,役職"
  /\ JS.startsWith (JS.BOM ++ importHeaderLine)
       (CsvExport.blob (CsvExport.downloadCSV [Sample.taro] "employees.csv"))
     = false
  /\ JS.startsWith (JS.BOM ++ "氏名,メールアドレス,会社名,部署,役職" ++ JS.LF)
       (CsvExport.blob (CsvExport.downloadCSV [Sample.taro] "employees.csv"))
     = true.
Proof. vm_compute. repeat split. Qed.

(* ================================================================= *)
(** ** The export of the list view *)

Lemma dataRow_exportLine (r : EmployeeData) :
  CsvExport.dataRow r = exportLine r.
Proof.
  unfold CsvExport.dataRow, CsvExport.quoted, exportLine.
  cbn [JS.join]. rewrite !append_assoc. reflexivity.
Qed.

Lemma join_dataRows (r : EmployeeData) (data : list EmployeeData) :
  JS.LF ++ JS.join JS.LF (map CsvExport.dataRow (r :: data))
  = exportLines (r :: data).
Proof.
  revert r. induction data as [|r' data IH]; intros r.
  - cbn [map JS.join exportLines].
    now rewrite dataRow_exportLine, append_nil_r.
  - cbn [map]. rewrite join_cons. cbn [map] in IH.
    change (exportLines (r :: r' :: data))
      with (JS.LF ++ exportLine r ++ exportLines (r' :: data)).
    now rewrite <- (IH r'), dataRow_exportLine.
Qed.

(** The exported text: the header row, then a line feed and a line for
    each record. *)
Lemma csvContent_lines (data : list EmployeeData) :
  CsvExport.csvContent data
  = "氏名,メールアドレス,会社名,部署,役職" ++ exportLines data.
Proof.
  destruct data as [|r data]; [reflexivity|].
  rewrite csvContent_cons, <- join_dataRows. reflexivity.
Qed.

Lemma filter_Selected (A : Type) (P : A -> Prop) (p : A -> bool)
      (l : list A) :
  (forall x, p x = true <-> P x) -> Selected P l (filter p l).
Proof.
  intros Hp. induction l as [|x l IH]; cbn [filter]; [constructor|].
  destruct (p x) eqn:E.
  - apply SelectedKeep; [now apply Hp | exact IH].
  - apply SelectedDrop; [|exact IH].
    intros HP. apply Hp in HP. congruence.
Qed.

Lemma filter_nil_iff (A : Type) (p : A -> bool) (l : list A) :
  filter p l = [] <-> forall x, In x l -> p x = false.
Proof.
  split.
  - intros Hnil x Hx. destruct (p x) eqn:E; [|reflexivity].
    assert (Hin : In x (filter p l)) by (apply filter_In; now split).
    rewrite Hnil in Hin. destruct Hin.
  - induction l as [|x l IH]; intros Hall; [reflexivity|].
    cbn [filter]. rewrite (Hall x (or_introl eq_refl)).
    apply IH. intros y Hy. apply Hall. now right.
Qed.

Lemma filter_all (A : Type) (p : A -> bool) (l : list A) :
  (forall x, In x l -> p x = true) -> filter p l = l.
Proof.
  induction l as [|x l IH]; intros Hall; [reflexivity|].
  cbn [filter]. rewrite (Hall x (or_introl eq_refl)). f_equal.
  apply IH. intros y Hy. apply Hall. now right.
Qed.

Lemma string_length_append (s t : string) :
  String.length (s ++ t) = String.length s + String.length t.
Proof. induction s as [|c s IH]; cbn; [reflexivity | now rewrite IH]. Qed.

(** Leaving records out makes the exported text shorter. *)
Lemma exportLines_filter_length (p : Employee -> bool) (l : list Employee) :
  String.length (exportLines (map fields (filter p l)))
  <= String.length (exportLines (map fields l))
  /\ ((exists e, In e l /\ p e = false) ->
      String.length (exportLines (map fields (filter p l)))
      < String.length (exportLines (map fields l))).
Proof.
  induction l as [|x l [IHle IHlt]].
  - split; [cbn; lia | intros (e & [] & _)].
  - cbn [filter]. destruct (p x) eqn:E.
    + cbn [map exportLines]. rewrite !string_length_append.
      split; [lia|].
      intros (e & [-> | Hin] & He); [congruence|].
      assert (Hlt := IHlt (ex_intro _ e (conj Hin He))). lia.
    + cbn [map exportLines]. rewrite !string_length_append.
      change (String.length JS.LF) with 1.
      split; [|intros _]; lia.
Qed.

Section ListViewExport.
Variable toLowerCase : string -> string.

(** C10. The text the list view exports holds, after the byte order mark
    and the header row, one line for each employee that matches the search
    term, as often and in the order the fetched list holds them, and no
    line for any other employee; it is the text the full list would give
    exactly when every employee matches.  The file is named after the
    date, and the export button is disabled exactly when no employee
    matches. *)
Theorem handleExportCSV_exports_filtered :
  forall (employees : list Employee) (searchTerm localeDate : string),
    exists shown : list Employee,
      Selected (MatchesTerm toLowerCase searchTerm) employees shown
      /\ CsvExport.download_filename
           (EmployeeList.handleExportCSV toLowerCase employees searchTerm
              localeDate)
         = "従業員一覧_" ++ localeDate ++ ".csv"
      /\ CsvExport.blob
           (EmployeeList.handleExportCSV toLowerCase employees searchTerm
              localeDate)
         = JS.BOM ++ "氏名,メールアドレス,会社名,部署,役職"
             ++ exportLines (map fields shown)
      /\ (CsvExport.blob
            (EmployeeList.handleExportCSV toLowerCase employees searchTerm
               localeDate)
          = CsvExport.blob
              (CsvExport.downloadCSV (map fields employees)
                 ("従業員一覧_" ++ localeDate ++ ".csv"))
          <-> forall e, In e employees -> MatchesTerm toLowerCase searchTerm e)
      /\ (EmployeeList.exportDisabled toLowerCase employees searchTerm = true
          <-> shown = [])
      /\ (EmployeeList.exportDisabled toLowerCase employees searchTerm = true
          <-> forall e, In e employees ->
                        ~ MatchesTerm toLowerCase searchTerm e).
Proof.
  intros employees searchTerm localeDate.
  assert (Hm : forall e,
             EmployeeList.matchesSearch toLowerCase searchTerm e = true
             <-> MatchesTerm toLowerCase searchTerm e)
    by (intros e; apply matchesSearch_iff).
  exists (EmployeeList.filteredEmployees toLowerCase employees searchTerm).
  unfold EmployeeList.handleExportCSV, EmployeeList.exportDisabled,
    EmployeeList.filteredEmployees, CsvExport.downloadCSV.
  cbn [CsvExport.blob CsvExport.download_filename].
  rewrite !csvContent_lines.
  split; [now apply filter_Selected|].
  split; [reflexivity|].
  split; [reflexivity|].
  split; [|split].
  - split.
    + intros Heq e Hin. apply Hm.
      destruct (EmployeeList.matchesSearch toLowerCase searchTerm e) eqn:E;
        [reflexivity|].
      destruct (exportLines_filter_length
                  (EmployeeList.matchesSearch toLowerCase searchTerm)
                  employees) as [_ Hlt].
      specialize (Hlt (ex_intro _ e (conj Hin E))).
      apply (f_equal String.length) in Heq.
      rewrite !string_length_append in Heq. lia.
    + intros Hall. rewrite filter_all; [reflexivity|].
      intros e Hin. apply Hm. now apply Hall.
  - rewrite Nat.eqb_eq. apply length_zero_iff_nil.
  - rewrite Nat.eqb_eq, length_zero_iff_nil, filter_nil_iff.
    split; intros Hall e Hin.
    + intros HP. apply Hm in HP. rewrite (Hall e Hin) in HP. discriminate HP.
    + destruct (EmployeeList.matchesSearch toLowerCase searchTerm e) eqn:E;
        [|reflexivity].
      exfalso. apply (Hall e Hin). now apply Hm.
Qed.

End ListViewExport.

(* ================================================================= *)
(** ** The data access layer *)

Section DataAccess.
Import Database.
Context {B : Type} `{Backend B}.

Lemma createEmployee_present (d : EmployeeData) (w : World B)
      (r : Response string) (b' : B) (i : string) :
  selectIdByEmail (email d) (backend w) = (r, b') ->
  data r = Some i ->
  error r = None ->
  createEmployee d w
  = (Eff.Throw (NewError DUPLICATE_EMAIL),
     mkWorld b' (calls w ++ [CallCreateEmployee d; RequestSelect (email d)])%list).
Proof.
  intros Hsel Hdata Herr.
  unfold createEmployee, checkEmailExists, requestSelect, record,
    Eff.bind, Eff.modify, Eff.throw, Eff.ret.
  cbn [backend calls]. rewrite Hsel, Herr, Hdata. cbn [calls backend].
  now rewrite <- app_assoc.
Qed.

Lemma createEmployee_unique_violation (d : EmployeeData) (w : World B)
      (r : Response string) (b' : B) (r2 : Response Employee) (b'' : B)
      (e : PostgrestError) :
  selectIdByEmail (email d) (backend w) = (r, b') ->
  data r = None ->
  (error r = None \/ exists e0, error r = Some e0 /\ code e0 = "PGRST116") ->
  insertEmployee d (nowISO b') b' = (r2, b'') ->
  error r2 = Some e ->
  code e = "23505" ->
  createEmployee d w
  = (Eff.Throw (NewError DUPLICATE_EMAIL),
     mkWorld b'' (calls w ++ [CallCreateEmployee d; RequestSelect (email d);
                               RequestInsert d (nowISO b')])%list).
Proof.
  intros Hsel Hdata Herr Hins Herr2 Hcode.
  unfold createEmployee, checkEmailExists, requestSelect, requestInsert,
    record, Eff.bind, Eff.modify, Eff.throw, Eff.ret, Eff.gets.
  cbn [backend calls]. rewrite Hsel.
  destruct Herr as [Herr | [e0 [Herr Hc0]]]; rewrite Herr, ?Hc0, Hdata;
    rewrite ?String.eqb_refl; cbn [negb backend calls];
    rewrite Hins, Herr2, Hcode, String.eqb_refl;
    now rewrite <- !app_assoc.
Qed.

(** Whatever the backend answers, a call of [createEmployee] records its
    own invocation once, followed by requests only. *)
Lemma createEmployee_calls (d : EmployeeData) (w : World B) :
  exists reqs : list Call,
    calls (snd (createEmployee d w))
    = (calls w ++ CallCreateEmployee d :: reqs)%list
    /\ createCalls reqs = [].
Proof.
  unfold createEmployee, checkEmailExists, requestSelect, requestInsert,
    record, Eff.bind, Eff.modify, Eff.throw, Eff.ret, Eff.gets.
  cbn [backend calls].
  repeat (match goal with
          | |- context [selectIdByEmail ?a ?b] =>
              destruct (selectIdByEmail a b)
          | |- context [insertEmployee ?a ?b ?c] =>
              destruct (insertEmployee a b c)
          | |- context [match error ?r with _ => _ end] => destruct (error r)
          | |- context [match data ?r with _ => _ end] => destruct (data r)
          | |- context [if ?c then _ else _] => destruct c
          end; cbn [backend calls snd]);
    eexists;
    (split; [rewrite <- ?app_assoc; cbn [app]; reflexivity | reflexivity]).
Qed.

End DataAccess.

(** On the reference table, a unique e-mail address that is present is
    found by the existence query. *)
Lemma table_filter_absent (e : string) (l : list Employee) :
  ~ In e (map (fun x => email (fields x)) l) ->
  filter (Database.hasEmail e) l = [].
Proof.
  induction l as [|x l IH]; simpl; [reflexivity|].
  intros Hn. unfold Database.hasEmail at 1.
  destruct (String.eqb_spec (email (fields x)) e) as [E | _].
  - exfalso. apply Hn. now left.
  - apply IH. intros Hin. apply Hn. now right.
Qed.

Lemma table_filter_present (e : string) (l : list Employee) :
  NoDup (map (fun x => email (fields x)) l) ->
  In e (map (fun x => email (fields x)) l) ->
  exists x : Employee, filter (Database.hasEmail e) l = [x].
Proof.
  induction l as [|x l IH]; simpl; [intros _ []|].
  intros Hnd Hin. inversion Hnd as [|? ? Hnotin Hnd']; subst.
  unfold Database.hasEmail at 1.
  destruct (String.eqb_spec (email (fields x)) e) as [E | NE].
  - subst e. rewrite (table_filter_absent _ _ Hnotin). now exists x.
  - destruct Hin as [Hx | Hin]; [contradiction|]. exact (IH Hnd' Hin).
Qed.

Lemma table_select_present (e : string) (t : Database.Table) :
  NoDup (map (fun x => email (fields x)) (Database.rows t)) ->
  In e (map (fun x => email (fields x)) (Database.rows t)) ->
  exists i : string,
    Database.table_select e t = (Database.mkResponse (Some i) None, t).
Proof.
  intros Hnd Hin. unfold Database.table_select.
  destruct (table_filter_present e _ Hnd Hin) as [x ->]. now exists (id x).
Qed.

(** C6. When the existence query finds the e-mail address, [createEmployee]
    throws the duplicate-address error after the invocation and the query
    alone, so no insert is requested; this is the case on a table with
    unique addresses that holds the address.  When the query finds nothing
    and the insert is refused with code 23505, the same error is thrown. *)
Theorem createEmployee_rejects_duplicate_email :
  forall (B : Type) (backendB : Database.Backend B)
         (d : EmployeeData) (w : Database.World B),
    (forall (r : Database.Response string) (b' : B) (i : string),
        Database.selectIdByEmail (email d) (Database.backend w) = (r, b') ->
        Database.data r = Some i ->
        Database.error r = None ->
        Database.createEmployee d w
        = (Eff.Throw (Database.NewError "このメールアドレスは既に登録されています"),
           Database.mkWorld b'
             (Database.calls w
                ++ [Database.CallCreateEmployee d;
                    Database.RequestSelect (email d)])%list))
    /\
    (forall (r : Database.Response string) (b' : B)
            (r2 : Database.Response Employee) (b'' : B)
            (e : Database.PostgrestError),
        Database.selectIdByEmail (email d) (Database.backend w) = (r, b') ->
        Database.data r = None ->
        (Database.error r = None \/
         exists e0, Database.error r = Some e0
                    /\ Database.code e0 = "PGRST116") ->
        Database.insertEmployee d (Database.nowISO b') b' = (r2, b'') ->
        Database.error r2 = Some e ->
        Database.code e = "23505" ->
        Database.createEmployee d w
        = (Eff.Throw (Database.NewError "このメールアドレスは既に登録されています"),
           Database.mkWorld b''
             (Database.calls w
                ++ [Database.CallCreateEmployee d;
                    Database.RequestSelect (email d);
                    Database.RequestInsert d (Database.nowISO b')])%list))
    /\
    (forall (t : Database.Table) (cs : list Database.Call),
        NoDup (map (fun x => email (fields x)) (Database.rows t)) ->
        In (email d) (map (fun x => email (fields x)) (Database.rows t)) ->
        Database.createEmployee d (Database.mkWorld t cs)
        = (Eff.Throw (Database.NewError "このメールアドレスは既に登録されています"),
           Database.mkWorld t
             (cs ++ [Database.CallCreateEmployee d;
                     Database.RequestSelect (email d)])%list)
        /\ insertRequests
             (Database.calls
                (snd (Database.createEmployee d (Database.mkWorld t cs))))
           = insertRequests cs).
Proof.
  intros B backendB d w. split; [|split].
  - intros r b' i. apply createEmployee_present.
  - intros r b' r2 b'' e. apply createEmployee_unique_violation.
  - intros t cs Hnd Hin.
    destruct (table_select_present (email d) t Hnd Hin) as [i Hsel].
    assert (E : Database.createEmployee d (Database.mkWorld t cs)
                = (Eff.Throw (Database.NewError Database.DUPLICATE_EMAIL),
                   Database.mkWorld t
                     (cs ++ [Database.CallCreateEmployee d;
                             Database.RequestSelect (email d)])%list)).
    { apply (createEmployee_present d (Database.mkWorld t cs)
               (Database.mkResponse (Some i) None) t i);
        [exact Hsel | reflexivity | reflexivity]. }
    split; [exact E|]. rewrite E. cbn [snd Database.calls].
    clear. induction cs as [|c cs IH]; [reflexivity|].
    destruct c; simpl; now rewrite ?IH.
Qed.

(* ================================================================= *)
(** ** The import loop *)

Lemma createCalls_app (a b : list Database.Call) :
  createCalls (a ++ b)%list = (createCalls a ++ createCalls b)%list.
Proof.
  induction a as [|c a IH]; [reflexivity|].
  destruct c; simpl; now rewrite IH.
Qed.

Lemma mem_snoc (e x : string) (l : list string) :
  mem e (l ++ [x])%list = mem e l || String.eqb e x.
Proof.
  unfold mem. rewrite existsb_app. simpl. now rewrite orb_false_r.
Qed.

Section ImportLoop.
Import Database CSVImportModal.
Variable toLowerCase : string -> string.
Context {B : Type} `{Backend B}.

Lemma createAll_cons (r : EmployeeData) (rest : list EmployeeData)
      (w : World B) :
  createAll (r :: rest) w
  = (fst (createEmployee r w)
       :: fst (createAll rest (snd (createEmployee r w))),
     snd (createAll rest (snd (createEmployee r w)))).
Proof.
  simpl. destruct (createEmployee r w) as [x w1]. cbn [fst snd].
  now destruct (createAll rest w1).
Qed.

(** The invocations recorded by a run of calls are the records, in order. *)
Lemma createAll_calls (records : list EmployeeData) (w : World B) :
  createCalls (calls (snd (createAll records w)))
  = (createCalls (calls w) ++ records)%list.
Proof.
  revert w. induction records as [|r rest IH]; intros w.
  - simpl. now rewrite app_nil_r.
  - rewrite createAll_cons. cbn [snd]. rewrite IH.
    destruct (createEmployee_calls r w) as [reqs [-> Hreqs]].
    rewrite createCalls_app. cbn [createCalls]. rewrite Hreqs.
    now rewrite <- app_assoc.
Qed.

Lemma importRecord_cases (st : Loop) (r : EmployeeData) (w : World B) :
  importRecord toLowerCase st r w
  = if mem (email r) (duplicateEmails st) then
      (Eff.Ret (mkLoop (imported st)
                  (importErrors st ++ [duplicateInFile (name r)])%list
                  (duplicateEmails st)), w)
    else
      match fst (createEmployee r w) with
      | Eff.Ret _ =>
          (Eff.Ret (mkLoop (S (imported st)) (importErrors st)
                      (duplicateEmails st ++ [email r])%list),
           snd (createEmployee r w))
      | Eff.Throw e =>
          (Eff.Ret (mkLoop (imported st)
                      (importErrors st
                         ++ [getErrorMessage toLowerCase e (name r)])%list
                      (duplicateEmails st ++ [email r])%list),
           snd (createEmployee r w))
      end.
Proof.
  unfold importRecord, mem, Eff.try_catch, Eff.bind, Eff.ret.
  destruct (existsb (String.eqb (email r)) (duplicateEmails st));
    [reflexivity|].
  now destruct (createEmployee r w) as [[a | e] w1].
Qed.

(** The loop, started with a set that holds the addresses of the earlier
    rows: it returns, its calls are those of [createAll] on the rows with a
    new address, and it counts and reports row by row. *)
Lemma for_of_importRecord (records : list EmployeeData) :
  forall (st : Loop) (w : World B) (earlier : list string),
    (forall e, mem e (duplicateEmails st) = mem e earlier) ->
    exists st' : Loop,
      Eff.for_of (importRecord toLowerCase) st records w
      = (Eff.Ret st', snd (createAll (firstRows earlier records) w))
      /\ imported st'
         = imported st
           + length (filter succeeded
                       (fst (createAll (firstRows earlier records) w)))
      /\ length (importErrors st') + imported st'
         = length (importErrors st) + imported st + length records
      /\ (forall m, In m (importErrors st) -> In m (importErrors st'))
      /\ (forall r, In r (repeatedRows earlier records) ->
                    In (duplicateInFile (name r)) (importErrors st')).
Proof.
  induction records as [|r rest IH]; intros st w earlier Hset.
  - exists st. cbn. repeat split; try lia; auto; intros r [].
  - cbn [Eff.for_of firstRows repeatedRows]. unfold Eff.bind.
    rewrite importRecord_cases, Hset.
    destruct (mem (email r) earlier) eqn:Hmem.
    + edestruct (IH (mkLoop (imported st)
                       (importErrors st ++ [duplicateInFile (name r)])%list
                       (duplicateEmails st)) w (earlier ++ [email r])%list)
        as [st' (Hrun & Hcount & Hlen & Hmono & Hdup)].
      { intros e. cbn [duplicateEmails]. rewrite mem_snoc, Hset.
        destruct (String.eqb_spec e (email r)) as [-> | _];
          [now rewrite Hmem | now rewrite orb_false_r]. }
      cbn [imported importErrors] in *. rewrite length_app in Hlen.
      cbn [length] in *.
      exists st'. repeat split; try assumption; try lia.
      * intros m Hm. apply Hmono, in_or_app. now left.
      * intros r' [<- | Hr']; [|now apply Hdup].
        apply Hmono, in_or_app. right. now left.
    + rewrite createAll_cons. cbn [fst snd filter].
      destruct (fst (createEmployee r w)) as [a | e] eqn:Hres;
        cbn [succeeded].
      * edestruct (IH (mkLoop (S (imported st)) (importErrors st)
                         (duplicateEmails st ++ [email r])%list)
                      (snd (createEmployee r w)) (earlier ++ [email r])%list)
          as [st' (Hrun & Hcount & Hlen & Hmono & Hdup)].
        { intros e. cbn [duplicateEmails]. now rewrite !mem_snoc, Hset. }
        cbn [imported importErrors length] in *.
        exists st'. repeat split; try assumption; lia.
      * edestruct (IH (mkLoop (imported st)
                         (importErrors st
                            ++ [getErrorMessage toLowerCase e (name r)])%list
                         (duplicateEmails st ++ [email r])%list)
                      (snd (createEmployee r w)) (earlier ++ [email r])%list)
          as [st' (Hrun & Hcount & Hlen & Hmono & Hdup)].
        { intros e'. cbn [duplicateEmails]. now rewrite !mem_snoc, Hset. }
        cbn [imported importErrors] in *. rewrite length_app in Hlen.
        cbn [length] in *.
        exists st'. repeat split; try assumption; try lia.
        intros m Hm. apply Hmono, in_or_app. now left.
Qed.

Lemma importLoop_runs (records : list EmployeeData) (w : World B) :
  exists st : Loop,
    importLoop toLowerCase records w
    = (Eff.Ret st, snd (createAll (firstRows [] records) w))
    /\ imported st
       = length (filter succeeded
                   (fst (createAll (firstRows [] records) w)))
    /\ length (importErrors st) + imported st = length records
    /\ (forall r, In r (repeatedRows [] records) ->
                  In (duplicateInFile (name r)) (importErrors st)).
Proof.
  destruct (for_of_importRecord records (mkLoop 0 [] []) w [])
    as [st (Hrun & Hcount & Hlen & _ & Hdup)]; [reflexivity|].
  exists st. cbn [imported importErrors length] in *.
  repeat split; try assumption; lia.
Qed.

End ImportLoop.

(* ================================================================= *)
(** ** Processing an uploaded file *)

Section ProcessFile.
Import Database CSVImportModal.
Variable toLowerCase : string -> string.
Variable papa_parse : File -> Papa.Outcome.
Context {B : Type} `{Backend B}.

Ltac run_processFile :=
  unfold processFile, processBody, processCatch, update, Eff.try_finally,
    Eff.try_catch, Eff.bind, Eff.modify, Eff.ret, Eff.throw, Eff.inner;
  cbn [fst snd setIsProcessing setErrors setSuccessCount onSuccess
       isProcessing errors successCount onSuccessCalls].

Lemma processFile_too_large (file : File) (m : ModalState) (w : World B) :
  (MAX_SIZE <? size file)%N = true ->
  processFile toLowerCase papa_parse file (m, w)
  = (Eff.Ret tt,
     (mkModal false ["ファイルサイズは5MB以下にしてください"] 0 (onSuccessCalls m), w)).
Proof.
  intros Hsize. run_processFile. rewrite Hsize. reflexivity.
Qed.

Lemma processFile_invalid (file : File) (m : ModalState) (w : World B) :
  (MAX_SIZE <? size file)%N = false ->
  CsvImport.valid (CsvImport.validateCSVData papa_parse file) = false ->
  processFile toLowerCase papa_parse file (m, w)
  = (Eff.Ret tt,
     (mkModal false
        (CsvImport.errors (CsvImport.validateCSVData papa_parse file)) 0
        (onSuccessCalls m), w)).
Proof.
  intros Hsize Hvalid. run_processFile. rewrite Hsize, Hvalid. reflexivity.
Qed.

Lemma processFile_valid (file : File) (m : ModalState) (w w' : World B)
      (records : list EmployeeData) (st : Loop) :
  (MAX_SIZE <? size file)%N = false ->
  CsvImport.valid (CsvImport.validateCSVData papa_parse file) = true ->
  CsvImport.data (CsvImport.validateCSVData papa_parse file) = Some records ->
  importLoop toLowerCase records w = (Eff.Ret st, w') ->
  processFile toLowerCase papa_parse file (m, w)
  = (Eff.Ret tt,
     (mkModal false (importErrors st) (imported st)
        (if 0 <? imported st then S (onSuccessCalls m) else onSuccessCalls m),
      w')).
Proof.
  intros Hsize Hvalid Hdata Hloop. run_processFile.
  rewrite Hsize, Hvalid, Hdata. cbn [negb fst snd]. rewrite Hloop.
  destruct (importErrors st) as [|e es]; destruct (0 <? imported st);
    reflexivity.
Qed.

End ProcessFile.

(* ================================================================= *)
(** ** Validation of the parsed rows *)

Lemma filter_nil_when (A : Type) (f : A -> bool) (l : list A) :
  (forall x, In x l -> f x = false) -> filter f l = [].
Proof.
  induction l as [|x l IH]; intros Hall; [reflexivity|].
  simpl. rewrite (Hall x (or_introl eq_refl)).
  apply IH. intros y Hy. apply Hall. now right.
Qed.

Lemma existsb_eqb_In (h : string) (l : list string) :
  In h l -> existsb (String.eqb h) l = true.
Proof.
  intros Hin. apply existsb_exists. exists h. split; [exact Hin|].
  apply String.eqb_refl.
Qed.

(** Every row that is kept has no error, and a row with an error leaves a
    message. *)
Lemma filterRows_spec (rows : list Papa.Row) :
  forall i : nat,
    (fst (CsvImport.filterRows i rows) = [] <->
     forall j row, nth_error rows j = Some row ->
                   CsvImport.rowErrors (i + j + 2) row = [])
    /\ (fst (CsvImport.filterRows i rows) = [] ->
        snd (CsvImport.filterRows i rows) = rows)
    /\ ((forall j row, nth_error rows j = Some row ->
                       CsvImport.rowErrors (i + j + 2) row <> []) ->
        snd (CsvImport.filterRows i rows) = []).
Proof.
  induction rows as [|row rest IH]; intros i.
  - cbn. repeat split; auto. intros _ [|j] row' E; discriminate E.
  - cbn [CsvImport.filterRows].
    destruct (IH (S i)) as (IHerr & IHkept & IHnone).
    destruct (CsvImport.filterRows (S i) rest) as [es kept].
    cbn [fst snd] in *.
    destruct (CsvImport.rowErrors (i + 2) row) as [|e errs] eqn:Hrow;
      cbn [fst snd].
    + split; [|split].
      * rewrite IHerr. split.
        -- intros Hall [|j] row' E; cbn in E.
           ++ injection E as <-. now rewrite Nat.add_0_r.
           ++ replace (i + S j + 2) with (S i + j + 2) by lia. now apply Hall.
        -- intros Hall j row' E.
           replace (S i + j + 2) with (i + S j + 2) by lia. now apply Hall.
      * intros Hes. now rewrite (IHkept Hes).
      * intros Hall. exfalso. apply (Hall 0 row eq_refl).
        now rewrite Nat.add_0_r.
    + split; [|split].
      * split; [discriminate|].
        intros Hall. specialize (Hall 0 row eq_refl).
        rewrite Nat.add_0_r, Hrow in Hall. discriminate Hall.
      * discriminate.
      * intros Hall. apply IHnone. intros j row' E.
        replace (S i + j + 2) with (i + S j + 2) by lia. now apply Hall.
Qed.

Lemma complete_fields (results : Papa.Results) :
  CsvImport.errors (CsvImport.complete results)
  = (CsvImport.headerErrors (Papa.meta_fields results)
       ++ fst (CsvImport.filterRows 0 (Papa.data results)))%list
  /\ CsvImport.data (CsvImport.complete results)
     = Some (map CsvImport.toRecord
               (snd (CsvImport.filterRows 0 (Papa.data results))))
  /\ CsvImport.valid (CsvImport.complete results)
     = match CsvImport.errors (CsvImport.complete results) with
       | [] => true
       | _ => false
       end
       && (0 <? length (snd (CsvImport.filterRows 0 (Papa.data results)))).
Proof.
  unfold CsvImport.complete.
  destruct (CsvImport.filterRows 0 (Papa.data results)) as [es kept].
  cbn [fst snd CsvImport.errors CsvImport.data CsvImport.valid].
  rewrite length_map. repeat split.
Qed.

(** A valid result comes from rows that all pass, and holds all of them. *)
Lemma complete_valid (results : Papa.Results) :
  CsvImport.valid (CsvImport.complete results) = true ->
  CsvImport.errors (CsvImport.complete results) = []
  /\ CsvImport.data (CsvImport.complete results)
     = Some (map CsvImport.toRecord (Papa.data results))
  /\ Papa.data results <> []
  /\ forall j row, nth_error (Papa.data results) j = Some row ->
                   CsvImport.rowErrors (j + 2) row = [].
Proof.
  destruct (complete_fields results) as (Herr & Hdata & Hvalid).
  rewrite Hvalid. intros Hv. apply andb_true_iff in Hv. destruct Hv as [He Hn].
  destruct (CsvImport.errors (CsvImport.complete results)) eqn:E;
    [clear He | discriminate He].
  symmetry in Herr. apply app_eq_nil in Herr. destruct Herr as [_ Hrows].
  destruct (filterRows_spec (Papa.data results) 0) as (Hiff & Hkept & _).
  rewrite (Hkept Hrows) in Hdata, Hn.
  repeat split; try assumption.
  - intros Hnil. rewrite Hnil in Hn. discriminate Hn.
  - intros j row. apply (proj1 Hiff Hrows).
Qed.

(** A row with an error makes the result invalid. *)
Lemma complete_invalid_row (results : Papa.Results) (j : nat) (row : Papa.Row) :
  nth_error (Papa.data results) j = Some row ->
  CsvImport.rowErrors (j + 2) row <> [] ->
  CsvImport.valid (CsvImport.complete results) = false.
Proof.
  intros Hj Hrow.
  destruct (CsvImport.valid (CsvImport.complete results)) eqn:Hv;
    [|reflexivity].
  destruct (complete_valid results Hv) as (_ & _ & _ & Hall).
  exfalso. apply Hrow. now apply Hall.
Qed.

(** A row with an error leaves at least one message. *)
Lemma filterRows_none_kept_length (rows : list Papa.Row) :
  forall i : nat,
    (forall j row, nth_error rows j = Some row ->
                   CsvImport.rowErrors (i + j + 2) row <> []) ->
    length rows <= length (fst (CsvImport.filterRows i rows)).
Proof.
  induction rows as [|row rest IH]; intros i Hnone; [cbn; lia|].
  cbn [CsvImport.filterRows].
  assert (Hrest : length rest
                  <= length (fst (CsvImport.filterRows (S i) rest))).
  { apply IH. intros j row' E.
    replace (S i + j + 2) with (i + S j + 2) by lia. now apply Hnone. }
  destruct (CsvImport.filterRows (S i) rest) as [es kept].
  cbn [fst] in Hrest.
  destruct (CsvImport.rowErrors (i + 2) row) as [|e errs] eqn:Hrow.
  - exfalso. apply (Hnone 0 row eq_refl). now rewrite Nat.add_0_r.
  - cbn [fst length]. rewrite length_app. cbn [length]. lia.
Qed.

(** No column is reported missing exactly when the header names every
    required column. *)
Lemma headerErrors_nil_iff (headers : list string) :
  CsvImport.headerErrors headers = [] <->
  forall header, In header (map fst CsvImport.REQUIRED_HEADERS) ->
                 In header headers.
Proof.
  unfold CsvImport.headerErrors.
  destruct (CsvImport.missingHeaders headers) as [|m ms] eqn:E.
  - split; [intros _ | reflexivity]. intros header Hin.
    destruct (existsb (String.eqb header) headers) eqn:Ex.
    + apply existsb_exists in Ex. destruct Ex as (h & Hh & Heq).
      apply String.eqb_eq in Heq. now subst.
    + assert (Hm : In header (CsvImport.missingHeaders headers)).
      { unfold CsvImport.missingHeaders. apply filter_In.
        split; [exact Hin | now rewrite Ex]. }
      rewrite E in Hm. destruct Hm.
  - split; [discriminate|]. intros Hall. exfalso.
    assert (Hm : In m (CsvImport.missingHeaders headers))
      by (rewrite E; now left).
    unfold CsvImport.missingHeaders in Hm. apply filter_In in Hm.
    destruct Hm as [Hin Hneg].
    rewrite (existsb_eqb_In _ _ (Hall m Hin)) in Hneg. discriminate Hneg.
Qed.

(** C9, as amended. When the parser completes and none of the data rows
    passes validation, the result is not valid and holds no record.  Every
    data row then leaves at least one message, so the list of errors is
    empty exactly when the parser yields no data row at all and the header
    names every required column: the header row with nothing after it is
    rejected without a message, the header row followed by a line feed is
    not. *)
Theorem validateCSVData_rejects_without_valid_rows :
  forall (papa_parse : File -> Papa.Outcome) (file : File)
         (results : Papa.Results),
    papa_parse file = Papa.Complete results ->
    (forall j row, nth_error (Papa.data results) j = Some row ->
                   CsvImport.rowErrors (j + 2) row <> []) ->
    CsvImport.valid (CsvImport.validateCSVData papa_parse file) = false
    /\ CsvImport.data (CsvImport.validateCSVData papa_parse file) = Some []
    /\ length (Papa.data results)
       <= length (CsvImport.errors (CsvImport.validateCSVData papa_parse file))
    /\ (CsvImport.errors (CsvImport.validateCSVData papa_parse file) = []
        <->
        Papa.data results = []
        /\ forall header, In header (map fst CsvImport.REQUIRED_HEADERS) ->
                          In header (Papa.meta_fields results)).
Proof.
  intros papa_parse file results Hparse Hnone.
  unfold CsvImport.validateCSVData. rewrite Hparse.
  destruct (complete_fields results) as (Herr & Hdata & Hvalid).
  destruct (filterRows_spec (Papa.data results) 0) as (_ & _ & Hkept).
  rewrite (Hkept Hnone) in Hdata, Hvalid. cbn [map length] in *.
  rewrite Nat.ltb_irrefl, andb_false_r in Hvalid.
  assert (Hlen := filterRows_none_kept_length (Papa.data results) 0 Hnone).
  split; [exact Hvalid | split; [exact Hdata | split]].
  - rewrite Herr, length_app. lia.
  - rewrite Herr. split.
    + intros Hnil. apply app_eq_nil in Hnil. destruct Hnil as [Hh Hr].
      rewrite Hr in Hlen. cbn [length] in Hlen.
      split; [|now apply headerErrors_nil_iff].
      destruct (Papa.data results); [reflexivity | cbn in Hlen; lia].
    + intros [Hempty Hheaders]. rewrite Hempty.
      cbn [CsvImport.filterRows fst].
      rewrite (proj2 (headerErrors_nil_iff _) Hheaders). reflexivity.
Qed.

Lemma firstRows_app (a b : list EmployeeData) :
  forall earlier : list string,
    firstRows earlier (a ++ b)%list
    = (firstRows earlier a
         ++ firstRows (earlier ++ map email a)%list b)%list.
Proof.
  induction a as [|r a IH]; intros earlier.
  - simpl. now rewrite app_nil_r.
  - cbn [app firstRows map]. rewrite IH, <- app_assoc. cbn [app].
    now destruct (mem (email r) earlier).
Qed.

Lemma firstRows_distinct (records : list EmployeeData) :
  forall earlier : list string,
    NoDup (earlier ++ map email records)%list ->
    firstRows earlier records = records.
Proof.
  induction records as [|r rest IH]; intros earlier Hnd; [reflexivity|].
  cbn [firstRows map] in *.
  assert (Hmem : mem (email r) earlier = false).
  { destruct (mem (email r) earlier) eqn:E; [|reflexivity].
    apply existsb_exists in E. destruct E as [x [Hx Ex]].
    apply String.eqb_eq in Ex. subst x.
    apply NoDup_remove_2 in Hnd. exfalso. apply Hnd.
    apply in_or_app. now left. }
  rewrite Hmem, IH; [reflexivity|].
  rewrite <- app_assoc. exact Hnd.
Qed.

(* ================================================================= *)
(** ** The claims on the import *)

Section ImportOfFile.
Import Database CSVImportModal.
Variable toLowerCase : string -> string.
Variable papa_parse : File -> Papa.Outcome.
Context {B : Type} `{Backend B}.

(** C5. A file of more than 5 * 1024 * 1024 bytes ends with the message on
    the size as the only error, whatever the parser would make of it; the
    world is unchanged, so no call is recorded and nothing is created. *)
Theorem processFile_rejects_large_file :
  forall (file : File) (m : ModalState) (w : World B),
    (5 * 1024 * 1024 < size file)%N ->
    processFile toLowerCase papa_parse file (m, w)
    = (Eff.Ret tt,
       (mkModal false ["ファイルサイズは5MB以下にしてください"] 0 (onSuccessCalls m),
        w)).
Proof.
  intros file m w Hsize. apply processFile_too_large.
  now apply N.ltb_lt.
Qed.

(** What a file whose validation result is valid, with [records] as its
    data, leads to: the calls of [createAll] on the rows with a new
    address, and the counts of the loop. *)
Lemma processFile_valid_run (file : File) (m : ModalState) (w : World B)
      (records : list EmployeeData) :
  (size file <= MAX_SIZE)%N ->
  CsvImport.valid (CsvImport.validateCSVData papa_parse file) = true ->
  CsvImport.data (CsvImport.validateCSVData papa_parse file) = Some records ->
  exists st : Loop,
    processFile toLowerCase papa_parse file (m, w)
    = (Eff.Ret tt,
       (mkModal false (importErrors st) (imported st)
          (if 0 <? imported st then S (onSuccessCalls m)
           else onSuccessCalls m),
        snd (createAll (firstRows [] records) w)))
    /\ imported st
       = length (filter succeeded
                   (fst (createAll (firstRows [] records) w)))
    /\ length (importErrors st) + imported st = length records
    /\ (forall r, In r (repeatedRows [] records) ->
                  In (duplicateInFile (name r)) (importErrors st)).
Proof.
  intros Hsize Hvalid Hdata.
  destruct (importLoop_runs toLowerCase records w)
    as [st (Hrun & Hcount & Hlen & Hdup)].
  exists st. split; [|now repeat split].
  apply processFile_valid with (records := records); try assumption.
  now apply N.ltb_ge.
Qed.

(** C8. In the import of a valid file, [createEmployee] is called for the
    rows whose address no earlier row carries, in row order, and for no
    other row; every row that repeats the address of an earlier row leaves
    the message on the repetition within the file.  The last part says
    what the selection does at each row. *)
Theorem processFile_submits_first_row_of_each_email :
  forall (file : File) (m : ModalState) (w : World B)
         (records : list EmployeeData),
    (size file <= 5 * 1024 * 1024)%N ->
    CsvImport.valid (CsvImport.validateCSVData papa_parse file) = true ->
    CsvImport.data (CsvImport.validateCSVData papa_parse file)
    = Some records ->
    exists (ms : ModalState) (w' : World B),
      processFile toLowerCase papa_parse file (m, w) = (Eff.Ret tt, (ms, w'))
      /\ createCalls (calls w')
         = (createCalls (calls w) ++ firstRows [] records)%list
      /\ (forall r, In r (repeatedRows [] records) ->
                    In (name r ++ "のメールアドレスがCSVファイル内で重複しています")
                       (errors ms))
      /\ (forall (pre post : list EmployeeData) (r : EmployeeData),
             records = (pre ++ r :: post)%list ->
             firstRows [] records
             = (firstRows [] pre
                  ++ (if mem (email r) (map email pre) then [] else [r])
                  ++ firstRows (map email pre ++ [email r])%list post)%list).
Proof.
  intros file m w records Hsize Hvalid Hdata.
  destruct (processFile_valid_run file m w records Hsize Hvalid Hdata)
    as [st (Hrun & _ & _ & Hdup)].
  eexists _, _. split; [exact Hrun|]. split; [apply createAll_calls|].
  split; [exact Hdup|].
  intros pre post r ->. rewrite firstRows_app. cbn [app firstRows].
  now destruct (mem (email r) (map email pre)).
Qed.

(** C7, as amended. In the import of a valid file, [createEmployee] is
    called once for each row whose address no earlier row carries, in row
    order, each call starting in the world the previous one left; that is
    once per row when the addresses differ.  The success count is the
    number of calls that returned, and the errors and the successes
    together are as many as the rows. *)
Theorem processFile_counts_sequential_creates :
  forall (file : File) (m : ModalState) (w : World B)
         (records : list EmployeeData),
    (size file <= 5 * 1024 * 1024)%N ->
    CsvImport.valid (CsvImport.validateCSVData papa_parse file) = true ->
    CsvImport.data (CsvImport.validateCSVData papa_parse file)
    = Some records ->
    exists ms : ModalState,
      processFile toLowerCase papa_parse file (m, w)
      = (Eff.Ret tt, (ms, snd (createAll (firstRows [] records) w)))
      /\ createCalls (calls (snd (createAll (firstRows [] records) w)))
         = (createCalls (calls w) ++ firstRows [] records)%list
      /\ (NoDup (map email records) -> firstRows [] records = records)
      /\ successCount ms
         = length (filter succeeded
                     (fst (createAll (firstRows [] records) w)))
      /\ length (errors ms) + successCount ms = length records.
Proof.
  intros file m w records Hsize Hvalid Hdata.
  destruct (processFile_valid_run file m w records Hsize Hvalid Hdata)
    as [st (Hrun & Hcount & Hlen & _)].
  eexists. split; [exact Hrun|]. split; [apply createAll_calls|].
  split; [apply (firstRows_distinct records [])|].
  cbn [successCount errors]. now split.
Qed.

(** C1, as amended. A file with a row that fails validation is not valid,
    and for a file that is not valid nothing is submitted: the world is
    unchanged and the errors of the validation are shown.  A valid file
    holds every parsed row, none of them failing; then each row whose
    address no earlier row carries is submitted, whatever the other calls
    return, and the successes and the errors together are as many as the
    rows. *)
Theorem processFile_all_rows_or_none :
  forall (file : File) (m : ModalState) (w : World B),
    (size file <= 5 * 1024 * 1024)%N ->
    (forall (results : Papa.Results) (j : nat) (row : Papa.Row),
        papa_parse file = Papa.Complete results ->
        nth_error (Papa.data results) j = Some row ->
        CsvImport.rowErrors (j + 2) row <> [] ->
        CsvImport.valid (CsvImport.validateCSVData papa_parse file) = false)
    /\
    (CsvImport.valid (CsvImport.validateCSVData papa_parse file) = false ->
     processFile toLowerCase papa_parse file (m, w)
     = (Eff.Ret tt,
        (mkModal false
           (CsvImport.errors (CsvImport.validateCSVData papa_parse file)) 0
           (onSuccessCalls m), w)))
    /\
    (CsvImport.valid (CsvImport.validateCSVData papa_parse file) = true ->
     exists (results : Papa.Results) (ms : ModalState),
       papa_parse file = Papa.Complete results
       /\ (forall j row, nth_error (Papa.data results) j = Some row ->
                         CsvImport.rowErrors (j + 2) row = [])
       /\ processFile toLowerCase papa_parse file (m, w)
          = (Eff.Ret tt,
             (ms,
              snd (createAll
                     (firstRows []
                        (map CsvImport.toRecord (Papa.data results))) w)))
       /\ createCalls
            (calls
               (snd (createAll
                       (firstRows []
                          (map CsvImport.toRecord (Papa.data results))) w)))
          = (createCalls (calls w)
               ++ firstRows []
                    (map CsvImport.toRecord (Papa.data results)))%list
       /\ successCount ms
          = length (filter succeeded
                      (fst (createAll
                              (firstRows []
                                 (map CsvImport.toRecord (Papa.data results)))
                              w)))
       /\ length (errors ms) + successCount ms
          = length (Papa.data results)).
Proof.
  intros file m w Hsize. split; [|split].
  - intros results j row Hparse Hj Hrow.
    unfold CsvImport.validateCSVData. rewrite Hparse.
    exact (complete_invalid_row results j row Hj Hrow).
  - intros Hvalid. apply processFile_invalid; [|exact Hvalid].
    now apply N.ltb_ge.
  - intros Hvalid.
    assert (Hv := Hvalid). unfold CsvImport.validateCSVData in Hv.
    destruct (papa_parse file) as [results | msg] eqn:Hparse;
      [|discriminate Hv].
    destruct (complete_valid results Hv) as (_ & Hdata & _ & Hall).
    assert (Hd : CsvImport.data (CsvImport.validateCSVData papa_parse file)
                 = Some (map CsvImport.toRecord (Papa.data results))).
    { unfold CsvImport.validateCSVData. now rewrite Hparse. }
    destruct (processFile_valid_run file m w _ Hsize Hvalid Hd)
      as [st (Hrun & Hcount & Hlen & _)].
    exists results. eexists. split; [reflexivity|]. split; [exact Hall|].
    split; [exact Hrun|]. split; [apply createAll_calls|].
    cbn [successCount errors]. rewrite length_map in Hlen. now split.
Qed.

End ImportOfFile.

(* ================================================================= *)
(** ** The code on the sample inputs *)

(** C5 at a file of 5242881 bytes. *)
Lemma processFile_rejects_large_file_witness :
  (5 * 1024 * 1024 < size Sample.tooLarge)%N
  /\ CSVImportModal.processFile JS.toLowerCaseAscii Papa.parseFile
       Sample.tooLarge (Sample.modal, Sample.world)
     = (Eff.Ret tt,
        (CSVImportModal.mkModal false ["ファイルサイズは5MB以下にしてください"] 0 0,
         Sample.world)).
Proof.
  split; [reflexivity|].
  apply (processFile_rejects_large_file JS.toLowerCaseAscii Papa.parseFile
           Sample.tooLarge Sample.modal Sample.world).
  reflexivity.
Defined.

(** C6 at the sample table, which holds the address of [Sample.sabu]. *)
Lemma createEmployee_rejects_duplicate_email_witness :
  Database.createEmployee Sample.sabu Sample.world
  = (Eff.Throw (Database.NewError "このメールアドレスは既に登録されています"),
     Database.mkWorld Sample.table
       [Database.CallCreateEmployee Sample.sabu;
        Database.RequestSelect "sabu@example.com"])
  /\ insertRequests
       (Database.calls
          (snd (Database.createEmployee Sample.sabu Sample.world)))
     = [].
Proof.
  apply (proj2 (proj2 (createEmployee_rejects_duplicate_email
                         Database.Table Database.TableBackend
                         Sample.sabu Sample.world))
               Sample.table []).
  - constructor; [intros [] | constructor].
  - left. reflexivity.
Defined.

(** C9 at the file that holds the header row only and at the file that
    holds the header row and a line feed. *)
Lemma validateCSVData_rejects_without_valid_rows_witness :
  (CsvImport.valid
     (CsvImport.validateCSVData Papa.parseFile Sample.headerOnly) = false
   /\ CsvImport.errors
        (CsvImport.validateCSVData Papa.parseFile Sample.headerOnly) = [])
  /\ (CsvImport.valid
        (CsvImport.validateCSVData Papa.parseFile
           MoreSamples.headerAndLineFeed) = false
      /\ 1 <= length
                (CsvImport.errors
                   (CsvImport.validateCSVData Papa.parseFile
                      MoreSamples.headerAndLineFeed))).
Proof.
  split.
  - destruct (validateCSVData_rejects_without_valid_rows
                Papa.parseFile Sample.headerOnly
                (Papa.mkResults []
                   ["会社名"; "氏名"; "メールアドレス"; "部署"; "役職"]))
      as (Hvalid & _ & _ & Hiff).
    + vm_compute. reflexivity.
    + intros [|j] row E; discriminate E.
    + split; [exact Hvalid|]. apply Hiff.
      split; [reflexivity | intros header Hin; exact Hin].
  - destruct (validateCSVData_rejects_without_valid_rows
                Papa.parseFile MoreSamples.headerAndLineFeed
                (Papa.mkResults [[("会社名", "")]]
                   ["会社名"; "氏名"; "メールアドレス"; "部署"; "役職"]))
      as (Hvalid & _ & Hlen & _).
    + vm_compute. reflexivity.
    + intros [|[|j]] row E; try discriminate E.
      injection E as <-. vm_compute. discriminate.
    + split; [exact Hvalid | exact Hlen].
Defined.

(** C9, as stated, fails: the file that holds the header row and the line
    feed that ends it is read as one data row whose cells are blank or
    missing, and is rejected with five messages. *)
Lemma validateCSVData_header_line_feed_reports_errors :
  Papa.parseFile MoreSamples.headerAndLineFeed
  = Papa.Complete
      (Papa.mkResults [[("会社名", "")]]
         ["会社名"; "氏名"; "メールアドレス"; "部署"; "役職"])
  /\ CsvImport.validateCSVData Papa.parseFile MoreSamples.headerAndLineFeed
     = CsvImport.mkResult false
         ["2行目: 会社名は必須です"; "2行目: 氏名は必須です";
          "2行目: メールアドレスは必須です"; "2行目: 部署は必須です";
          "2行目: 役職は必須です"]
         (Some []).
Proof. vm_compute. split; reflexivity. Qed.

(** C8 at the file whose second row repeats the address of the first. *)
Lemma processFile_submits_first_row_of_each_email_witness :
  CsvImport.validateCSVData Papa.parseFile Sample.repeatedEmail
  = CsvImport.mkResult true []
      (Some [Sample.taro; Sample.jiro; Sample.sabu; Sample.shiro])
  /\ exists (ms : CSVImportModal.ModalState)
            (w' : Database.World Database.Table),
      CSVImportModal.processFile JS.toLowerCaseAscii Papa.parseFile
        Sample.repeatedEmail (Sample.modal, Sample.world)
      = (Eff.Ret tt, (ms, w'))
      /\ createCalls (Database.calls w')
         = [Sample.taro; Sample.sabu; Sample.shiro]
      /\ In "JiroのメールアドレスがCSVファイル内で重複しています"
            (CSVImportModal.errors ms).
Proof.
  assert (Hv : CsvImport.validateCSVData Papa.parseFile Sample.repeatedEmail
               = CsvImport.mkResult true []
                   (Some [Sample.taro; Sample.jiro; Sample.sabu;
                          Sample.shiro])).
  { vm_compute. reflexivity. }
  split; [exact Hv|].
  destruct (processFile_submits_first_row_of_each_email
              JS.toLowerCaseAscii Papa.parseFile
              Sample.repeatedEmail Sample.modal Sample.world
              [Sample.taro; Sample.jiro; Sample.sabu; Sample.shiro])
    as (ms & w' & Hrun & Hcalls & Hdup & _).
  - vm_compute. discriminate.
  - now rewrite Hv.
  - now rewrite Hv.
  - exists ms, w'. split; [exact Hrun|]. split; [exact Hcalls|].
    apply (Hdup Sample.jiro). left. reflexivity.
Defined.

(** C7, as amended, at the same file on the sample table: three calls,
    two of them succeed, and two rows leave an error. *)
Lemma processFile_counts_sequential_creates_witness :
  exists ms : CSVImportModal.ModalState,
    CSVImportModal.processFile JS.toLowerCaseAscii Papa.parseFile
      Sample.repeatedEmail (Sample.modal, Sample.world)
    = (Eff.Ret tt,
       (ms, snd (createAll [Sample.taro; Sample.sabu; Sample.shiro]
                           Sample.world)))
    /\ CSVImportModal.successCount ms = 2
    /\ length (CSVImportModal.errors ms) + CSVImportModal.successCount ms = 4.
Proof.
  assert (Hv : CsvImport.validateCSVData Papa.parseFile Sample.repeatedEmail
               = CsvImport.mkResult true []
                   (Some [Sample.taro; Sample.jiro; Sample.sabu;
                          Sample.shiro])).
  { vm_compute. reflexivity. }
  destruct (processFile_counts_sequential_creates
              JS.toLowerCaseAscii Papa.parseFile
              Sample.repeatedEmail Sample.modal Sample.world
              [Sample.taro; Sample.jiro; Sample.sabu; Sample.shiro])
    as (ms & Hrun & _ & _ & Hcount & Hlen).
  - vm_compute. discriminate.
  - now rewrite Hv.
  - now rewrite Hv.
  - exists ms. split; [exact Hrun|]. split; [exact Hcount | exact Hlen].
Defined.

(** C7, as stated, fails: the four rows of the file pass validation, and
    [createEmployee] is called for three of them. *)
Lemma processFile_no_call_for_repeated_email :
  CsvImport.validateCSVData Papa.parseFile Sample.repeatedEmail
  = CsvImport.mkResult true []
      (Some [Sample.taro; Sample.jiro; Sample.sabu; Sample.shiro])
  /\ createCalls
       (Database.calls
          (snd (snd (CSVImportModal.processFile JS.toLowerCaseAscii
                       Papa.parseFile Sample.repeatedEmail
                       (Sample.modal, Sample.world)))))
     = [Sample.taro; Sample.sabu; Sample.shiro].
Proof. vm_compute. split; reflexivity. Qed.

(** C1, as amended, at the file whose second row has no name: nothing is
    submitted. *)
Lemma processFile_all_rows_or_none_witness :
  (size Sample.oneBadRow <= 5 * 1024 * 1024)%N
  /\ CSVImportModal.processFile JS.toLowerCaseAscii Papa.parseFile
       Sample.oneBadRow (Sample.modal, Sample.world)
     = (Eff.Ret tt,
        (CSVImportModal.mkModal false ["3行目: 氏名は必須です"] 0 0,
         Sample.world)).
Proof.
  assert (Hsize : (size Sample.oneBadRow <= 5 * 1024 * 1024)%N).
  { vm_compute. discriminate. }
  split; [exact Hsize|].
  apply (proj1 (proj2 (processFile_all_rows_or_none
                         JS.toLowerCaseAscii Papa.parseFile
                         Sample.oneBadRow Sample.modal Sample.world Hsize))).
  vm_compute. reflexivity.
Defined.

(** C1, as stated, fails: the first data row of the file passes
    validation, the second does not, and after [processFile] no call is
    recorded and nothing is imported. *)
Lemma processFile_drops_valid_row :
  Papa.parseFile Sample.oneBadRow
  = Papa.Complete
      (Papa.mkResults
         [[("会社名", "ACME"); ("氏名", "Taro");
           ("メールアドレス", "taro@example.com"); ("部署", "Sales");
           ("役職", "Manager")];
          [("会社名", "ACME"); ("氏名", "");
           ("メールアドレス", "jiro@example.com"); ("部署", "Sales");
           ("役職", "Staff")]]
         ["会社名"; "氏名"; "メールアドレス"; "部署"; "役職"])
  /\ CsvImport.rowErrors 2
       [("会社名", "ACME"); ("氏名", "Taro");
        ("メールアドレス", "taro@example.com"); ("部署", "Sales");
        ("役職", "Manager")]
     = []
  /\ CSVImportModal.processFile JS.toLowerCaseAscii Papa.parseFile
       Sample.oneBadRow (Sample.modal, Database.mkWorld Sample.table [])
     = (Eff.Ret tt,
        (CSVImportModal.mkModal false ["3行目: 氏名は必須です"] 0 0,
         Database.mkWorld Sample.table [])).
Proof. vm_compute. repeat split. Qed.

(* ================================================================= *)
(** ** The export read back by the import *)

Lemma includes_dquote_cons (c : ascii) (s : string) :
  JS.includes (String c s) JS.DQUOTE
  = Ascii.eqb c JS.dquote || JS.includes s JS.DQUOTE.
Proof.
  cbn [JS.includes]. f_equal.
  change JS.DQUOTE with (String JS.dquote "").
  cbn [JS.startsWith]. rewrite andb_true_r. apply Ascii.eqb_sym.
Qed.

Lemma snoc_append (s t : string) (c : ascii) :
  Papa.snoc s c ++ t = s ++ String c t.
Proof. unfold Papa.snoc. now rewrite append_assoc. Qed.

(** Inside a quoted field, text without a quote is taken as it is, up to
    the quote that follows. *)
Lemma scan_quoted_text (f : string) :
  forall (val raw : string) (row : list string) (rest : string),
    JS.includes f JS.DQUOTE = false ->
    Papa.scan Papa.Quoted val raw row (f ++ String JS.dquote rest)
    = Papa.scan Papa.QuoteSeen (val ++ f) (raw ++ f) row rest.
Proof.
  induction f as [|c f IH]; intros val raw row rest Hq.
  - cbn [append Papa.scan]. rewrite Ascii.eqb_refl. now rewrite !append_nil_r.
  - rewrite includes_dquote_cons in Hq. apply orb_false_iff in Hq.
    destruct Hq as [Hc Hf].
    cbn [append Papa.scan]. rewrite Hc, (IH _ _ _ _ Hf).
    now rewrite !snoc_append.
Qed.

Lemma quoted_cons (f rest : string) :
  CsvExport.quoted f ++ rest = String JS.dquote (f ++ String JS.dquote rest).
Proof.
  unfold CsvExport.quoted. change JS.DQUOTE with (String JS.dquote "").
  cbn [append]. now rewrite append_assoc.
Qed.

(** A quoted field followed by a comma, by a line feed, or by nothing. *)
Lemma scan_quoted_comma (f : string) (row : list string) (rest : string) :
  JS.includes f JS.DQUOTE = false ->
  Papa.scan Papa.FieldStart "" "" row
            (CsvExport.quoted f ++ String JS.comma rest)
  = Papa.scan Papa.FieldStart "" "" (row ++ [f])%list rest.
Proof.
  intros Hq. rewrite quoted_cons. cbn [Papa.scan].
  rewrite Ascii.eqb_refl, (scan_quoted_text f _ _ _ _ Hq). reflexivity.
Qed.

Lemma scan_quoted_lf (f : string) (row : list string) (rest : string) :
  JS.includes f JS.DQUOTE = false ->
  Papa.scan Papa.FieldStart "" "" row
            (CsvExport.quoted f ++ String JS.lf rest)
  = (row ++ [f])%list :: Papa.scan Papa.FieldStart "" "" [] rest.
Proof.
  intros Hq. rewrite quoted_cons. cbn [Papa.scan].
  rewrite Ascii.eqb_refl, (scan_quoted_text f _ _ _ _ Hq). reflexivity.
Qed.

Lemma scan_quoted_end (f : string) (row : list string) :
  JS.includes f JS.DQUOTE = false ->
  Papa.scan Papa.FieldStart "" "" row (CsvExport.quoted f ++ "")
  = [(row ++ [f])%list].
Proof.
  intros Hq. rewrite quoted_cons. cbn [Papa.scan].
  rewrite Ascii.eqb_refl, (scan_quoted_text f _ _ _ _ Hq). reflexivity.
Qed.

Lemma plainRecord_fields (r : EmployeeData) :
  plainRecord r = true ->
  Forall (fun f => JS.includes f JS.DQUOTE = false
                   /\ JS.isEmpty (JS.trim f) = false)
         (exportedFields r)
  /\ Regex.test CsvImport.EMAIL (email r) = true.
Proof.
  unfold plainRecord, plainField, exportedFields. intros Hp.
  rewrite !andb_true_iff, !negb_true_iff in Hp.
  destruct Hp as [[[[[[H1a H1b] [H2a H2b]] [H3a H3b]] [H4a H4b]] [H5a H5b]] He].
  split; [repeat constructor; assumption | exact He].
Qed.

Lemma dataRow_unfold (r : EmployeeData) (rest : string) :
  CsvExport.dataRow r ++ rest
  = CsvExport.quoted (name r) ++ String JS.comma
      (CsvExport.quoted (email r) ++ String JS.comma
         (CsvExport.quoted (company_name r) ++ String JS.comma
            (CsvExport.quoted (department r) ++ String JS.comma
               (CsvExport.quoted (position r) ++ rest)))).
Proof.
  unfold CsvExport.dataRow. cbn [JS.join].
  change "," with (String JS.comma "").
  rewrite !append_assoc. cbn [append]. reflexivity.
Qed.

(** One exported data row, followed by a line feed or by nothing. *)
Lemma scan_dataRow (r : EmployeeData) (rest : string) :
  plainRecord r = true ->
  Papa.scan Papa.FieldStart "" "" [] (CsvExport.dataRow r ++ String JS.lf rest)
  = exportedFields r :: Papa.scan Papa.FieldStart "" "" [] rest
  /\ Papa.scan Papa.FieldStart "" "" [] (CsvExport.dataRow r)
     = [exportedFields r].
Proof.
  intros Hp. destruct (plainRecord_fields r Hp) as [Hf _].
  unfold exportedFields in *.
  inversion Hf as [|? ? [H1 _] Hf1]; subst.
  inversion Hf1 as [|? ? [H2 _] Hf2]; subst.
  inversion Hf2 as [|? ? [H3 _] Hf3]; subst.
  inversion Hf3 as [|? ? [H4 _] Hf4]; subst.
  inversion Hf4 as [|? ? [H5 _] _]; subst.
  split.
  - rewrite dataRow_unfold.
    rewrite (scan_quoted_comma _ _ _ H1), (scan_quoted_comma _ _ _ H2),
      (scan_quoted_comma _ _ _ H3), (scan_quoted_comma _ _ _ H4),
      (scan_quoted_lf _ _ _ H5).
    reflexivity.
  - rewrite <- (append_nil_r (CsvExport.dataRow r)), dataRow_unfold.
    rewrite (scan_quoted_comma _ _ _ H1), (scan_quoted_comma _ _ _ H2),
      (scan_quoted_comma _ _ _ H3), (scan_quoted_comma _ _ _ H4),
      (scan_quoted_end _ _ H5).
    reflexivity.
Qed.

(** The exported data rows are read back field by field. *)
Lemma scan_dataRows (r : EmployeeData) (data : list EmployeeData) :
  forallb plainRecord (r :: data) = true ->
  Papa.scan Papa.FieldStart "" "" []
            (JS.join JS.LF (map CsvExport.dataRow (r :: data)))
  = map exportedFields (r :: data).
Proof.
  revert r. induction data as [|r' data IH]; intros r Hall;
    cbn [forallb] in Hall; apply andb_true_iff in Hall;
    destruct Hall as [Hr Hrest].
  - cbn [map JS.join]. exact (proj2 (scan_dataRow r "" Hr)).
  - cbn [map]. rewrite join_cons. cbn [map] in IH.
    change JS.LF with (String JS.lf "") at 1. cbn [append].
    rewrite (proj1 (scan_dataRow r _ Hr)). f_equal. now apply IH.
Qed.

Lemma parse_exported (r : EmployeeData) (data : list EmployeeData)
      (filename : string) :
  forallb plainRecord (r :: data) = true ->
  Papa.parse (CsvExport.blob (CsvExport.downloadCSV (r :: data) filename))
  = Papa.mkResults (map exportedRow (r :: data)) CsvExport.headers.
Proof.
  intros Hall. unfold CsvExport.downloadCSV. cbn [CsvExport.blob].
  rewrite csvContent_cons.
  set (body := JS.join JS.LF (map CsvExport.dataRow (r :: data))) in *.
  assert (Hrows : Papa.parse_rows
                    (Papa.stripBom
                       (JS.BOM ++ JS.join "," CsvExport.headers ++ JS.LF ++ body))
                  = CsvExport.headers
                      :: Papa.scan Papa.FieldStart "" "" [] body).
  { reflexivity. }
  unfold Papa.parse. rewrite Hrows. subst body.
  rewrite (scan_dataRows r data Hall), map_map. reflexivity.
Qed.

Lemma exportedRow_get (r : EmployeeData) :
  Papa.get (exportedRow r) "会社名" = Some (company_name r)
  /\ Papa.get (exportedRow r) "氏名" = Some (name r)
  /\ Papa.get (exportedRow r) "メールアドレス" = Some (email r)
  /\ Papa.get (exportedRow r) "部署" = Some (department r)
  /\ Papa.get (exportedRow r) "役職" = Some (position r).
Proof. repeat split. Qed.

Lemma toRecord_exportedRow (r : EmployeeData) :
  CsvImport.toRecord (exportedRow r) = r.
Proof. destruct r. reflexivity. Qed.

(** An exported row of a plain record has no error, at any row number. *)
Lemma rowErrors_exportedRow (rowNum : nat) (r : EmployeeData) :
  plainRecord r = true ->
  CsvImport.rowErrors rowNum (exportedRow r) = [].
Proof.
  intros Hp. destruct (plainRecord_fields r Hp) as [Hf He].
  unfold exportedFields in Hf.
  inversion Hf as [|? ? [_ H1] Hf1]; subst.
  inversion Hf1 as [|? ? [_ H2] Hf2]; subst.
  inversion Hf2 as [|? ? [_ H3] Hf3]; subst.
  inversion Hf3 as [|? ? [_ H4] Hf4]; subst.
  inversion Hf4 as [|? ? [_ H5] _]; subst.
  destruct (exportedRow_get r) as (Gc & Gn & Ge & Gd & Gp).
  unfold CsvImport.rowErrors, CsvImport.requiredErrors, CsvImport.emailErrors.
  cbn [flat_map CsvImport.REQUIRED_HEADERS fst].
  rewrite Gc, Gn, Ge, Gd, Gp. cbn [CsvImport.blank].
  rewrite H1, H2, H3, H4, H5, He. cbn [negb andb app].
  now rewrite andb_false_r.
Qed.

Lemma filterRows_exported (data : list EmployeeData) :
  forall i : nat,
    forallb plainRecord data = true ->
    CsvImport.filterRows i (map exportedRow data)
    = ([], map exportedRow data).
Proof.
  induction data as [|r data IH]; intros i Hall; [reflexivity|].
  cbn [forallb] in Hall. apply andb_true_iff in Hall.
  destruct Hall as [Hr Hrest].
  cbn [map CsvImport.filterRows].
  now rewrite (rowErrors_exportedRow _ r Hr), (IH (S i) Hrest).
Qed.

(** C3, as amended. For a list of records that is not empty, whose fields
    hold no double quote and are not blank after trimming, and whose
    e-mail addresses are well formed, the file written by [downloadCSV]
    is valid for [validateCSVData] under the reference parser, without
    errors, and its data are the records, field for field and in order. *)
Theorem export_then_import_round_trip :
  forall (data : list EmployeeData) (filename : string) (file : File),
    data <> [] ->
    forallb plainRecord data = true ->
    file_bytes file = CsvExport.blob (CsvExport.downloadCSV data filename) ->
    CsvImport.validateCSVData Papa.parseFile file
    = CsvImport.mkResult true [] (Some data).
Proof.
  intros data filename file Hne Hall Hbytes.
  destruct data as [|r data]; [contradiction|].
  unfold CsvImport.validateCSVData, Papa.parseFile.
  rewrite Hbytes, (parse_exported r data filename Hall).
  unfold CsvImport.complete. cbn [Papa.data Papa.meta_fields].
  rewrite (filterRows_exported (r :: data) 0 Hall).
  change (CsvImport.headerErrors CsvExport.headers) with (@nil string).
  cbn [app]. rewrite !map_map.
  rewrite (map_ext _ (fun x => x) toRecord_exportedRow), map_id.
  reflexivity.
Qed.

(** C3 at two sample records. *)
Lemma export_then_import_round_trip_witness :
  CsvImport.validateCSVData Papa.parseFile
    (mkFile "employees.csv" 135
       (CsvExport.blob
          (CsvExport.downloadCSV [Sample.taro; Sample.sabu] "employees.csv")))
  = CsvImport.mkResult true [] (Some [Sample.taro; Sample.sabu]).
Proof.
  apply (export_then_import_round_trip [Sample.taro; Sample.sabu]
           "employees.csv").
  - discriminate.
  - vm_compute. reflexivity.
  - reflexivity.
Defined.

(** C3, as stated, fails.  Both records have five fields that are not
    empty and a well-formed e-mail address.  The first has a blank as its
    name: read back, the name is reported as missing.  The second has a
    quote, a comma and a quote in its name: read back, the columns shift
    and the address is reported as malformed.  Neither result is valid. *)
Lemma export_then_import_loses_record :
  wellFormedRecord Sample.blankName = true
  /\ CsvImport.validateCSVData Papa.parseFile
       (mkFile "employees.csv" 93
          (CsvExport.blob
             (CsvExport.downloadCSV [Sample.blankName] "employees.csv")))
     = CsvImport.mkResult false ["2行目: 氏名は必須です"] (Some [])
  /\ wellFormedRecord Sample.quotedName = true
  /\ CsvImport.validateCSVData Papa.parseFile
       (mkFile "employees.csv" 97
          (CsvExport.blob
             (CsvExport.downloadCSV [Sample.quotedName] "employees.csv")))
     = CsvImport.mkResult false ["2行目: メールアドレスの形式が不正です"] (Some []).
Proof. vm_compute. repeat split. Qed.

(** The export of the list view under a search term differs from the
    export of the full list. *)
Lemma handleExportCSV_not_full_list :
  let employees :=
    [mkEmployee "1" Sample.taro "t"; mkEmployee "2" Sample.sabu "t"] in
  CsvExport.blob
    (EmployeeList.handleExportCSV JS.toLowerCaseAscii employees "SABU"
       "2025/1/1")
  = CsvExport.blob (CsvExport.downloadCSV [Sample.sabu] "x.csv")
  /\ String.eqb
       (CsvExport.blob
          (EmployeeList.handleExportCSV JS.toLowerCaseAscii employees "SABU"
             "2025/1/1"))
       (CsvExport.blob
          (CsvExport.downloadCSV (map fields employees) "x.csv"))
     = false.
Proof. vm_compute. split; reflexivity. Qed.

(* ================================================================= *)
(** ** The e-mail pattern *)

Lemma append_eq_nil (s t : string) : s ++ t = "" -> s = "" /\ t = "".
Proof. destruct s; simpl; [now split | discriminate]. Qed.

Lemma nullable_iff (r : Regex.re) :
  Regex.nullable r = true <-> Matches r "".
Proof.
  induction r as [| | p | r1 IH1 r2 IH2 | r1 IH1 r2 IH2 | r IH];
    cbn [Regex.nullable].
  - split; [discriminate | intros M; inversion M].
  - split; [intros _; constructor | reflexivity].
  - split; [discriminate | intros M; inversion M].
  - rewrite andb_true_iff, IH1, IH2. split.
    + intros [M1 M2]. exact (MatchCat _ _ "" "" M1 M2).
    + intros M. inversion M as [| |? ? s1 s2 M1 M2| | | |]; subst.
      match goal with
      | E : s1 ++ s2 = "" |- _ =>
          apply append_eq_nil in E; destruct E as [-> ->]
      end.
      now split.
  - rewrite orb_true_iff, IH1, IH2. split.
    + intros [M | M]; [now apply MatchAltL | now apply MatchAltR].
    + intros M. inversion M; subst; [now left | now right].
  - split; [intros _; constructor | reflexivity].
Qed.

(** A non-empty match of [r*] starts with a non-empty match of [r]. *)
Lemma Matches_star_cons (r : Regex.re) (c : ascii) (s : string) :
  Matches (Regex.Star r) (String c s) ->
  exists s1 s2 : string,
    s = s1 ++ s2 /\ Matches r (String c s1) /\ Matches (Regex.Star r) s2.
Proof.
  intros M. remember (Regex.Star r) as r' eqn:Er.
  remember (String c s) as t eqn:Et.
  revert c s Et.
  induction M as [| | | | | r0 | r0 s1 s2 M1 _ M2 IH2];
    intros c' s' Et; try discriminate Er; try discriminate Et.
  injection Er as ->.
  destruct s1 as [|c1 s1].
  - simpl in Et. exact (IH2 eq_refl c' s' Et).
  - simpl in Et. injection Et as -> <-. now exists s1, s2.
Qed.

Lemma deriv_iff (r : Regex.re) :
  forall (c : ascii) (s : string),
    Matches (Regex.deriv c r) s <-> Matches r (String c s).
Proof.
  induction r as [| | p | r1 IH1 r2 IH2 | r1 IH1 r2 IH2 | r IH];
    intros c s; cbn [Regex.deriv].
  - split; intros M; inversion M.
  - split; intros M; inversion M.
  - destruct (p c) eqn:Hp; split; intros M.
    + inversion M; subst. now constructor.
    + inversion M; subst. constructor.
    + inversion M.
    + inversion M; subst. congruence.
  - assert (Hcat : Matches (Regex.Cat (Regex.deriv c r1) r2) s ->
                   Matches (Regex.Cat r1 r2) (String c s)).
    { intros M. inversion M as [| |? ? s1 s2 M1 M2| | | |]; subst.
      apply IH1 in M1. exact (MatchCat _ _ (String c s1) s2 M1 M2). }
    assert (Hinv : Matches (Regex.Cat r1 r2) (String c s) ->
                   Matches (Regex.Cat (Regex.deriv c r1) r2) s
                   \/ (Matches r1 "" /\ Matches r2 (String c s))).
    { intros M. inversion M as [| |? ? s1 s2 M1 M2| | | |]; subst.
      match goal with E : s1 ++ s2 = String c s |- _ => rename E into Es end.
      destruct s1 as [|c1 s1].
      - right. simpl in Es. subst s2. now split.
      - left. simpl in Es. injection Es as -> <-.
        apply IH1 in M1. now constructor. }
    destruct (Regex.nullable r1) eqn:Hn.
    + split.
      * intros M. inversion M; subst; [now apply Hcat|].
        apply nullable_iff in Hn.
        match goal with
        | M2 : Matches (Regex.deriv c r2) s |- _ => apply IH2 in M2;
            exact (MatchCat _ _ "" (String c s) Hn M2)
        end.
      * intros M. destruct (Hinv M) as [M' | [_ M2]].
        -- now apply MatchAltL.
        -- apply MatchAltR. now apply IH2.
    + split; [exact Hcat|].
      intros M. destruct (Hinv M) as [M' | [M1 _]]; [exact M'|].
      apply nullable_iff in M1. congruence.
  - split; intros M; inversion M; subst.
    + apply MatchAltL. now apply IH1.
    + apply MatchAltR. now apply IH2.
    + apply MatchAltL. now apply IH1.
    + apply MatchAltR. now apply IH2.
  - split.
    + intros M. inversion M as [| |? ? s1 s2 M1 M2| | | |]; subst.
      apply IH in M1. exact (MatchStarCons r (String c s1) s2 M1 M2).
    + intros M. apply Matches_star_cons in M.
      destruct M as (s1 & s2 & -> & M1 & M2).
      apply IH in M1. now constructor.
Qed.

(** The test by derivatives decides the strings of the expression. *)
Lemma test_iff (s : string) :
  forall r : Regex.re, Regex.test r s = true <-> Matches r s.
Proof.
  induction s as [|c s IH]; intros r; cbn [Regex.test].
  - apply nullable_iff.
  - rewrite IH. apply deriv_iff.
Qed.

Lemma Matches_star_class (p : ascii -> bool) (s : string) :
  Matches (Regex.Star (Regex.Class p)) s <-> allChars p s = true.
Proof.
  induction s as [|c s IH].
  - split; [reflexivity | intros _; constructor].
  - cbn [allChars]. rewrite andb_true_iff, <- IH. split.
    + intros M. apply Matches_star_cons in M.
      destruct M as (s1 & s2 & -> & M1 & M2).
      inversion M1; subst. now split.
    + intros [Hp M].
      exact (MatchStarCons _ (String c "") s (MatchClass p c Hp) M).
Qed.

Lemma Matches_class_cat (p : ascii -> bool) (r : Regex.re) (s : string) :
  Matches (Regex.Cat (Regex.Class p) r) s
  <-> exists (c : ascii) (s' : string),
        s = String c s' /\ p c = true /\ Matches r s'.
Proof.
  split.
  - intros M. inversion M as [| |? ? s1 s2 M1 M2| | | |]; subst.
    inversion M1; subst. simpl. now eexists _, _.
  - intros (c & s' & -> & Hp & M).
    exact (MatchCat _ _ (String c "") s' (MatchClass p c Hp) M).
Qed.

Lemma Matches_plus_class (p : ascii -> bool) (s : string) :
  Matches (Regex.Plus (Regex.Class p)) s
  <-> s <> "" /\ allChars p s = true.
Proof.
  unfold Regex.Plus. rewrite Matches_class_cat. split.
  - intros (c & s' & -> & Hp & M). apply Matches_star_class in M.
    split; [discriminate|]. cbn [allChars]. now rewrite Hp.
  - intros [Hne Hall]. destruct s as [|c s']; [contradiction|].
    cbn [allChars] in Hall. apply andb_true_iff in Hall.
    destruct Hall as [Hp Hall]. exists c, s'.
    repeat split; [exact Hp|]. now apply Matches_star_class.
Qed.

Lemma Matches_atLeast2_class (p : ascii -> bool) (s : string) :
  Matches (Regex.AtLeast2 (Regex.Class p)) s
  <-> 2 <= String.length s /\ allChars p s = true.
Proof.
  unfold Regex.AtLeast2. rewrite Matches_class_cat. split.
  - intros (c & s' & -> & Hp & M). apply Matches_class_cat in M.
    destruct M as (c' & s'' & -> & Hp' & M). apply Matches_star_class in M.
    cbn [String.length allChars]. rewrite Hp, Hp', M. split; [lia | reflexivity].
  - intros [Hlen Hall].
    destruct s as [|c [|c' s'']]; cbn [String.length] in Hlen; try lia.
    cbn [allChars] in Hall. apply andb_true_iff in Hall.
    destruct Hall as [Hp Hall]. apply andb_true_iff in Hall.
    destruct Hall as [Hp' Hall].
    exists c, (String c' s''). repeat split; [exact Hp|].
    apply Matches_class_cat. exists c', s''. repeat split; [exact Hp'|].
    now apply Matches_star_class.
Qed.

Lemma Matches_cat (r1 r2 : Regex.re) (s : string) :
  Matches (Regex.Cat r1 r2) s
  <-> exists s1 s2 : string, s = s1 ++ s2 /\ Matches r1 s1 /\ Matches r2 s2.
Proof.
  split.
  - intros M. inversion M; subst. now eexists _, _.
  - intros (s1 & s2 & -> & M1 & M2). now constructor.
Qed.

Lemma email_shape_of_match (s : string) :
  Regex.test CsvImport.EMAIL s = true -> EmailShape s.
Proof.
  rewrite test_iff. unfold CsvImport.EMAIL, EmailShape.
  change (fun c : ascii =>
            Regex.letter c || Regex.digit c || Regex.oneOf "._%+-" c)
    with localChar.
  change (fun c : ascii =>
            Regex.letter c || Regex.digit c || Regex.oneOf ".-" c)
    with domainChar.
  intros M. apply Matches_cat in M. destruct M as (l & s1 & -> & Ml & M).
  apply Matches_plus_class in Ml. destruct Ml as [Hl1 Hl2].
  apply Matches_class_cat in M. destruct M as (a & s2 & -> & Ha & M).
  apply Ascii.eqb_eq in Ha. subst a.
  apply Matches_cat in M. destruct M as (d & s3 & -> & Md & M).
  apply Matches_plus_class in Md. destruct Md as [Hd1 Hd2].
  apply Matches_class_cat in M. destruct M as (b & t & -> & Hb & M).
  apply Ascii.eqb_eq in Hb. subst b.
  apply Matches_atLeast2_class in M. destruct M as [Ht1 Ht2].
  exists l, d, t. repeat split; assumption.
Qed.

Lemma email_match_of_shape (s : string) :
  EmailShape s -> Regex.test CsvImport.EMAIL s = true.
Proof.
  rewrite test_iff. unfold CsvImport.EMAIL, EmailShape.
  change (fun c : ascii =>
            Regex.letter c || Regex.digit c || Regex.oneOf "._%+-" c)
    with localChar.
  change (fun c : ascii =>
            Regex.letter c || Regex.digit c || Regex.oneOf ".-" c)
    with domainChar.
  intros (l & d & t & -> & Hl1 & Hl2 & Hd1 & Hd2 & Ht1 & Ht2).
  apply Matches_cat. exists l, ("@" ++ d ++ "." ++ t).
  split; [reflexivity|]. split; [now apply Matches_plus_class|].
  apply Matches_class_cat. exists "@"%char, (d ++ "." ++ t).
  split; [reflexivity|]. split; [reflexivity|].
  apply Matches_cat. exists d, ("." ++ t).
  split; [reflexivity|]. split; [now apply Matches_plus_class|].
  apply Matches_class_cat. exists "."%char, t.
  split; [reflexivity|]. split; [reflexivity|].
  now apply Matches_atLeast2_class.
Qed.

(** X1. The pattern of the import accepts exactly the strings made of a
    non-empty local part over letters, digits and [._%+-], an [@], a
    non-empty domain over letters, digits, [.] and [-], a dot, and two or
    more letters; letters are the ASCII letters of either case. *)
Theorem email_pattern_accepts_exactly_shape :
  forall s : string,
    Regex.test CsvImport.EMAIL s = true <-> EmailShape s.
Proof.
  intros s. split; [apply email_shape_of_match | apply email_match_of_shape].
Qed.

(* ================================================================= *)
(** ** More on the validation *)

Lemma blank_false_filled (v : option string) :
  CsvImport.blank v = false <-> filled v.
Proof.
  unfold filled. destruct v as [s|]; cbn [CsvImport.blank]; split.
  - intros Hs. now exists s.
  - intros [s' [E Hs]]. now injection E as ->.
  - discriminate.
  - intros [s' [E _]]. discriminate E.
Qed.

Lemma requiredErrors_nil_iff (rowNum : nat) (row : Papa.Row) :
  CsvImport.requiredErrors rowNum row = [] <->
  filled (Papa.get row "会社名") /\ filled (Papa.get row "氏名")
  /\ filled (Papa.get row "メールアドレス") /\ filled (Papa.get row "部署")
  /\ filled (Papa.get row "役職").
Proof.
  unfold CsvImport.requiredErrors.
  cbn [flat_map CsvImport.REQUIRED_HEADERS fst].
  rewrite <- !blank_false_filled.
  destruct (CsvImport.blank (Papa.get row "会社名"));
    destruct (CsvImport.blank (Papa.get row "氏名"));
    destruct (CsvImport.blank (Papa.get row "メールアドレス"));
    destruct (CsvImport.blank (Papa.get row "部署"));
    destruct (CsvImport.blank (Papa.get row "役職"));
    cbn [app]; split; try discriminate; try tauto;
    intros (? & ? & ? & ? & ?); discriminate.
Qed.

Lemma trim_empty : JS.trim "" = "".
Proof. reflexivity. Qed.

Lemma rowErrors_nil_filled (rowNum : nat) (row : Papa.Row) :
  CsvImport.rowErrors rowNum row = [] ->
  filled (Papa.get row "会社名") /\ filled (Papa.get row "氏名")
  /\ filled (Papa.get row "メールアドレス") /\ filled (Papa.get row "部署")
  /\ filled (Papa.get row "役職")
  /\ exists e : string,
       Papa.get row "メールアドレス" = Some e
       /\ Regex.test CsvImport.EMAIL e = true.
Proof.
  unfold CsvImport.rowErrors. intros E.
  apply app_eq_nil in E. destruct E as [Hreq Hmail].
  apply requiredErrors_nil_iff in Hreq.
  destruct Hreq as (Hc & Hn & He & Hd & Hp).
  repeat (split; [assumption|]).
  destruct He as [e [Hget Hne]]. exists e. split; [exact Hget|].
  unfold CsvImport.emailErrors in Hmail. rewrite Hget in Hmail.
  destruct e as [|c e]; [rewrite trim_empty in Hne; discriminate Hne|].
  cbn [JS.isEmpty negb andb] in Hmail.
  destruct (Regex.test CsvImport.EMAIL (String c e));
    [reflexivity | discriminate Hmail].
Qed.

(** X2. A row has no error exactly when the cells of the five required
    columns are there and not blank and the cell of the e-mail address
    matches the pattern. *)
Theorem rowErrors_nil_iff_row_well_formed :
  forall (rowNum : nat) (row : Papa.Row),
    CsvImport.rowErrors rowNum row = [] <->
    filled (Papa.get row "会社名") /\ filled (Papa.get row "氏名")
    /\ filled (Papa.get row "メールアドレス") /\ filled (Papa.get row "部署")
    /\ filled (Papa.get row "役職")
    /\ exists e : string,
         Papa.get row "メールアドレス" = Some e
         /\ Regex.test CsvImport.EMAIL e = true.
Proof.
  intros rowNum row. split; [apply rowErrors_nil_filled|].
  intros (Hc & Hn & He & Hd & Hp & e & Hget & Hmatch).
  unfold CsvImport.rowErrors.
  rewrite (proj2 (requiredErrors_nil_iff rowNum row));
    [|repeat split; assumption].
  unfold CsvImport.emailErrors. rewrite Hget, Hmatch.
  now rewrite andb_false_r.
Qed.

Lemma filterRows_kept_In (rows : list Papa.Row) :
  forall (i : nat) (row : Papa.Row),
    In row (snd (CsvImport.filterRows i rows)) ->
    exists j : nat,
      nth_error rows j = Some row
      /\ CsvImport.rowErrors (i + j + 2) row = [].
Proof.
  induction rows as [|r rest IH]; intros i row Hin; [destruct Hin|].
  cbn [CsvImport.filterRows] in Hin.
  specialize (IH (S i) row).
  destruct (CsvImport.filterRows (S i) rest) as [es kept].
  destruct (CsvImport.rowErrors (i + 2) r) as [|e errs] eqn:Hr;
    cbn [snd] in *.
  - destruct Hin as [<- | Hin].
    + exists 0. split; [reflexivity|]. now rewrite Nat.add_0_r.
    + destruct (IH Hin) as [j [Hj Hrow]]. exists (S j).
      split; [exact Hj|]. now replace (i + S j + 2) with (S i + j + 2) by lia.
  - destruct (IH Hin) as [j [Hj Hrow]]. exists (S j).
    split; [exact Hj|]. now replace (i + S j + 2) with (S i + j + 2) by lia.
Qed.

(** X3. Every record that [validateCSVData] hands on comes from a data row
    of the parsed file and holds the cells of that row as they are, not
    trimmed; none of its five fields is blank and its e-mail address
    matches the pattern.  This holds for the data of an invalid result as
    well. *)
Theorem validateCSVData_data_well_formed :
  forall (papa_parse : File -> Papa.Outcome) (file : File)
         (records : list EmployeeData) (r : EmployeeData),
    CsvImport.data (CsvImport.validateCSVData papa_parse file)
    = Some records ->
    In r records ->
    (exists (results : Papa.Results) (row : Papa.Row),
        papa_parse file = Papa.Complete results
        /\ In row (Papa.data results)
        /\ Papa.get row "会社名" = Some (company_name r)
        /\ Papa.get row "氏名" = Some (name r)
        /\ Papa.get row "メールアドレス" = Some (email r)
        /\ Papa.get row "部署" = Some (department r)
        /\ Papa.get row "役職" = Some (position r))
    /\ JS.isEmpty (JS.trim (company_name r)) = false
    /\ JS.isEmpty (JS.trim (name r)) = false
    /\ JS.isEmpty (JS.trim (email r)) = false
    /\ JS.isEmpty (JS.trim (department r)) = false
    /\ JS.isEmpty (JS.trim (position r)) = false
    /\ Regex.test CsvImport.EMAIL (email r) = true.
Proof.
  intros papa_parse file records r Hdata Hin.
  unfold CsvImport.validateCSVData in Hdata.
  destruct (papa_parse file) as [results | msg] eqn:Hparse;
    [|discriminate Hdata].
  destruct (complete_fields results) as (_ & Hd & _).
  rewrite Hd in Hdata. injection Hdata as <-.
  apply in_map_iff in Hin. destruct Hin as (row & <- & Hrow).
  destruct (filterRows_kept_In _ _ _ Hrow) as (j & Hj & Herr).
  apply rowErrors_nil_filled in Herr.
  destruct Herr as ([c [Gc Hc]] & [n [Gn Hn]] & [e [Ge He]] & [d [Gd Hdp]]
                    & [p [Gp Hp]] & e' & Ge' & Hmatch).
  rewrite Ge in Ge'. injection Ge' as <-.
  unfold CsvImport.toRecord.
  cbn [company_name name email department position].
  rewrite Gc, Gn, Ge, Gd, Gp.
  split; [|repeat split; assumption].
  exists results, row. split; [reflexivity|].
  split; [exact (nth_error_In _ _ Hj)|]. repeat split; assumption.
Qed.

(** X3 at the file whose second row has no name: the result is not valid,
    and its data hold the first row. *)
Lemma validateCSVData_data_well_formed_witness :
  CsvImport.data (CsvImport.validateCSVData Papa.parseFile Sample.oneBadRow)
  = Some [Sample.taro]
  /\ JS.isEmpty (JS.trim (name Sample.taro)) = false
  /\ Regex.test CsvImport.EMAIL (email Sample.taro) = true.
Proof.
  assert (Hd : CsvImport.data
                 (CsvImport.validateCSVData Papa.parseFile Sample.oneBadRow)
               = Some [Sample.taro]).
  { vm_compute. reflexivity. }
  split; [exact Hd|].
  destruct (validateCSVData_data_well_formed Papa.parseFile Sample.oneBadRow
              [Sample.taro] Sample.taro Hd (or_introl eq_refl))
    as (_ & _ & Hn & _ & _ & _ & Hm).
  split; [exact Hn | exact Hm].
Defined.

Lemma filterRows_errors (rows : list Papa.Row) :
  forall i : nat,
    fst (CsvImport.filterRows i rows)
    = flat_map (fun jr => CsvImport.rowErrors (fst jr + 2) (snd jr))
               (numbered i rows).
Proof.
  induction rows as [|row rest IH]; intros i; [reflexivity|].
  cbn [CsvImport.filterRows numbered length seq combine flat_map fst snd].
  specialize (IH (S i)). unfold numbered in IH.
  destruct (CsvImport.filterRows (S i) rest) as [es kept].
  cbn [fst] in IH. rewrite <- IH.
  now destruct (CsvImport.rowErrors (i + 2) row).
Qed.

Lemma rowErrors_prefix (rowNum : nat) (row : Papa.Row) (m : string) :
  In m (CsvImport.rowErrors rowNum row) ->
  exists rest : string, m = CsvImport.showNat rowNum ++ "行目: " ++ rest.
Proof.
  unfold CsvImport.rowErrors, CsvImport.requiredErrors, CsvImport.emailErrors.
  cbn [flat_map CsvImport.REQUIRED_HEADERS fst].
  intros Hin. rewrite !in_app_iff in Hin.
  repeat match goal with
         | H : _ \/ _ |- _ => destruct H as [H | H]
         | H : In _ (if ?b then _ else _) |- _ => destruct b
         | H : In _ (match ?v with Some _ => _ | None => _ end) |- _ =>
             destruct v
         | H : In _ [_] |- _ => destruct H as [<- | []]
         | H : In _ [] |- _ => destruct H
         end;
    eexists; reflexivity.
Qed.

Lemma rowErrors_length (rowNum : nat) (row : Papa.Row) :
  length (CsvImport.rowErrors rowNum row) <= 6.
Proof.
  unfold CsvImport.rowErrors, CsvImport.requiredErrors, CsvImport.emailErrors.
  cbn [flat_map CsvImport.REQUIRED_HEADERS fst].
  rewrite !length_app.
  repeat match goal with
         | |- context [if ?b then _ else _] => destruct b
         | |- context [match ?v with Some _ => _ | None => _ end] =>
             destruct v
         end;
    cbn [length]; lia.
Qed.

Lemma numbered_In (row : Papa.Row) (rows : list Papa.Row) :
  forall k i : nat,
    nth_error rows k = Some row -> In (i + k, row) (numbered i rows).
Proof.
  unfold numbered.
  induction rows as [|r rest IH]; intros [|k] i E; try discriminate E;
    cbn [length seq combine nth_error] in *.
  - injection E as ->. left. now rewrite Nat.add_0_r.
  - right. replace (i + S k) with (S i + k) by lia. now apply IH.
Qed.

Lemma numbered_errors_length (rows : list Papa.Row) :
  forall i : nat,
    length (flat_map (fun jr => CsvImport.rowErrors (fst jr + 2) (snd jr))
                     (numbered i rows))
    <= 6 * length rows.
Proof.
  unfold numbered.
  induction rows as [|r rest IH]; intros i; [cbn; lia|].
  cbn [length seq combine flat_map fst snd]. rewrite length_app.
  specialize (IH (S i)).
  pose proof (rowErrors_length (i + 2) r). lia.
Qed.

(** X4. The validation checks every row and stops at none: its errors are
    the error on missing columns, if any, followed by the messages of all
    rows in row order.  A row has at most six messages, and each begins
    with the number of its line in the file, the position among the data
    rows plus two. *)
Theorem validateCSVData_reports_every_row :
  forall (papa_parse : File -> Papa.Outcome) (file : File)
         (results : Papa.Results),
    papa_parse file = Papa.Complete results ->
    CsvImport.errors (CsvImport.validateCSVData papa_parse file)
    = (CsvImport.headerErrors (Papa.meta_fields results)
         ++ allRowErrors (Papa.data results))%list
    /\ (forall (j : nat) (row : Papa.Row) (m : string),
           nth_error (Papa.data results) j = Some row ->
           In m (CsvImport.rowErrors (j + 2) row) ->
           In m (CsvImport.errors (CsvImport.validateCSVData papa_parse file))
           /\ exists rest : string,
                m = CsvImport.showNat (j + 2) ++ "行目: " ++ rest)
    /\ length (CsvImport.errors (CsvImport.validateCSVData papa_parse file))
       <= 1 + 6 * length (Papa.data results).
Proof.
  intros papa_parse file results Hparse.
  unfold CsvImport.validateCSVData. rewrite Hparse.
  destruct (complete_fields results) as (Herr & _ & _).
  rewrite Herr, filterRows_errors. fold (allRowErrors (Papa.data results)).
  split; [reflexivity|]. split.
  - intros j row m Hj Hm. split; [|exact (rowErrors_prefix _ _ _ Hm)].
    apply in_or_app. right. unfold allRowErrors. apply in_flat_map.
    exists (j, row). split; [|exact Hm].
    exact (numbered_In row _ j 0 Hj).
  - rewrite length_app. unfold allRowErrors.
    pose proof (numbered_errors_length (Papa.data results) 0).
    assert (length (CsvImport.headerErrors (Papa.meta_fields results)) <= 1).
    { unfold CsvImport.headerErrors.
      destruct (CsvImport.missingHeaders _); cbn; lia. }
    lia.
Qed.

(** X4 at the file whose second row has no name. *)
Lemma validateCSVData_reports_every_row_witness :
  CsvImport.errors (CsvImport.validateCSVData Papa.parseFile Sample.oneBadRow)
  = (CsvImport.headerErrors ["会社名"; "氏名"; "メールアドレス"; "部署"; "役職"]
       ++ allRowErrors
            [[("会社名", "ACME"); ("氏名", "Taro");
              ("メールアドレス", "taro@example.com"); ("部署", "Sales");
              ("役職", "Manager")];
             [("会社名", "ACME"); ("氏名", "");
              ("メールアドレス", "jiro@example.com"); ("部署", "Sales");
              ("役職", "Staff")]])%list.
Proof.
  refine (proj1 (validateCSVData_reports_every_row Papa.parseFile
                   Sample.oneBadRow
                   (Papa.mkResults
                      [[("会社名", "ACME"); ("氏名", "Taro");
                        ("メールアドレス", "taro@example.com");
                        ("部署", "Sales"); ("役職", "Manager")];
                       [("会社名", "ACME"); ("氏名", "");
                        ("メールアドレス", "jiro@example.com");
                        ("部署", "Sales"); ("役職", "Staff")]]
                      ["会社名"; "氏名"; "メールアドレス"; "部署"; "役職"])
                   _)).
  vm_compute. reflexivity.
Defined.

Lemma validateCSVData_rejects_without_valid_rows_helper
      (papa_parse : File -> Papa.Outcome) (file : File)
      (results : Papa.Results) :
  papa_parse file = Papa.Complete results ->
  (forall j row, nth_error (Papa.data results) j = Some row ->
                 CsvImport.rowErrors (j + 2) row <> []) ->
  CsvImport.valid (CsvImport.validateCSVData papa_parse file) = false
  /\ CsvImport.data (CsvImport.validateCSVData papa_parse file) = Some [].
Proof.
  intros Hparse Hnone. unfold CsvImport.validateCSVData. rewrite Hparse.
  destruct (complete_fields results) as (_ & Hdata & Hvalid).
  destruct (filterRows_spec (Papa.data results) 0) as (_ & _ & Hkept).
  rewrite (Hkept Hnone) in Hdata, Hvalid. cbn [map length] in *.
  rewrite Nat.ltb_irrefl, andb_false_r in Hvalid. now split.
Qed.

(** X5. When a required column is missing from the header, and so from
    every row object, the result is not valid and holds no record, and the
    first error names the missing columns. *)
Theorem validateCSVData_missing_column :
  forall (papa_parse : File -> Papa.Outcome) (file : File)
         (results : Papa.Results) (header : string),
    papa_parse file = Papa.Complete results ->
    In header (map fst CsvImport.REQUIRED_HEADERS) ->
    ~ In header (Papa.meta_fields results) ->
    (forall row, In row (Papa.data results) -> Papa.get row header = None) ->
    CsvImport.valid (CsvImport.validateCSVData papa_parse file) = false
    /\ CsvImport.data (CsvImport.validateCSVData papa_parse file) = Some []
    /\ In header (CsvImport.missingHeaders (Papa.meta_fields results))
    /\ exists rest : list string,
         CsvImport.errors (CsvImport.validateCSVData papa_parse file)
         = ("必須列が不足しています: "
              ++ JS.join ", "
                   (CsvImport.missingHeaders (Papa.meta_fields results)))
             :: rest.
Proof.
  intros papa_parse file results header Hparse Hreq Hmiss Hrows.
  assert (Hin : In header (CsvImport.missingHeaders (Papa.meta_fields results))).
  { unfold CsvImport.missingHeaders. apply filter_In. split; [exact Hreq|].
    apply negb_true_iff.
    destruct (existsb (String.eqb header) (Papa.meta_fields results)) eqn:E;
      [|reflexivity].
    apply existsb_exists in E. destruct E as [x [Hx Ex]].
    apply String.eqb_eq in Ex. subst x. contradiction. }
  assert (Hnone : forall j row, nth_error (Papa.data results) j = Some row ->
                                CsvImport.rowErrors (j + 2) row <> []).
  { intros j row Hj E. apply rowErrors_nil_filled in E.
    specialize (Hrows row (nth_error_In _ _ Hj)).
    destruct E as (Hc & Hn & He & Hd & Hp & _).
    cbn [map fst CsvImport.REQUIRED_HEADERS] in Hreq.
    destruct Hreq as [<- | [<- | [<- | [<- | [<- | []]]]]];
      match goal with
      | F : filled (Papa.get row ?h), G : Papa.get row ?h = None |- _ =>
          destruct F as [v [Ev _]]; rewrite G in Ev; discriminate Ev
      end. }
  destruct (validateCSVData_rejects_without_valid_rows_helper
              papa_parse file results Hparse Hnone) as (Hv & Hd).
  split; [exact Hv|]. split; [exact Hd|]. split; [exact Hin|].
  unfold CsvImport.validateCSVData. rewrite Hparse.
  destruct (complete_fields results) as (Herr & _ & _). rewrite Herr.
  unfold CsvImport.headerErrors.
  destruct (CsvImport.missingHeaders (Papa.meta_fields results)) as [|h0 hs];
    [destruct Hin|].
  eexists. reflexivity.
Qed.

(** X5 at a file without the column 部署. *)
Lemma validateCSVData_missing_column_witness :
  CsvImport.valid
    (CsvImport.validateCSVData Papa.parseFile MoreSamples.noDepartment)
  = false
  /\ CsvImport.data
       (CsvImport.validateCSVData Papa.parseFile MoreSamples.noDepartment)
     = Some []
  /\ In "部署" (CsvImport.missingHeaders ["会社名"; "氏名"; "メールアドレス"; "役職"]).
Proof.
  destruct (validateCSVData_missing_column Papa.parseFile
              MoreSamples.noDepartment
              (Papa.mkResults
                 [[("会社名", "ACME"); ("氏名", "Taro");
                   ("メールアドレス", "taro@example.com"); ("役職", "Manager")]]
                 ["会社名"; "氏名"; "メールアドレス"; "役職"])
              "部署")
    as (Hv & Hd & Hin & _).
  - vm_compute. reflexivity.
  - vm_compute. tauto.
  - vm_compute. intros [E | [E | [E | [E | []]]]]; discriminate E.
  - intros row [<- | []]. vm_compute. reflexivity.
  - split; [exact Hv|]. split; [exact Hd | exact Hin].
Defined.

(* ================================================================= *)
(** ** More on processing a file *)

Section ProcessFileMore.
Import Database CSVImportModal.
Variable toLowerCase : string -> string.
Variable papa_parse : File -> Papa.Outcome.
Context {B : Type} `{Backend B}.

Lemma validateCSVData_valid_has_data (file : File) :
  CsvImport.valid (CsvImport.validateCSVData papa_parse file) = true ->
  exists records : list EmployeeData,
    CsvImport.data (CsvImport.validateCSVData papa_parse file) = Some records.
Proof.
  unfold CsvImport.validateCSVData.
  destruct (papa_parse file) as [results | msg]; [|discriminate].
  intros _. destruct (complete_fields results) as (_ & Hd & _).
  eexists. exact Hd.
Qed.

(** The three ways [processFile] ends, by the size and the validation. *)
Lemma processFile_cases (file : File) (m : ModalState) (w : World B) :
  ((5 * 1024 * 1024 < size file)%N
   /\ processFile toLowerCase papa_parse file (m, w)
      = (Eff.Ret tt,
         (mkModal false ["ファイルサイズは5MB以下にしてください"] 0
            (onSuccessCalls m), w)))
  \/ ((size file <= 5 * 1024 * 1024)%N
      /\ CsvImport.valid (CsvImport.validateCSVData papa_parse file) = false
      /\ processFile toLowerCase papa_parse file (m, w)
         = (Eff.Ret tt,
            (mkModal false
               (CsvImport.errors (CsvImport.validateCSVData papa_parse file))
               0 (onSuccessCalls m), w)))
  \/ ((size file <= 5 * 1024 * 1024)%N
      /\ exists (records : list EmployeeData) (st : Loop),
           CsvImport.validateCSVData papa_parse file
           = CsvImport.mkResult true [] (Some records)
           /\ importLoop toLowerCase records w
              = (Eff.Ret st, snd (createAll (firstRows [] records) w))
           /\ length (importErrors st) + imported st = length records
           /\ processFile toLowerCase papa_parse file (m, w)
              = (Eff.Ret tt,
                 (mkModal false (importErrors st) (imported st)
                    (if 0 <? imported st then S (onSuccessCalls m)
                     else onSuccessCalls m),
                  snd (createAll (firstRows [] records) w)))).
Proof.
  destruct (N.ltb_spec MAX_SIZE (size file)) as [Hbig | Hsmall].
  - left. split; [exact Hbig|]. apply processFile_too_large.
    now apply N.ltb_lt.
  - right.
    destruct (CsvImport.valid (CsvImport.validateCSVData papa_parse file))
      eqn:Hvalid.
    + right. split; [exact Hsmall|].
      destruct (validateCSVData_valid_has_data file Hvalid) as [records Hd].
      destruct (importLoop_runs toLowerCase records w)
        as [st (Hrun & _ & Hlen & _)].
      exists records, st. split; [|split; [exact Hrun | split; [exact Hlen|]]].
      * assert (He : CsvImport.errors
                       (CsvImport.validateCSVData papa_parse file) = []).
        { unfold CsvImport.validateCSVData in *.
          destruct (papa_parse file) as [results | msg];
            [|discriminate Hvalid].
          exact (proj1 (complete_valid results Hvalid)). }
        destruct (CsvImport.validateCSVData papa_parse file) as [v es d].
        cbn in *. now subst.
      * apply processFile_valid with (records := records); try assumption.
        now apply N.ltb_ge.
    + left. split; [exact Hsmall|]. split; [reflexivity|].
      apply processFile_invalid; [now apply N.ltb_ge | exact Hvalid].
Qed.

(** X6. Whatever the file, the parser and the backend do, [processFile]
    returns, and it leaves [isProcessing] false; [onSuccess] is called
    once when the success count is positive and not otherwise; the success
    count and the number of errors shown do not depend on what the modal
    showed before. *)
Theorem processFile_always_settles :
  forall (file : File) (m : ModalState) (w : World B),
    exists (ms : ModalState) (w' : World B),
      processFile toLowerCase papa_parse file (m, w) = (Eff.Ret tt, (ms, w'))
      /\ isProcessing ms = false
      /\ onSuccessCalls ms
         = onSuccessCalls m + (if 0 <? successCount ms then 1 else 0)
      /\ (successCount ms = 0 -> createCalls (calls w') = createCalls (calls w)
                                 \/ errors ms <> [])
      /\ forall m' : ModalState,
           onSuccessCalls m' = onSuccessCalls m ->
           processFile toLowerCase papa_parse file (m', w)
           = (Eff.Ret tt, (ms, w')).
Proof.
  intros file m w.
  destruct (processFile_cases file m w)
    as [[Hbig Hrun] | [(Hsmall & Hinv & Hrun) | (Hsmall & records & st & Hres
                                                 & Hloop & Hlen & Hrun)]].
  - eexists _, _. split; [exact Hrun|]. cbn [isProcessing onSuccessCalls
      successCount Nat.ltb Nat.leb]. repeat split; try lia.
    + intros _. now left.
    + intros m' Hk. rewrite <- Hk. apply processFile_too_large.
      now apply N.ltb_lt.
  - eexists _, _. split; [exact Hrun|]. cbn [isProcessing onSuccessCalls
      successCount Nat.ltb Nat.leb]. repeat split; try lia.
    + intros _. now left.
    + intros m' Hk. rewrite <- Hk. apply processFile_invalid;
        [now apply N.ltb_ge | exact Hinv].
  - eexists _, _. split; [exact Hrun|]. cbn [isProcessing onSuccessCalls
      successCount errors]. repeat split.
    + destruct (0 <? imported st); lia.
    + intros Hzero. rewrite Hzero in Hlen.
      destruct records as [|r records].
      * left. cbn. reflexivity.
      * right. intros E. rewrite E in Hlen. cbn in Hlen. lia.
    + intros m' Hk. rewrite <- Hk.
      apply processFile_valid with (records := records).
      * now apply N.ltb_ge.
      * now rewrite Hres.
      * now rewrite Hres.
      * exact Hloop.
Qed.

(** X7. When the parser reports an error for a file within the size
    limit, the modal shows the message on the failed parse with the
    parser's text and nothing else happens: no record is imported and the
    world is unchanged. *)
Theorem processFile_parse_error :
  forall (file : File) (message : string) (m : ModalState) (w : World B),
    (size file <= 5 * 1024 * 1024)%N ->
    papa_parse file = Papa.Error message ->
    processFile toLowerCase papa_parse file (m, w)
    = (Eff.Ret tt,
       (mkModal false ["CSVファイルの解析に失敗しました: " ++ message] 0
          (onSuccessCalls m), w)).
Proof.
  intros file message m w Hsize Hparse.
  rewrite processFile_invalid.
  - unfold CsvImport.validateCSVData. now rewrite Hparse.
  - now apply N.ltb_ge.
  - unfold CsvImport.validateCSVData. now rewrite Hparse.
Qed.

End ProcessFileMore.

(** X7 at a parser that cannot read the file. *)
Lemma processFile_parse_error_witness :
  CSVImportModal.processFile JS.toLowerCaseAscii MoreSamples.unreadable
    Sample.repeatedEmail (Sample.modal, Sample.world)
  = (Eff.Ret tt,
     (CSVImportModal.mkModal false
        ["CSVファイルの解析に失敗しました: NotReadableError"] 0 0,
      Sample.world)).
Proof.
  apply (processFile_parse_error JS.toLowerCaseAscii MoreSamples.unreadable
           Sample.repeatedEmail "NotReadableError" Sample.modal Sample.world).
  - vm_compute. discriminate.
  - reflexivity.
Defined.

(* ================================================================= *)
(** ** Error messages of the import *)

Section ErrorMessages.
Import Database CSVImportModal.
Variable toLowerCase : string -> string.

(** X8. Every message of [getErrorMessage] begins with the name of the
    employee and says more than the name; a thrown value that is not an
    instance of [Error] gets the message on a system error whatever its
    own text is. *)
Theorem getErrorMessage_names_employee :
  forall (error : Thrown) (employeeName : string),
    (exists rest : string,
        getErrorMessage toLowerCase error employeeName = employeeName ++ rest
        /\ rest <> "")
    /\ (instanceofError error = false ->
        getErrorMessage toLowerCase error employeeName
        = employeeName ++ "の登録に失敗しました: システムエラーが発生しました").
Proof.
  intros error employeeName. unfold getErrorMessage, fieldName. split.
  - repeat match goal with
           | |- context [if ?b then _ else _] => destruct b
           end;
      eexists; (split; [reflexivity | discriminate]).
  - intros ->. reflexivity.
Qed.

Context {B : Type} `{Backend B}.

(** X9. A row whose address the store already holds is not reported with
    the message on a registered address: [createEmployee] throws its own
    error, whose text holds none of the words [getErrorMessage] looks for,
    so the row gets the message on a system error.  The lowercase form of
    the text is the text itself, as it has no cased letter. *)
Theorem importRecord_stored_duplicate_message :
  forall (st : Loop) (r : EmployeeData) (w : World B)
         (resp : Response string) (b' : B) (i : string),
    toLowerCase "このメールアドレスは既に登録されています"
    = "このメールアドレスは既に登録されています" ->
    mem (email r) (duplicateEmails st) = false ->
    selectIdByEmail (email r) (backend w) = (resp, b') ->
    data resp = Some i ->
    error resp = None ->
    importRecord toLowerCase st r w
    = (Eff.Ret
         (mkLoop (imported st)
            (importErrors st
               ++ [(name r ++ "の登録に失敗しました: システムエラーが発生しました")%string])%list
            (duplicateEmails st ++ [email r])%list),
       mkWorld b'
         (calls w ++ [CallCreateEmployee r; RequestSelect (email r)])%list).
Proof.
  intros st r w resp b' i Hlower Hmem Hsel Hdata Herr.
  rewrite importRecord_cases, Hmem.
  rewrite (createEmployee_present r w resp b' i Hsel Hdata Herr).
  cbn [fst snd]. unfold getErrorMessage.
  cbn [instanceofError messageOf]. unfold DUPLICATE_EMAIL. rewrite Hlower.
  reflexivity.
Qed.

End ErrorMessages.

(** X9 at the sample table, which holds the address of [Sample.sabu]. *)
Lemma importRecord_stored_duplicate_message_witness :
  CSVImportModal.importRecord JS.toLowerCaseAscii
    (CSVImportModal.mkLoop 0 [] []) Sample.sabu Sample.world
  = (Eff.Ret
       (CSVImportModal.mkLoop 0
          ["Sabuの登録に失敗しました: システムエラーが発生しました"]
          ["sabu@example.com"]),
     Database.mkWorld Sample.table
       [Database.CallCreateEmployee Sample.sabu;
        Database.RequestSelect "sabu@example.com"]).
Proof.
  apply (importRecord_stored_duplicate_message JS.toLowerCaseAscii
           (CSVImportModal.mkLoop 0 [] []) Sample.sabu Sample.world
           (Database.mkResponse (Some "id-0") None) Sample.table "id-0");
    reflexivity.
Defined.

(* ================================================================= *)
(** ** More on the data access layer *)

Section DataAccessMore.
Import Database.
Context {B : Type} `{Backend B}.

(** X10. A call of [createEmployee] sends the existence query first and
    then at most one insert, of the data it was given; it returns only
    after an insert, and when no insert is sent it throws.  An error it
    makes itself is the one on the registered address. *)
Theorem createEmployee_checks_then_inserts_once :
  forall (d : EmployeeData) (w : World B),
    ((exists e : Thrown,
         fst (createEmployee d w) = Eff.Throw e
         /\ calls (snd (createEmployee d w))
            = (calls w ++ [CallCreateEmployee d; RequestSelect (email d)])%list)
     \/ (exists t : string,
            calls (snd (createEmployee d w))
            = (calls w ++ [CallCreateEmployee d; RequestSelect (email d);
                           RequestInsert d t])%list))
    /\ (forall message : string,
           fst (createEmployee d w) = Eff.Throw (NewError message) ->
           message = "このメールアドレスは既に登録されています").
Proof.
  intros d w.
  unfold createEmployee, checkEmailExists, requestSelect, requestInsert,
    record, Eff.bind, Eff.modify, Eff.throw, Eff.ret, Eff.gets.
  cbn [backend calls].
  repeat (match goal with
          | |- context [selectIdByEmail ?a ?b] =>
              destruct (selectIdByEmail a b)
          | |- context [insertEmployee ?a ?b ?c] =>
              destruct (insertEmployee a b c)
          | |- context [match error ?r with _ => _ end] => destruct (error r)
          | |- context [match data ?r with _ => _ end] => destruct (data r)
          | |- context [if ?c then _ else _] => destruct c
          end; cbn [backend calls fst snd]);
    (split;
     [ first [ left; eexists; split;
               [reflexivity | rewrite <- ?app_assoc; reflexivity]
             | right; eexists; rewrite <- ?app_assoc; reflexivity ]
     | intros message E; first [ discriminate E
                               | injection E as <-; reflexivity ] ]).
Qed.

End DataAccessMore.

Lemma table_filter_In (e : string) (l : list Employee) :
  In e (map (fun x => email (fields x)) l) <->
  existsb (Database.hasEmail e) l = true.
Proof.
  rewrite existsb_exists, in_map_iff. unfold Database.hasEmail.
  split; intros [x [H1 H2]]; exists x.
  - split; [exact H2 | now apply String.eqb_eq].
  - split; [now apply String.eqb_eq | exact H1].
Qed.

Lemma table_filter_nil (e : string) (l : list Employee) :
  filter (Database.hasEmail e) l = [] ->
  existsb (Database.hasEmail e) l = false.
Proof.
  induction l as [|x l IH]; [reflexivity|]. simpl.
  destruct (Database.hasEmail e x); [discriminate | exact IH].
Qed.

(** What [createEmployee] does on the reference table. *)
Lemma createEmployee_table (d : EmployeeData) (t : Database.Table)
      (cs : list Database.Call) :
  let employee :=
    mkEmployee ("id-" ++ CsvImport.showNat (length (Database.rows t))) d
               (Database.clock t) in
  Database.createEmployee d (Database.mkWorld t cs)
  = if existsb (Database.hasEmail (email d)) (Database.rows t) then
      (Eff.Throw (Database.NewError Database.DUPLICATE_EMAIL),
       Database.mkWorld t
         (match filter (Database.hasEmail (email d)) (Database.rows t) with
          | [_] => cs ++ [Database.CallCreateEmployee d;
                          Database.RequestSelect (email d)]
          | _ => cs ++ [Database.CallCreateEmployee d;
                        Database.RequestSelect (email d);
                        Database.RequestInsert d (Database.clock t)]
          end)%list)
    else
      (Eff.Ret (Some employee),
       Database.mkWorld
         (Database.mkTable (Database.rows t ++ [employee])%list
                           (Database.clock t))
         (cs ++ [Database.CallCreateEmployee d;
                 Database.RequestSelect (email d);
                 Database.RequestInsert d (Database.clock t)])%list).
Proof.
  intros employee.
  unfold Database.createEmployee, Database.checkEmailExists,
    Database.requestSelect, Database.requestInsert, Database.record,
    Eff.bind, Eff.modify, Eff.throw, Eff.ret, Eff.gets.
  cbn [Database.backend Database.calls Database.selectIdByEmail
       Database.insertEmployee Database.nowISO Database.TableBackend].
  unfold Database.table_select, Database.table_insert.
  destruct (filter (Database.hasEmail (email d)) (Database.rows t))
    as [|x [|y l]] eqn:Hf.
  - pose proof (table_filter_nil _ _ Hf) as He.
    cbn. rewrite !He. cbn. now rewrite <- !app_assoc.
  - assert (He : existsb (Database.hasEmail (email d)) (Database.rows t)
                 = true).
    { apply existsb_exists. exists x.
      apply filter_In. rewrite Hf. now left. }
    cbn. rewrite ?He. cbn. now rewrite <- !app_assoc.
  - assert (He : existsb (Database.hasEmail (email d)) (Database.rows t)
                 = true).
    { apply existsb_exists. exists x.
      apply filter_In. rewrite Hf. now left. }
    cbn. rewrite !He. cbn. now rewrite <- !app_assoc.
Qed.

Lemma createEmployee_table_unique (d : EmployeeData) (t : Database.Table)
      (cs : list Database.Call) :
  NoDup (emailsOf t) ->
  NoDup (emailsOf
           (Database.backend
              (snd (Database.createEmployee d (Database.mkWorld t cs))))).
Proof.
  rewrite createEmployee_table. unfold emailsOf.
  destruct (existsb (Database.hasEmail (email d)) (Database.rows t)) eqn:He;
    cbn [fst snd Database.backend]; intros Hnd; [exact Hnd|].
  assert (Hn : ~ In (email d)
                    (map (fun x => email (fields x)) (Database.rows t))).
  { intros Hin. apply table_filter_In in Hin. congruence. }
  cbn [Database.rows]. rewrite map_app. cbn [map fields].
  apply NoDup_app.
  - exact Hnd.
  - constructor; [intros [] | constructor].
  - intros a Ha [<- | []]. contradiction.
Qed.

(** X11. On the reference table [createEmployee] succeeds exactly when
    the address is new.  It then appends one employee that holds the data
    and the timestamp of the clock, and a later call with the same address
    is refused; when the address is present it throws the error on the
    registered address and leaves the table as it is.  Addresses that are
    unique stay unique. *)
Theorem createEmployee_on_table :
  forall (d : EmployeeData) (t : Database.Table) (cs : list Database.Call),
    (In (email d) (emailsOf t) ->
     fst (Database.createEmployee d (Database.mkWorld t cs))
     = Eff.Throw (Database.NewError "このメールアドレスは既に登録されています")
     /\ Database.backend
          (snd (Database.createEmployee d (Database.mkWorld t cs))) = t)
    /\ (~ In (email d) (emailsOf t) ->
        exists employee : Employee,
          fst (Database.createEmployee d (Database.mkWorld t cs))
          = Eff.Ret (Some employee)
          /\ fields employee = d
          /\ created_at employee = Database.clock t
          /\ Database.backend
               (snd (Database.createEmployee d (Database.mkWorld t cs)))
             = Database.mkTable (Database.rows t ++ [employee])%list
                                (Database.clock t)
          /\ forall d' : EmployeeData,
               email d' = email d ->
               fst (Database.createEmployee d'
                      (snd (Database.createEmployee d
                              (Database.mkWorld t cs))))
               = Eff.Throw
                   (Database.NewError "このメールアドレスは既に登録されています"))
    /\ (NoDup (emailsOf t) ->
        NoDup (emailsOf
                 (Database.backend
                    (snd (Database.createEmployee d
                            (Database.mkWorld t cs)))))).
Proof.
  intros d t cs. rewrite createEmployee_table. unfold emailsOf.
  destruct (existsb (Database.hasEmail (email d)) (Database.rows t)) eqn:He;
    cbn [fst snd Database.backend].
  - apply table_filter_In in He. split; [|split].
    + intros _. now split.
    + intros Hn. contradiction.
    + intros Hnd. exact Hnd.
  - assert (Hn : ~ In (email d)
                      (map (fun x => email (fields x)) (Database.rows t))).
    { intros Hin. apply table_filter_In in Hin. congruence. }
    split; [|split].
    + intros Hin. contradiction.
    + intros _. eexists. repeat split.
      intros d' Hd'. rewrite createEmployee_table.
      cbn [Database.rows]. rewrite existsb_app. cbn [existsb].
      unfold Database.hasEmail at 2. cbn [fields]. rewrite Hd'.
      rewrite String.eqb_refl, orb_true_r. reflexivity.
    + intros Hnd. cbn [Database.rows]. rewrite map_app. cbn [map fields].
      apply NoDup_app.
      * exact Hnd.
      * constructor; [intros [] | constructor].
      * intros a Ha [<- | []]. contradiction.
Qed.

(** X11 at the sample table and a new address, then the same address
    again. *)
Lemma createEmployee_on_table_witness :
  fst (Database.createEmployee Sample.taro Sample.world)
  = Eff.Ret
      (Some (mkEmployee "id-1" Sample.taro "2025-01-01T00:00:00.000Z"))
  /\ fst (Database.createEmployee Sample.jiro
            (snd (Database.createEmployee Sample.taro Sample.world)))
     = Eff.Throw (Database.NewError "このメールアドレスは既に登録されています").
Proof.
  destruct (proj1 (proj2 (createEmployee_on_table Sample.taro Sample.table [])))
    as (employee & Hret & _ & _ & _ & Hagain).
  - vm_compute. intros [E | []]. discriminate E.
  - split; [vm_compute; reflexivity|].
    apply (Hagain Sample.jiro). reflexivity.
Defined.

Lemma createEmployee_table_step (d : EmployeeData) (t : Database.Table)
      (cs : list Database.Call) :
  exists (t' : Database.Table) (cs' : list Database.Call)
         (added : list Employee),
    snd (Database.createEmployee d (Database.mkWorld t cs))
    = Database.mkWorld t' cs'
    /\ Database.rows t' = (Database.rows t ++ added)%list
    /\ Database.clock t' = Database.clock t
    /\ length added
       = (if succeeded (fst (Database.createEmployee d (Database.mkWorld t cs)))
          then 1 else 0)
    /\ Forall (fun e => fields e = d) added
    /\ (NoDup (emailsOf t) -> NoDup (emailsOf t')).
Proof.
  pose proof (createEmployee_table_unique d t cs) as Hnd.
  revert Hnd. rewrite createEmployee_table.
  destruct (existsb (Database.hasEmail (email d)) (Database.rows t));
    cbn [fst snd succeeded Database.backend]; intros Hnd.
  - eexists t, _, []. rewrite app_nil_r. repeat split; auto.
  - eexists _, _, [_]. repeat split; auto.
Qed.

Lemma createAll_table (records : list EmployeeData) :
  forall (t : Database.Table) (cs : list Database.Call),
    exists (t' : Database.Table) (cs' : list Database.Call)
           (added : list Employee),
      snd (createAll records (Database.mkWorld t cs))
      = Database.mkWorld t' cs'
      /\ Database.rows t' = (Database.rows t ++ added)%list
      /\ length added
         = length (filter succeeded
                     (fst (createAll records (Database.mkWorld t cs))))
      /\ Forall (fun e => In (fields e) records) added
      /\ (NoDup (emailsOf t) -> NoDup (emailsOf t')).
Proof.
  induction records as [|r rest IH]; intros t cs.
  - exists t, cs, []. cbn. rewrite app_nil_r. repeat split; auto.
  - rewrite createAll_cons. cbn [fst snd filter].
    destruct (createEmployee_table_step r t cs)
      as (t1 & cs1 & a1 & -> & Hrows1 & _ & Hlen1 & Hf1 & Hnd1).
    destruct (IH t1 cs1) as (t2 & cs2 & a2 & -> & Hrows2 & Hlen2 & Hf2 & Hnd2).
    exists t2, cs2, (a1 ++ a2)%list. split; [reflexivity|].
    split; [now rewrite Hrows2, Hrows1, app_assoc|].
    split; [|split].
    + rewrite length_app, Hlen1, Hlen2.
      destruct (succeeded
                  (fst (Database.createEmployee r (Database.mkWorld t cs))));
        cbn [length]; lia.
    + apply Forall_app. split.
      * eapply Forall_impl; [|exact Hf1]. intros e ->. now left.
      * eapply Forall_impl; [|exact Hf2]. intros e He. now right.
    + intros Hnd. auto.
Qed.

Lemma firstRows_incl (records : list EmployeeData) :
  forall (earlier : list string) (r : EmployeeData),
    In r (firstRows earlier records) -> In r records.
Proof.
  induction records as [|x rest IH]; intros earlier r Hin; [destruct Hin|].
  cbn [firstRows] in Hin.
  destruct (mem (email x) earlier).
  - right. now apply (IH _ _ Hin).
  - destruct Hin as [<- | Hin]; [now left | right; now apply (IH _ _ Hin)].
Qed.

(** X12. On the reference table an import only appends: whatever the
    file, the table after [processFile] is the table before followed by
    as many new employees as the success count says, each of them holding
    a record of the validated data, and addresses that were unique stay
    unique. *)
Theorem processFile_on_table_appends_successes :
  forall (toLowerCase : string -> string)
         (papa_parse : File -> Papa.Outcome) (file : File)
         (m : CSVImportModal.ModalState) (t : Database.Table)
         (cs : list Database.Call),
    exists (ms : CSVImportModal.ModalState) (t' : Database.Table)
           (cs' : list Database.Call) (added : list Employee),
      CSVImportModal.processFile toLowerCase papa_parse file
        (m, Database.mkWorld t cs)
      = (Eff.Ret tt, (ms, Database.mkWorld t' cs'))
      /\ Database.rows t' = (Database.rows t ++ added)%list
      /\ length added = CSVImportModal.successCount ms
      /\ (forall e, In e added ->
                    exists records,
                      CsvImport.data
                        (CsvImport.validateCSVData papa_parse file)
                      = Some records
                      /\ In (fields e) records)
      /\ (NoDup (emailsOf t) -> NoDup (emailsOf t')).
Proof.
  intros toLowerCase papa_parse file m t cs.
  destruct (processFile_cases toLowerCase papa_parse file m
              (Database.mkWorld t cs))
    as [[_ Hrun] | [(_ & _ & Hrun) | (_ & records & st & Hres & Hloop & _
                                      & Hrun)]].
  - eexists _, t, cs, []. split; [exact Hrun|]. rewrite app_nil_r.
    repeat split; auto. intros e [].
  - eexists _, t, cs, []. split; [exact Hrun|]. rewrite app_nil_r.
    repeat split; auto. intros e [].
  - destruct (importLoop_runs toLowerCase records (Database.mkWorld t cs))
      as [st' (Hrun' & Hcount & _ & _)].
    rewrite Hloop in Hrun'. injection Hrun' as <-.
    destruct (createAll_table (firstRows [] records) t cs)
      as (t' & cs' & added & Hw & Hrows & Hlen & Hf & Hnd).
    rewrite Hw in Hrun.
    eexists _, t', cs', added. split; [exact Hrun|].
    split; [exact Hrows|]. cbn [CSVImportModal.successCount].
    split; [now rewrite Hcount|]. split; [|exact Hnd].
    intros e He. exists records. split; [now rewrite Hres|].
    rewrite Forall_forall in Hf. exact (firstRows_incl _ _ _ (Hf e He)).
Qed.

(* ================================================================= *)
(** ** Schema initialisation and the list query *)

Section AdminLayer.
Import Database DatabaseAdmin.
Context {B : Type} `{Admin B}.

(** X13. [initializeDatabase] calls the procedure that creates the schema
    exactly when the probe of the table fails with the code [PGRST204];
    it then throws the error of the procedure, if there is one.  A probe
    that succeeds or fails with any other code makes it return after the
    probe alone: such an error is ignored. *)
Theorem initializeDatabase_creates_only_on_PGRST204 :
  forall (s : Session B) (probed : option PostgrestError) (b1 : B),
    probeTable (server s) = (probed, b1) ->
    ((exists e, probed = Some e /\ code e = "PGRST204") ->
     forall (created : option PostgrestError) (b2 : B),
       rpcInitializeDatabase b1 = (created, b2) ->
       initializeDatabase s
       = (match created with
          | Some e' => Eff.Throw (Rethrown e')
          | None => Eff.Ret tt
          end,
          mkSession b2
            (requests s ++ [ProbeTable; RpcInitializeDatabase])%list))
    /\ ((forall e, probed = Some e -> code e <> "PGRST204") ->
        initializeDatabase s
        = (Eff.Ret tt, mkSession b1 (requests s ++ [ProbeTable])%list)).
Proof.
  intros s probed b1 Hprobe.
  unfold initializeDatabase, request, Eff.bind, Eff.ret, Eff.throw.
  rewrite Hprobe. cbn [server requests]. split.
  - intros [e [-> Hcode]] created b2 Hrpc.
    rewrite Hcode, String.eqb_refl. cbn [server requests].
    rewrite Hrpc. cbn [server requests]. rewrite <- app_assoc.
    now destruct created.
  - intros Hother. destruct probed as [e|]; [|reflexivity].
    specialize (Hother e eq_refl). apply String.eqb_neq in Hother.
    now rewrite Hother.
Qed.

(** [getEmployees] sends the list query once; it throws the error of the
    response when there is one and returns the data otherwise, which may
    be null. *)
Lemma getEmployees_cases (s : Session B) (r : Response (list Employee))
      (b1 : B) :
  selectAllNewestFirst (server s) = (r, b1) ->
  getEmployees s
  = (match error r with
     | Some e => Eff.Throw (Rethrown e)
     | None => Eff.Ret (data r)
     end, mkSession b1 (requests s ++ [SelectAll])%list).
Proof.
  intros Hsel. unfold getEmployees, request, Eff.bind, Eff.ret, Eff.throw.
  rewrite Hsel. cbn [server requests]. now destruct (error r).
Qed.

End AdminLayer.

(** X13 at a server without the table whose procedure works, and at one
    whose procedure fails. *)
Lemma initializeDatabase_creates_only_on_PGRST204_witness :
  DatabaseAdmin.initializeDatabase
    (DatabaseAdmin.mkSession (ReferenceAdmin.mkServer false true []) [])
  = (Eff.Ret tt,
     DatabaseAdmin.mkSession (ReferenceAdmin.mkServer true true [])
       [DatabaseAdmin.ProbeTable; DatabaseAdmin.RpcInitializeDatabase])
  /\ DatabaseAdmin.initializeDatabase
       (DatabaseAdmin.mkSession (ReferenceAdmin.mkServer false false []) [])
     = (Eff.Throw (Database.Rethrown ReferenceAdmin.procedureFailed),
        DatabaseAdmin.mkSession (ReferenceAdmin.mkServer false false [])
          [DatabaseAdmin.ProbeTable; DatabaseAdmin.RpcInitializeDatabase]).
Proof.
  split.
  - destruct (initializeDatabase_creates_only_on_PGRST204
                (DatabaseAdmin.mkSession
                   (ReferenceAdmin.mkServer false true []) [])
                (Some ReferenceAdmin.missingTable)
                (ReferenceAdmin.mkServer false true []))
      as [Hcreate _]; [reflexivity|].
    apply (Hcreate (ex_intro _ ReferenceAdmin.missingTable
                      (conj eq_refl eq_refl))
                   None (ReferenceAdmin.mkServer true true [])).
    reflexivity.
  - destruct (initializeDatabase_creates_only_on_PGRST204
                (DatabaseAdmin.mkSession
                   (ReferenceAdmin.mkServer false false []) [])
                (Some ReferenceAdmin.missingTable)
                (ReferenceAdmin.mkServer false false []))
      as [Hcreate _]; [reflexivity|].
    apply (Hcreate (ex_intro _ ReferenceAdmin.missingTable
                      (conj eq_refl eq_refl))
                   (Some ReferenceAdmin.procedureFailed)
                   (ReferenceAdmin.mkServer false false [])).
    reflexivity.
Defined.

(* ================================================================= *)
(** ** The list view: fetching, rendering, searching *)

Lemma Substring_trans (a b c : string) :
  Substring a b -> Substring b c -> Substring a c.
Proof.
  intros (p1 & q1 & ->) (p2 & q2 & ->).
  exists (p2 ++ p1), (q1 ++ q2). now rewrite !append_assoc.
Qed.

Lemma filter_filter_implied (A : Type) (f g : A -> bool) (l : list A) :
  (forall x, In x l -> g x = true -> f x = true) ->
  filter g (filter f l) = filter g l.
Proof.
  induction l as [|x l IH]; intros Himp; [reflexivity|].
  cbn [filter].
  assert (IH' : filter g (filter f l) = filter g l).
  { apply IH. intros y Hy. apply Himp. now right. }
  destruct (f x) eqn:Hf; cbn [filter].
  - now rewrite IH'.
  - destruct (g x) eqn:Hg; [|exact IH'].
    rewrite (Himp x (or_introl eq_refl) Hg) in Hf. discriminate Hf.
Qed.

Lemma filter_length_le' (A : Type) (f : A -> bool) (l : list A) :
  length (filter f l) <= length l.
Proof.
  induction l as [|x l IH]; [apply le_n|].
  cbn [filter]. destruct (f x); cbn [length]; lia.
Qed.

Lemma filteredEmployees_all (toLowerCase : string -> string)
      (employees : list Employee) :
  EmployeeList.filteredEmployees toLowerCase employees "" = employees.
Proof.
  unfold EmployeeList.filteredEmployees.
  induction employees as [|e l IH]; simpl; [reflexivity | now rewrite IH].
Qed.

Section ListViewMore.
Import Database DatabaseAdmin EmployeeListView.
Variable toLowerCase : string -> string.

(** X15. A search term whose lowercase form contains the lowercase form
    of another term finds no more than that term: every employee it keeps
    is kept by the other term, and searching with it among the results of
    the other term gives the same as searching the whole list. *)
Theorem filteredEmployees_narrows :
  forall (employees : list Employee) (term longer : string),
    longer <> "" ->
    Substring (toLowerCase term) (toLowerCase longer) ->
    EmployeeList.filteredEmployees toLowerCase
      (EmployeeList.filteredEmployees toLowerCase employees term) longer
    = EmployeeList.filteredEmployees toLowerCase employees longer
    /\ (forall e,
           In e (EmployeeList.filteredEmployees toLowerCase employees longer)
           -> In e (EmployeeList.filteredEmployees toLowerCase employees term))
    /\ length (EmployeeList.filteredEmployees toLowerCase employees longer)
       <= length (EmployeeList.filteredEmployees toLowerCase employees term).
Proof.
  intros employees term longer Hne Hsub.
  assert (Himp : forall e,
             EmployeeList.matchesSearch toLowerCase longer e = true ->
             EmployeeList.matchesSearch toLowerCase term e = true).
  { intros e Hm. apply matchesSearch_iff in Hm. apply matchesSearch_iff.
    destruct Hm as [E | Hm]; [contradiction|]. right.
    destruct Hm as [Hs | [Hs | [Hs | [Hs | Hs]]]];
      pose proof (Substring_trans _ _ _ Hsub Hs); tauto. }
  assert (Hcomp : EmployeeList.filteredEmployees toLowerCase
                    (EmployeeList.filteredEmployees toLowerCase employees term)
                    longer
                  = EmployeeList.filteredEmployees toLowerCase employees longer).
  { unfold EmployeeList.filteredEmployees. apply filter_filter_implied.
    intros x _. apply Himp. }
  split; [exact Hcomp|]. split.
  - intros e He. unfold EmployeeList.filteredEmployees in *.
    apply filter_In in He. apply filter_In.
    split; [tauto|]. apply Himp. tauto.
  - rewrite <- Hcomp. unfold EmployeeList.filteredEmployees at 1.
    apply filter_length_le'.
Qed.

(** X16. With the list loaded and no error, the export button is
    disabled exactly when the table shows a message instead of rows.  The
    message that no employee is registered is shown exactly when the
    search term is empty and the list is empty; a search term that finds
    nothing gives the message on the search, also when the list is empty.
    The shorter count label is shown when the search term is empty or
    hides no employee. *)
Theorem render_list_page :
  forall s : ListState,
    loading s = false ->
    error s = None ->
    exists (label : string) (disabled : bool) (body : TableBody),
      render toLowerCase s = ListPage label disabled body
      /\ (disabled = true <-> exists message, body = EmptyRow message)
      /\ (body = EmptyRow "従業員が登録されていません。"
          <-> searchTerm s = "" /\ employees s = [])
      /\ (searchTerm s <> "" ->
          EmployeeList.filteredEmployees toLowerCase (employees s)
            (searchTerm s) = [] ->
          body = EmptyRow "検索条件に一致する従業員が見つかりません。")
      /\ (searchTerm s = ""
          \/ length (EmployeeList.filteredEmployees toLowerCase (employees s)
                       (searchTerm s)) = length (employees s) ->
          label = "全" ++ CsvImport.showNat (length (employees s)) ++ "件")
      /\ length (EmployeeList.filteredEmployees toLowerCase (employees s)
                   (searchTerm s)) <= length (employees s).
Proof.
  intros s Hload Herr. unfold render. rewrite Hload, Herr.
  eexists _, _, _. split; [reflexivity|].
  assert (Hall : EmployeeList.filteredEmployees toLowerCase (employees s) ""
                 = employees s).
  { apply (filteredEmployees_all toLowerCase). }
  split; [|split; [|split; [|split]]].
  - unfold EmployeeList.exportDisabled.
    destruct (EmployeeList.filteredEmployees toLowerCase (employees s)
                (searchTerm s)) as [|e l]; cbn.
    + split; [intros _; eexists; reflexivity | reflexivity].
    + split; [discriminate | intros [message E]; discriminate E].
  - destruct (searchTerm s) as [|c t] eqn:Ht.
    + rewrite Hall. destruct (employees s); cbn; split.
      * now split.
      * reflexivity.
      * discriminate.
      * intros [_ E]. discriminate E.
    + destruct (EmployeeList.filteredEmployees toLowerCase (employees s)
                  (String c t)); cbn; split;
        try discriminate; intros [E _]; discriminate E.
  - intros Hne Hnil. rewrite Hnil.
    destruct (searchTerm s); [contradiction | reflexivity].
  - unfold countLabel. intros [-> | ->]; [reflexivity|].
    now rewrite Nat.eqb_refl, andb_false_r.
  - unfold EmployeeList.filteredEmployees. apply filter_length_le'.
Qed.

End ListViewMore.

Section FetchEmployees.
Import Database DatabaseAdmin EmployeeListView.
Variable toLowerCase : string -> string.
Context {B : Type} `{Admin B}.

(** X14. [fetchEmployees] returns whatever the backend answers, after one
    list query, with [loading] false and the search term as it was.  When
    the query fails the list is kept as it was and the view is the error
    panel with the message on the failed fetch; when it succeeds the error
    is cleared, the list is the data, or empty for null data, and the view
    is the list page. *)
Theorem fetchEmployees_settles :
  forall (s : ListState) (session : Session B)
         (r : Response (list Employee)) (b1 : B),
    selectAllNewestFirst (server session) = (r, b1) ->
    exists s' : ListState,
      fetchEmployees (s, session)
      = (Eff.Ret tt, (s', mkSession b1 (requests session ++ [SelectAll])%list))
      /\ loading s' = false
      /\ searchTerm s' = searchTerm s
      /\ (forall e, Database.error r = Some e ->
            employees s' = employees s
            /\ render toLowerCase s'
               = ErrorPanel "従業員データの取得に失敗しました。後でもう一度お試しください。")
      /\ (Database.error r = None ->
            employees s' = match Database.data r with Some l => l | None => [] end
            /\ EmployeeListView.error s' = None
            /\ exists label disabled body,
                 render toLowerCase s' = ListPage label disabled body).
Proof.
  intros s session r b1 Hsel.
  unfold fetchEmployees, update, Eff.try_finally, Eff.try_catch, Eff.bind,
    Eff.modify, Eff.inner.
  cbn [fst snd]. rewrite (getEmployees_cases session r b1 Hsel).
  destruct (Database.error r) as [e|] eqn:He; cbn [fst snd];
    (eexists; split; [reflexivity|]);
    (split; [reflexivity|]); (split; [reflexivity|]); split.
  - intros e' _. split; reflexivity.
  - discriminate.
  - discriminate.
  - intros _. split; [reflexivity|]. split; [reflexivity|].
    eexists _, _, _. reflexivity.
Qed.

End FetchEmployees.

(** X14 at a server without the table, with a list loaded before. *)
Lemma fetchEmployees_settles_witness :
  EmployeeListView.fetchEmployees
    (EmployeeListView.mkList [mkEmployee "id-0" Sample.taro "t"] true
       "ta" None false,
     DatabaseAdmin.mkSession (ReferenceAdmin.mkServer false true []) [])
  = (Eff.Ret tt,
     (EmployeeListView.mkList [mkEmployee "id-0" Sample.taro "t"] false
        "ta" (Some EmployeeListView.FETCH_FAILED) false,
      DatabaseAdmin.mkSession (ReferenceAdmin.mkServer false true [])
        [DatabaseAdmin.SelectAll])).
Proof.
  destruct (fetchEmployees_settles JS.toLowerCaseAscii
              (EmployeeListView.mkList [mkEmployee "id-0" Sample.taro "t"]
                 true "ta" None false)
              (DatabaseAdmin.mkSession (ReferenceAdmin.mkServer false true [])
                 [])
              (Database.mkResponse None (Some ReferenceAdmin.missingTable))
              (ReferenceAdmin.mkServer false true []))
    as (s' & Hrun & _); [reflexivity|].
  rewrite Hrun. vm_compute in Hrun. injection Hrun as <-. reflexivity.
Defined.

(** X15 at the terms "sa" and "Sab". *)
Lemma filteredEmployees_narrows_witness :
  EmployeeList.filteredEmployees JS.toLowerCaseAscii
    (EmployeeList.filteredEmployees JS.toLowerCaseAscii
       [mkEmployee "1" Sample.taro "t"; mkEmployee "2" Sample.sabu "t"] "sa")
    "Sab"
  = EmployeeList.filteredEmployees JS.toLowerCaseAscii
      [mkEmployee "1" Sample.taro "t"; mkEmployee "2" Sample.sabu "t"] "Sab".
Proof.
  apply (filteredEmployees_narrows JS.toLowerCaseAscii
           [mkEmployee "1" Sample.taro "t"; mkEmployee "2" Sample.sabu "t"]
           "sa" "Sab").
  - discriminate.
  - exists "", "b". reflexivity.
Defined.

(** X16 at a loaded list of two employees and a term that finds none. *)
Lemma render_list_page_witness :
  EmployeeListView.render JS.toLowerCaseAscii
    (EmployeeListView.mkList
       [mkEmployee "1" Sample.taro "t"; mkEmployee "2" Sample.sabu "t"]
       false "zzz" None false)
  = EmployeeListView.ListPage "全2件中 0件表示" true
      (EmployeeListView.EmptyRow "検索条件に一致する従業員が見つかりません。").
Proof.
  destruct (render_list_page JS.toLowerCaseAscii
              (EmployeeListView.mkList
                 [mkEmployee "1" Sample.taro "t";
                  mkEmployee "2" Sample.sabu "t"]
                 false "zzz" None false) eq_refl eq_refl)
    as (label & disabled & body & Hrender & _).
  rewrite Hrender. vm_compute in Hrender. exact (eq_sym Hrender).
Defined.

(* ================================================================= *)
(** ** Dropping and selecting a file *)

Lemma rev_append (s t : string) : JS.rev (s ++ t) = JS.rev t ++ JS.rev s.
Proof.
  induction s as [|c s IH]; cbn [append JS.rev].
  - now rewrite append_nil_r.
  - now rewrite IH, append_assoc.
Qed.

Lemma rev_involutive (s : string) : JS.rev (JS.rev s) = s.
Proof.
  induction s as [|c s IH]; [reflexivity|].
  cbn [JS.rev]. rewrite rev_append, IH. reflexivity.
Qed.

(** [endsWith] holds exactly of the strings that end with the suffix. *)
Lemma endsWith_iff (s t : string) :
  JS.endsWith s t = true <-> exists pre, s = pre ++ t.
Proof.
  unfold JS.endsWith. rewrite startsWith_iff. split.
  - intros [post E]. exists (JS.rev post).
    rewrite <- (rev_involutive s), E, rev_append, rev_involutive.
    reflexivity.
  - intros [pre ->]. exists (JS.rev pre). apply rev_append.
Qed.

Section DropAndSelect.
Import Database CSVImportModal CSVImportModalEvents.
Variable toLowerCase : string -> string.
Variable papa_parse : File -> Papa.Outcome.
Context {B : Type} `{Backend B}.

(** X17. A dropped file whose type is not [text/csv] and whose name does
    not end in [.csv] is refused with a message: the world is unchanged,
    and so are the success count and [isProcessing] of an earlier import.
    Any other dropped file is processed, and so is every file chosen in
    the file dialog, which checks neither the type nor the name. *)
Theorem handleDrop_checks_type_or_name :
  forall (d : Dropped) (dragging : bool) (m : ModalState) (w : World B),
    ((dropped_type d <> "text/csv"
      /\ (forall pre, file_name (dropped_file d) <> pre ++ ".csv")) ->
     handleDrop toLowerCase papa_parse (Some d) (dragging, (m, w))
     = (Eff.Ret tt,
        (false,
         (mkModal (isProcessing m) ["CSVファイルのみアップロード可能です"]
            (successCount m) (onSuccessCalls m), w))))
    /\ ((dropped_type d = "text/csv"
         \/ exists pre, file_name (dropped_file d) = pre ++ ".csv") ->
        handleDrop toLowerCase papa_parse (Some d) (dragging, (m, w))
        = (fst (processFile toLowerCase papa_parse (dropped_file d) (m, w)),
           (false,
            snd (processFile toLowerCase papa_parse (dropped_file d) (m, w)))))
    /\ handleFileSelect toLowerCase papa_parse (Some (dropped_file d)) (m, w)
       = processFile toLowerCase papa_parse (dropped_file d) (m, w).
Proof.
  intros d dragging m w.
  unfold handleDrop, setIsDragging, Eff.bind, Eff.modify, Eff.inner.
  cbn [fst snd]. split; [|split].
  - intros [Htype Hname].
    apply String.eqb_neq in Htype. rewrite Htype.
    assert (Hends : JS.endsWith (file_name (dropped_file d)) ".csv" = false).
    { destruct (JS.endsWith (file_name (dropped_file d)) ".csv") eqn:E;
        [|reflexivity].
      apply endsWith_iff in E. destruct E as [pre E].
      exfalso. exact (Hname pre E). }
    rewrite Hends. reflexivity.
  - intros Hok.
    assert (Hcond : negb (dropped_type d =? "text/csv")%string
                    && negb (JS.endsWith (file_name (dropped_file d)) ".csv")
                    = false).
    { destruct Hok as [-> | Hends].
      - reflexivity.
      - apply endsWith_iff in Hends. rewrite Hends. apply andb_false_r. }
    rewrite Hcond. cbn [fst snd].
    now destruct (processFile toLowerCase papa_parse (dropped_file d) (m, w)).
  - reflexivity.
Qed.

(** A drop without a file. *)
Lemma handleDrop_no_file (dragging : bool) (m : ModalState) (w : World B) :
  handleDrop toLowerCase papa_parse None (dragging, (m, w))
  = (Eff.Ret tt,
     (false,
      (mkModal (isProcessing m) ["ファイルをアップロードしてください"]
         (successCount m) (onSuccessCalls m), w))).
Proof. reflexivity. Qed.

End DropAndSelect.

(** X17 at a picture that holds CSV text: refused when dropped. *)
Lemma handleDrop_checks_type_or_name_witness :
  CSVImportModalEvents.handleDrop JS.toLowerCaseAscii Papa.parseFile
    (Some MoreSamples.photo)
    (true, (CSVImportModal.mkModal false [] 3 1, Sample.world))
  = (Eff.Ret tt,
     (false,
      (CSVImportModal.mkModal false ["CSVファイルのみアップロード可能です"] 3 1,
       Sample.world))).
Proof.
  apply (proj1 (handleDrop_checks_type_or_name JS.toLowerCaseAscii
                  Papa.parseFile MoreSamples.photo true
                  (CSVImportModal.mkModal false [] 3 1) Sample.world)).
  split.
  - discriminate.
  - intros pre E.
    assert (F : JS.endsWith "photo.png" ".csv" = true).
    { apply endsWith_iff. now exists pre. }
    vm_compute in F. discriminate F.
Defined.

(* ================================================================= *)
(** ** The registration form *)

Section Registration.
Import Database EmployeeRegistration.
Context {B : Type} `{Backend B}.

(** [validateEmail] never throws: an error of the check becomes a
    message. *)
Lemma validateEmail_cases (e : string) (w : World B)
      (r : Response string) (b' : B) :
  selectIdByEmail e (backend w) = (r, b') ->
  validateEmail e w
  = (Eff.Ret
       (match error r with
        | Some err =>
            if negb (String.eqb (code err) "PGRST116")
            then Invalid CHECK_FAILED
            else match data r with
                 | Some _ => Invalid DUPLICATE_EMAIL
                 | None => Valid
                 end
        | None => match data r with
                  | Some _ => Invalid DUPLICATE_EMAIL
                  | None => Valid
                  end
        end),
     mkWorld b' (calls w ++ [RequestSelect e])%list).
Proof.
  intros Hsel.
  unfold validateEmail, checkEmailExists, requestSelect, record,
    Eff.try_catch, Eff.bind, Eff.modify, Eff.throw, Eff.ret.
  cbn [backend calls]. rewrite Hsel.
  destruct (error r) as [err|];
    [destruct (negb (code err =? "PGRST116")%string)|];
    destruct (data r); reflexivity.
Qed.

Lemma onSubmit_cases (d : EmployeeData) (f : FormState) (w : World B) :
  onSubmit d (f, w)
  = match validateEmail (email d) w with
    | (Eff.Ret (Invalid message), w1) =>
        (Eff.Ret tt, (mkForm None false [("email", message)] (navigated f), w1))
    | (Eff.Ret Valid, w1) =>
        match createEmployee d w1 with
        | (Eff.Ret _, w2) =>
            (Eff.Ret tt,
             (mkForm None false [] (navigated f ++ ["/employees"])%list, w2))
        | (Eff.Throw error, w2) =>
            let errorMessage :=
              if CSVImportModal.instanceofError error
              then CSVImportModal.messageOf error
              else SUBMIT_FAILED in
            (Eff.Ret tt,
             (if JS.includes errorMessage "メールアドレス"
              then mkForm None false [("email", errorMessage)] (navigated f)
              else mkForm (Some errorMessage) false [] (navigated f), w2))
        end
    | (Eff.Throw error, w1) =>
        let errorMessage :=
          if CSVImportModal.instanceofError error
          then CSVImportModal.messageOf error
          else SUBMIT_FAILED in
        (Eff.Ret tt,
         (if JS.includes errorMessage "メールアドレス"
          then mkForm None false [("email", errorMessage)] (navigated f)
          else mkForm (Some errorMessage) false [] (navigated f), w1))
    end.
Proof.
  unfold onSubmit, update, Eff.try_finally, Eff.try_catch, Eff.bind,
    Eff.modify, Eff.inner.
  cbn [fst snd].
  destruct (validateEmail (email d) w) as [[[|message] | error] w1];
    cbn [fst snd].
  - destruct (createEmployee d w1) as [[x | error] w2]; cbn [fst snd];
      [reflexivity|].
    destruct (JS.includes _ "メールアドレス"); reflexivity.
  - reflexivity.
  - destruct (JS.includes _ "メールアドレス"); reflexivity.
Qed.

(** X18. When the existence check finds the address, [onSubmit] puts the
    message on the registered address on the e-mail field and stops:
    [createEmployee] is not called, nothing is inserted, and there is no
    navigation.  When the check cannot be made, the field gets the message
    on the failed check, and again nothing is created. *)
Theorem onSubmit_stops_at_failed_check :
  forall (d : EmployeeData) (f : FormState) (w : World B)
         (r : Response string) (b' : B),
    selectIdByEmail (email d) (backend w) = (r, b') ->
    ((exists i, data r = Some i /\ error r = None) ->
     onSubmit d (f, w)
     = (Eff.Ret tt,
        (mkForm None false
           [("email", "このメールアドレスは既に登録されています")] (navigated f),
         mkWorld b' (calls w ++ [RequestSelect (email d)])%list)))
    /\ ((exists err, error r = Some err /\ code err <> "PGRST116") ->
        onSubmit d (f, w)
        = (Eff.Ret tt,
           (mkForm None false
              [("email", "メールアドレスの検証中にエラーが発生しました")]
              (navigated f),
            mkWorld b' (calls w ++ [RequestSelect (email d)])%list))).
Proof.
  intros d f w r b' Hsel.
  rewrite onSubmit_cases, (validateEmail_cases _ _ _ _ Hsel). split.
  - intros (i & -> & ->). reflexivity.
  - intros (err & -> & Hcode). apply String.eqb_neq in Hcode.
    rewrite Hcode. reflexivity.
Qed.

(** X19. [onSubmit] returns whatever the backend does, with
    [isSubmitting] false.  Either it navigates to the list, once, after
    [createEmployee] returned, with no error left on the form; or it does
    not navigate and leaves exactly one message, on the e-mail field or as
    the submit error.  An error on the registered address thrown by
    [createEmployee] after a passed check goes to the e-mail field. *)
Theorem onSubmit_navigates_or_reports :
  forall (d : EmployeeData) (f : FormState) (w : World B),
    exists (f' : FormState) (w' : World B),
      onSubmit d (f, w) = (Eff.Ret tt, (f', w'))
      /\ isSubmitting f' = false
      /\ ((navigated f' = (navigated f ++ ["/employees"])%list
           /\ submitError f' = None /\ fieldErrors f' = []
           /\ exists w1 x,
                validateEmail (email d) w = (Eff.Ret Valid, w1)
                /\ createEmployee d w1 = (Eff.Ret x, w'))
          \/ (navigated f' = navigated f
              /\ ((exists message,
                      fieldErrors f' = [("email", message)]
                      /\ submitError f' = None)
                  \/ (exists message,
                         fieldErrors f' = []
                         /\ submitError f' = Some message))))
      /\ (forall w1,
             validateEmail (email d) w = (Eff.Ret Valid, w1) ->
             fst (createEmployee d w1)
             = Eff.Throw (NewError "このメールアドレスは既に登録されています") ->
             f' = mkForm None false
                    [("email", "このメールアドレスは既に登録されています")]
                    (navigated f)).
Proof.
  intros d f w. rewrite onSubmit_cases.
  destruct (validateEmail (email d) w) as [[[|message] | error] w1] eqn:Hv.
  - destruct (createEmployee d w1) as [[x | error] w2] eqn:Hc.
    + eexists _, _. split; [reflexivity|].
      cbn [isSubmitting navigated submitError fieldErrors].
      split; [reflexivity|]. split.
      * left. repeat split. now exists w1, x.
      * intros w1' E. injection E as <-. rewrite Hc. discriminate.
    + cbv zeta.
      destruct (JS.includes
                  (if CSVImportModal.instanceofError error
                   then CSVImportModal.messageOf error else SUBMIT_FAILED)
                  "メールアドレス") eqn:Hinc;
        (eexists _, _; split; [reflexivity|]);
        cbn [isSubmitting navigated submitError fieldErrors];
        (split; [reflexivity|]); split.
      * right. split; [reflexivity|]. left. eexists. now split.
      * intros w1' E. injection E as <-. rewrite Hc. cbn [fst].
        intros E. injection E as ->. reflexivity.
      * right. split; [reflexivity|]. right. eexists. now split.
      * intros w1' E. injection E as <-. rewrite Hc. cbn [fst].
        intros E. injection E as ->. vm_compute in Hinc. discriminate Hinc.
  - eexists _, _. split; [reflexivity|].
    cbn [isSubmitting navigated submitError fieldErrors].
    split; [reflexivity|]. split.
    + right. split; [reflexivity|]. left. eexists. now split.
    + intros w1' E. discriminate E.
  - cbv zeta.
    destruct (JS.includes
                (if CSVImportModal.instanceofError error
                 then CSVImportModal.messageOf error else SUBMIT_FAILED)
                "メールアドレス");
      (eexists _, _; split; [reflexivity|]);
      cbn [isSubmitting navigated submitError fieldErrors];
      (split; [reflexivity|]); split;
      try (intros w1' E; discriminate E).
    + right. split; [reflexivity|]. left. eexists. now split.
    + right. split; [reflexivity|]. right. eexists. now split.
Qed.

End Registration.

(** X18 at the sample table and the address it holds. *)
Lemma onSubmit_stops_at_failed_check_witness :
  EmployeeRegistration.onSubmit Sample.sabu
    (EmployeeRegistration.mkForm (Some "old") false [("name", "old")] [],
     Sample.world)
  = (Eff.Ret tt,
     (EmployeeRegistration.mkForm None false
        [("email", "このメールアドレスは既に登録されています")] [],
      Database.mkWorld Sample.table
        [Database.RequestSelect "sabu@example.com"])).
Proof.
  destruct (onSubmit_stops_at_failed_check Sample.sabu
              (EmployeeRegistration.mkForm (Some "old") false
                 [("name", "old")] [])
              Sample.world (Database.mkResponse (Some "id-0") None)
              Sample.table)
    as [Hfound _]; [reflexivity|].
  apply Hfound. exists "id-0". split; reflexivity.
Defined.

Section RegistrationCalls.
Import Database EmployeeRegistration.
Context {B : Type} `{Backend B}.

Lemma createEmployee_returns_calls (d : EmployeeData) (w : World B)
      (x : option Employee) :
  fst (createEmployee d w) = Eff.Ret x ->
  exists t : string,
    calls (snd (createEmployee d w))
    = (calls w ++ [CallCreateEmployee d; RequestSelect (email d);
                   RequestInsert d t])%list.
Proof.
  unfold createEmployee, checkEmailExists, requestSelect, requestInsert,
    record, Eff.bind, Eff.modify, Eff.throw, Eff.ret, Eff.gets.
  cbn [backend calls].
  repeat (match goal with
          | |- context [selectIdByEmail ?a ?b] =>
              destruct (selectIdByEmail a b)
          | |- context [insertEmployee ?a ?b ?c] =>
              destruct (insertEmployee a b c)
          | |- context [match error ?r with _ => _ end] => destruct (error r)
          | |- context [match data ?r with _ => _ end] => destruct (data r)
          | |- context [if ?c then _ else _] => destruct c
          end; cbn [backend calls fst snd]);
    intros E; try discriminate E;
    eexists; rewrite <- ?app_assoc; reflexivity.
Qed.

(** X20. A registration that navigates to the list has asked the backend
    for the address twice, once in the form's own check and once inside
    [createEmployee], before the one insert of the submitted data; these
    are all the requests it made. *)
Theorem onSubmit_success_checks_twice :
  forall (d : EmployeeData) (f f' : FormState) (w w' : World B),
    onSubmit d (f, w) = (Eff.Ret tt, (f', w')) ->
    navigated f' <> navigated f ->
    exists t : string,
      calls w'
      = (calls w ++ [RequestSelect (email d); CallCreateEmployee d;
                     RequestSelect (email d); RequestInsert d t])%list.
Proof.
  intros d f f' w w' Hrun Hnav. rewrite onSubmit_cases in Hrun.
  destruct (selectIdByEmail (email d) (backend w)) as [r b'] eqn:Hsel.
  rewrite (validateEmail_cases _ _ _ _ Hsel) in Hrun.
  set (v := match error r with
            | Some err =>
                if negb (code err =? "PGRST116")%string
                then Invalid CHECK_FAILED
                else match data r with
                     | Some _ => Invalid DUPLICATE_EMAIL
                     | None => Valid
                     end
            | None => match data r with
                      | Some _ => Invalid DUPLICATE_EMAIL
                      | None => Valid
                      end
            end) in Hrun.
  destruct v as [|message].
  - destruct (createEmployee d
                (mkWorld b' (calls w ++ [RequestSelect (email d)])%list))
      as [[x | error] w2] eqn:Hc.
    + injection Hrun as <- <-.
      destruct (createEmployee_returns_calls d
                  (mkWorld b' (calls w ++ [RequestSelect (email d)])%list) x)
        as [t Ht]; [now rewrite Hc|].
      rewrite Hc in Ht. cbn [snd calls] in Ht.
      exists t. rewrite Ht. now rewrite <- app_assoc.
    + cbv zeta in Hrun.
      destruct (JS.includes _ "メールアドレス"); injection Hrun as <- <-;
        exfalso; apply Hnav; reflexivity.
  - injection Hrun as <- <-. exfalso. apply Hnav. reflexivity.
Qed.

End RegistrationCalls.

(** X20 at the sample table and a new address. *)
Lemma onSubmit_success_checks_twice_witness :
  exists t : string,
    Database.calls
      (snd (snd (EmployeeRegistration.onSubmit Sample.taro
                   (EmployeeRegistration.mkForm None false [] [],
                    Sample.world))))
    = [Database.RequestSelect "taro@example.com";
       Database.CallCreateEmployee Sample.taro;
       Database.RequestSelect "taro@example.com";
       Database.RequestInsert Sample.taro t].
Proof.
  destruct (EmployeeRegistration.onSubmit Sample.taro
              (EmployeeRegistration.mkForm None false [] [], Sample.world))
    as [res [f' w']] eqn:Hrun.
  assert (Hf : res = Eff.Ret tt /\ EmployeeRegistration.navigated f'
               = ["/employees"]).
  { vm_compute in Hrun. injection Hrun as <- <- _. now split. }
  destruct Hf as [-> Hnav].
  destruct (onSubmit_success_checks_twice Sample.taro
              (EmployeeRegistration.mkForm None false [] []) f'
              Sample.world w' Hrun) as [t Ht].
  - rewrite Hnav. discriminate.
  - exists t. exact Ht.
Defined.

(* ================================================================= *)
(** ** The template and the empty export *)

(** X21. The template that the modal offers for download passes the
    validation of the modal, under the reference parser: its header row
    is the one the import asks for, in that order, and its one data row
    gives the sample record. *)
Theorem downloadTemplate_is_valid :
  forall (fileName : string) (fileSize : N),
    CsvImport.validateCSVData Papa.parseFile
      (mkFile fileName fileSize
         (CsvExport.blob CSVImportModalEvents.downloadTemplate))
    = CsvImport.mkResult true []
        (Some [mkData "山田太郎" "yamada@example.com" "株式会社サンプル"
                      "営業部" "部長"])
    /\ JS.startsWith (JS.BOM ++ importHeaderLine ++ JS.LF)
         (CsvExport.blob CSVImportModalEvents.downloadTemplate)
       = true.
Proof. intros fileName fileSize. vm_compute. split; reflexivity. Qed.

Section EmptyExport.
Import Database CSVImportModal.
Variable toLowerCase : string -> string.
Context {B : Type} `{Backend B}.

(** X22. The export of an empty list is the header row alone; the import
    rejects such a file without any message: the result is not valid,
    its list of errors is empty, and [processFile] ends with no error
    shown, nothing imported and the world unchanged. *)
Theorem export_of_empty_list_is_rejected_silently :
  forall (filename : string) (file : File) (m : ModalState) (w : World B),
    file_bytes file = CsvExport.blob (CsvExport.downloadCSV [] filename) ->
    (size file <= 5 * 1024 * 1024)%N ->
    CsvImport.validateCSVData Papa.parseFile file
    = CsvImport.mkResult false [] (Some [])
    /\ processFile toLowerCase Papa.parseFile file (m, w)
       = (Eff.Ret tt, (mkModal false [] 0 (onSuccessCalls m), w)).
Proof.
  intros filename file m w Hbytes Hsize.
  assert (Hres : CsvImport.validateCSVData Papa.parseFile file
                 = CsvImport.mkResult false [] (Some [])).
  { unfold CsvImport.validateCSVData, Papa.parseFile. rewrite Hbytes.
    vm_compute. reflexivity. }
  split; [exact Hres|].
  rewrite processFile_invalid.
  - now rewrite Hres.
  - now apply N.ltb_ge.
  - now rewrite Hres.
Qed.

End EmptyExport.

(** X22 at a file that holds the export of the empty list. *)
Lemma export_of_empty_list_is_rejected_silently_witness :
  CSVImportModal.processFile JS.toLowerCaseAscii Papa.parseFile
    (mkFile "empty.csv" 55
       (CsvExport.blob (CsvExport.downloadCSV [] "empty.csv")))
    (Sample.modal, Sample.world)
  = (Eff.Ret tt, (CSVImportModal.mkModal false [] 0 0, Sample.world)).
Proof.
  apply (proj2 (export_of_empty_list_is_rejected_silently
                  JS.toLowerCaseAscii "empty.csv"
                  (mkFile "empty.csv" 55
                     (CsvExport.blob (CsvExport.downloadCSV [] "empty.csv")))
                  Sample.modal Sample.world eq_refl
                  ltac:(vm_compute; discriminate))).
Defined.

(* ================================================================= *)
(** ** Well-formed addresses and white space *)

Lemma strip_visible (rv : bool) (c : ascii) (s : string) :
  visible c = true -> JS.strip rv (String c s) = String c s.
Proof.
  unfold visible. rewrite andb_true_iff, !Nat.leb_le. intros [Hlo Hhi].
  assert (Hne : forall k, k < 33 \/ 126 < k -> (nat_of_ascii c =? k) = false).
  { intros k Hk. apply Nat.eqb_neq. lia. }
  assert (H13 : (nat_of_ascii c <=? 13) = false) by (apply Nat.leb_gt; lia).
  assert (H128 : (128 <=? nat_of_ascii c) = false) by (apply Nat.leb_gt; lia).
  cbn [JS.strip]. unfold JS.ws1, JS.ws2, JS.ws3. cbv zeta.
  rewrite H13, (Hne 32) by lia. rewrite andb_false_r. cbn [orb].
  destruct s as [|b s2]; [reflexivity|].
  destruct rv.
  - rewrite (Hne 160) by lia. rewrite andb_false_r.
    destruct s2 as [|c3 s3]; [reflexivity|].
    rewrite H128, (Hne 128), (Hne 159), (Hne 168), (Hne 169), (Hne 175),
      (Hne 191) by lia.
    cbn [andb orb]. rewrite !andb_false_r. reflexivity.
  - rewrite (Hne 194) by lia. cbn [andb].
    destruct s2 as [|c3 s3]; [reflexivity|].
    rewrite (Hne 225), (Hne 226), (Hne 227), (Hne 239) by lia.
    reflexivity.
Qed.

Lemma allChars_app (p : ascii -> bool) (s t : string) :
  allChars p (s ++ t) = allChars p s && allChars p t.
Proof.
  induction s as [|c s IH]; [reflexivity|].
  cbn [append allChars]. now rewrite IH, andb_assoc.
Qed.

Lemma allChars_impl (p q : ascii -> bool) (s : string) :
  (forall c, p c = true -> q c = true) ->
  allChars p s = true -> allChars q s = true.
Proof.
  intros Himp. induction s as [|c s IH]; [reflexivity|].
  cbn [allChars]. rewrite !andb_true_iff. intros [Hc Hs].
  split; [now apply Himp | now apply IH].
Qed.

Lemma last_char (p : ascii -> bool) (s : string) :
  s <> "" -> allChars p s = true ->
  exists (pre : string) (z : ascii), s = pre ++ String z "" /\ p z = true.
Proof.
  induction s as [|c s IH]; intros Hne Hall; [contradiction|].
  cbn [allChars] in Hall. apply andb_true_iff in Hall.
  destruct Hall as [Hc Hs]. destruct s as [|c' s'].
  - exists "", c. now split.
  - destruct (IH ltac:(discriminate) Hs) as (pre & z & E & Hz).
    exists (String c pre), z. split; [|exact Hz]. cbn [append]. now rewrite E.
Qed.

Lemma class_visible (c : ascii) :
  localChar c = true \/ domainChar c = true \/ Regex.letter c = true ->
  visible c = true /\ Ascii.eqb c JS.dquote = false.
Proof.
  unfold localChar, domainChar, Regex.letter, Regex.digit, Regex.between,
    Regex.oneOf, visible.
  cbn [existsb list_ascii_of_string].
  rewrite !orb_true_iff, !andb_true_iff, !Nat.leb_le, !Ascii.eqb_eq.
  intros Hc.
  assert (Hrange : 33 <= nat_of_ascii c <= 126 /\ nat_of_ascii c <> 34).
  { repeat match goal with
           | H : _ \/ _ |- _ => destruct H as [H | H]
           | H : _ /\ _ |- _ => destruct H
           | H : False |- _ => destruct H
           | H : c = _ |- _ => subst c; vm_compute; lia
           end; lia. }
  split; [lia|].
  apply Ascii.eqb_neq. intros ->. vm_compute in Hrange. lia.
Qed.

Lemma includes_dquote_allChars (s : string) :
  JS.includes s JS.DQUOTE = false <->
  allChars (fun c => negb (Ascii.eqb c JS.dquote)) s = true.
Proof.
  induction s as [|c s IH].
  - split; reflexivity.
  - rewrite includes_dquote_cons. cbn [allChars].
    rewrite orb_false_iff, andb_true_iff, negb_true_iff, IH. reflexivity.
Qed.

Lemma trim_visible_ends (c z : ascii) (mid : string) :
  visible c = true -> visible z = true ->
  JS.trim (String c (mid ++ String z "")) = String c (mid ++ String z "").
Proof.
  intros Hc Hz. unfold JS.trim, JS.trimStart, JS.trimEnd.
  rewrite (strip_visible false c _ Hc).
  cbn [JS.rev]. rewrite rev_append. cbn [JS.rev append].
  rewrite (strip_visible true z _ Hz).
  cbn [JS.rev]. rewrite rev_append, rev_involutive. reflexivity.
Qed.

(** X23. An address that matches the pattern has neither white space
    around it nor a double quote in it: [trim] leaves it as it is, so it
    is never blank, and the export can quote it. *)
Theorem well_formed_email_is_plain :
  forall e : string,
    Regex.test CsvImport.EMAIL e = true ->
    JS.trim e = e
    /\ JS.isEmpty (JS.trim e) = false
    /\ JS.includes e JS.DQUOTE = false
    /\ plainField e = true.
Proof.
  intros e Hm. apply email_shape_of_match in Hm.
  destruct Hm as (l & d & t & -> & Hl1 & Hl2 & Hd1 & Hd2 & Ht1 & Ht2).
  assert (Hq : JS.includes (l ++ "@" ++ d ++ "." ++ t) JS.DQUOTE = false).
  { apply includes_dquote_allChars.
    rewrite allChars_app. cbn [append allChars].
    rewrite allChars_app. cbn [append allChars].
    rewrite (allChars_impl localChar _ l), (allChars_impl domainChar _ d),
      (allChars_impl Regex.letter _ t); try assumption; try reflexivity;
      intros c Hc; apply negb_true_iff; apply class_visible; tauto. }
  assert (Htrim : JS.trim (l ++ "@" ++ d ++ "." ++ t)
                  = l ++ "@" ++ d ++ "." ++ t).
  { destruct l as [|c l']; [contradiction|].
    cbn [allChars] in Hl2. apply andb_true_iff in Hl2. destruct Hl2 as [Hc _].
    assert (Ht0 : t <> "") by (intros ->; cbn in Ht1; lia).
    destruct (last_char Regex.letter t Ht0 Ht2) as (pre & z & -> & Hz).
    assert (E : String c l' ++ "@" ++ d ++ "." ++ pre ++ String z ""
                = String c ((l' ++ "@" ++ d ++ "." ++ pre) ++ String z "")).
    { cbn [append]. f_equal. rewrite append_assoc. cbn [append].
      rewrite append_assoc. cbn [append]. reflexivity. }
    rewrite E. apply trim_visible_ends; apply class_visible; tauto. }
  split; [exact Htrim|]. split.
  - rewrite Htrim. destruct l; [contradiction | reflexivity].
  - split; [exact Hq|]. unfold plainField. rewrite Hq, Htrim.
    destruct l; [contradiction | reflexivity].
Qed.

(** X23 at a sample address. *)
Lemma well_formed_email_is_plain_witness :
  JS.trim "taro@example.com" = "taro@example.com"
  /\ plainField "taro@example.com" = true.
Proof.
  destruct (well_formed_email_is_plain "taro@example.com")
    as (Ht & _ & _ & Hp); [vm_compute; reflexivity|].
  split; [exact Ht | exact Hp].
Defined.

(* ================================================================= *)
(** ** Errors that reach the caller of [createEmployee] *)

Section ErrorPropagation.
Import Database.
Context {B : Type} `{Backend B}.

(** X24. An error of the existence check with a code other than
    [PGRST116] is thrown by [createEmployee] as it is, before any insert;
    with the code [PGRST116] and no data the check counts as passed.  An
    error of the insert with a code other than [23505] is thrown as it is
    as well. *)
Theorem createEmployee_passes_backend_errors_on :
  forall (d : EmployeeData) (w : World B) (r : Response string) (b' : B),
    selectIdByEmail (email d) (backend w) = (r, b') ->
    (forall e, error r = Some e -> code e <> "PGRST116" ->
       createEmployee d w
       = (Eff.Throw (Rethrown e),
          mkWorld b'
            (calls w ++ [CallCreateEmployee d; RequestSelect (email d)])%list))
    /\ (forall (r2 : Response Employee) (b'' : B),
           data r = None ->
           (error r = None
            \/ exists e0, error r = Some e0 /\ code e0 = "PGRST116") ->
           insertEmployee d (nowISO b') b' = (r2, b'') ->
           createEmployee d w
           = (match error r2 with
              | Some e =>
                  if String.eqb (code e) "23505"
                  then Eff.Throw (NewError DUPLICATE_EMAIL)
                  else Eff.Throw (Rethrown e)
              | None => Eff.Ret (data r2)
              end,
              mkWorld b''
                (calls w ++ [CallCreateEmployee d; RequestSelect (email d);
                             RequestInsert d (nowISO b')])%list)).
Proof.
  intros d w r b' Hsel.
  unfold createEmployee, checkEmailExists, requestSelect, requestInsert,
    record, Eff.bind, Eff.modify, Eff.throw, Eff.ret, Eff.gets.
  cbn [backend calls]. rewrite Hsel. split.
  - intros e He Hcode. apply String.eqb_neq in Hcode.
    rewrite He, Hcode. cbn [negb backend calls].
    now rewrite <- app_assoc.
  - intros r2 b'' Hdata Herr Hins.
    destruct Herr as [Herr | [e0 [Herr Hc0]]]; rewrite Herr, ?Hc0, Hdata;
      rewrite ?String.eqb_refl; cbn [negb backend calls];
      rewrite Hins; cbn [backend calls]; rewrite <- !app_assoc;
      (destruct (error r2) as [e|];
       [destruct (code e =? "23505")%string|]); reflexivity.
Qed.

End ErrorPropagation.

(** X24 at a backend whose existence check fails. *)
Lemma createEmployee_passes_backend_errors_on_witness :
  Database.createEmployee (H := MoreSamples.OfflineBackend) Sample.taro
    (Database.mkWorld tt [])
  = (Eff.Throw (Database.Rethrown MoreSamples.offline),
     Database.mkWorld tt
       [Database.CallCreateEmployee Sample.taro;
        Database.RequestSelect "taro@example.com"]).
Proof.
  destruct (createEmployee_passes_backend_errors_on
              (H := MoreSamples.OfflineBackend) Sample.taro
              (Database.mkWorld tt [])
              (Database.mkResponse None (Some MoreSamples.offline)) tt)
    as [Hcheck _]; [reflexivity|].
  apply Hcheck; [reflexivity | discriminate].
Defined.

(* ================================================================= *)
(** ** The messages of the import loop, in order *)

Section ImportReport.
Import Database CSVImportModal.
Variable toLowerCase : string -> string.
Context {B : Type} `{Backend B}.

Lemma getErrorMessage_prefix (error : Thrown) (employeeName : string) :
  exists rest : string,
    getErrorMessage toLowerCase error employeeName = employeeName ++ rest.
Proof.
  unfold getErrorMessage, fieldName.
  repeat match goal with
         | |- context [if ?b then _ else _] => destruct b
         end;
    eexists; reflexivity.
Qed.

Lemma report_names_rows (records : list EmployeeData) :
  forall (earlier : list string)
         (results : list (Eff.Result Thrown (option Employee))) (m : string),
    In m (report toLowerCase earlier records results) ->
    exists (r : EmployeeData) (rest : string),
      In r records /\ m = name r ++ rest.
Proof.
  induction records as [|r rest IH]; intros earlier results m Hin;
    [destruct Hin|].
  cbn [report] in Hin.
  assert (Hrec : forall results',
             In m (report toLowerCase (earlier ++ [email r])%list rest
                     results') ->
             exists (r0 : EmployeeData) (rest0 : string),
               In r0 (r :: rest) /\ m = name r0 ++ rest0).
  { intros results' Hm. destruct (IH _ _ _ Hm) as (r0 & rest0 & Hr0 & E).
    exists r0, rest0. split; [now right | exact E]. }
  destruct (mem (email r) earlier).
  - destruct Hin as [<- | Hin]; [|now apply Hrec in Hin].
    exists r. eexists. split; [now left | reflexivity].
  - destruct results as [|[x | e] results']; [destruct Hin| |].
    + now apply Hrec in Hin.
    + destruct Hin as [<- | Hin]; [|now apply Hrec in Hin].
      destruct (getErrorMessage_prefix e (name r)) as [rest0 E].
      exists r, rest0. split; [now left | exact E].
Qed.

Lemma for_of_importRecord_report (records : list EmployeeData) :
  forall (st : Loop) (w : World B) (earlier : list string),
    (forall e, mem e (duplicateEmails st) = mem e earlier) ->
    exists st' : Loop,
      Eff.for_of (importRecord toLowerCase) st records w
      = (Eff.Ret st', snd (createAll (firstRows earlier records) w))
      /\ importErrors st'
         = (importErrors st
              ++ report toLowerCase earlier records
                   (fst (createAll (firstRows earlier records) w)))%list.
Proof.
  induction records as [|r rest IH]; intros st w earlier Hset.
  - exists st. cbn. now rewrite app_nil_r.
  - cbn [Eff.for_of firstRows report]. unfold Eff.bind.
    rewrite importRecord_cases, Hset.
    destruct (mem (email r) earlier) eqn:Hmem.
    + edestruct (IH (mkLoop (imported st)
                       (importErrors st ++ [duplicateInFile (name r)])%list
                       (duplicateEmails st)) w (earlier ++ [email r])%list)
        as [st' (Hrun & Herr)].
      { intros e. cbn [duplicateEmails]. rewrite mem_snoc, Hset.
        destruct (String.eqb_spec e (email r)) as [-> | _];
          [now rewrite Hmem | now rewrite orb_false_r]. }
      exists st'. split; [exact Hrun|]. rewrite Herr.
      cbn [importErrors]. now rewrite <- app_assoc.
    + rewrite createAll_cons. cbn [fst snd].
      destruct (fst (createEmployee r w)) as [a | e] eqn:Hres.
      * edestruct (IH (mkLoop (S (imported st)) (importErrors st)
                         (duplicateEmails st ++ [email r])%list)
                      (snd (createEmployee r w)) (earlier ++ [email r])%list)
          as [st' (Hrun & Herr)].
        { intros e. cbn [duplicateEmails]. now rewrite !mem_snoc, Hset. }
        exists st'. split; [exact Hrun | exact Herr].
      * edestruct (IH (mkLoop (imported st)
                         (importErrors st
                            ++ [getErrorMessage toLowerCase e (name r)])%list
                         (duplicateEmails st ++ [email r])%list)
                      (snd (createEmployee r w)) (earlier ++ [email r])%list)
          as [st' (Hrun & Herr)].
        { intros e'. cbn [duplicateEmails]. now rewrite !mem_snoc, Hset. }
        exists st'. split; [exact Hrun|]. rewrite Herr.
        cbn [importErrors]. now rewrite <- app_assoc.
Qed.

(** X25. The errors an import loop leaves are the messages of the rows
    that were not imported, in row order: the message on the repetition
    for a row that repeats an earlier address, and the message for the
    thrown error for a row whose call failed.  Every message begins with
    the name of a row of the batch. *)
Theorem importLoop_reports_in_row_order :
  forall (records : list EmployeeData) (w : World B),
    exists st : Loop,
      importLoop toLowerCase records w
      = (Eff.Ret st, snd (createAll (firstRows [] records) w))
      /\ importErrors st
         = report toLowerCase [] records
             (fst (createAll (firstRows [] records) w))
      /\ forall m, In m (importErrors st) ->
           exists (r : EmployeeData) (rest : string),
             In r records /\ m = name r ++ rest.
Proof.
  intros records w.
  destruct (for_of_importRecord_report records (mkLoop 0 [] []) w [])
    as [st (Hrun & Herr)]; [reflexivity|].
  cbn [importErrors app] in Herr.
  exists st. split; [exact Hrun|]. split; [exact Herr|].
  intros m Hm. rewrite Herr in Hm. exact (report_names_rows _ _ _ _ Hm).
Qed.

End ImportReport.
